(** * PJM day-ahead dashboard: the aggregation pipeline of
    [generate_pjm_dashboard.py]

    A shallow embedding of [load_data], [season_of_month] and of the
    statements of [build_dashboard] that compute, with the pandas operations
    the script calls written out as list functions.

    Conventions.
    - A float64 price is an exact rational ([Q]); pandas' NaN, its marker of
      a missing value, is [None].  Numbers are compared with [==] ([Qeq]).
      Rounding is not embedded: a sum or a quotient is the exact one.
    - A square root cannot be a rational: a standard deviation is kept as
      [Sqrt v], the non-negative root of the variance [v], and a Pearson
      coefficient as the covariance sum and the two sums of squares it is
      the quotient of.
    - An exception is a value of [Error], carried by [Result].
    - [DataFrame.sort_values] is called with its default [kind='quicksort'],
      which the library documents as not stable.  The sort is therefore a
      parameter ([Sorter]) of every function that sorts; what is proved for
      the pipeline assumes only [sort_contract].  [insertion_sort] is a
      stable sort, [reversing_sort] one that is not, and [np_quicksort]
      follows the scalar quicksort of numpy's source; it serves in examples
      only.
    - [DataFrame.stack] is the one of pandas before 3.0, which the script
      calls with its default [dropna=True].
    - [pd.to_datetime] reads an empty cell as NaT and raises nothing;
      [load_data] keeps such a row and sorts it last.  A date of the long
      form is a [Timestamp], which is never NaT: the derived views are
      embedded for the records that have a date, and [wide] gives no series
      for a frame that holds a row without one.
    - Of the figures, what they select from the derived frames is
      embedded (the top ten and the sparkline zones, the default zone and
      year, the traces of the seasonality figure); the drawing, the HTML and
      the writing of the CSV files are left out.
    - Line 328 of the script, in [build_year_go], closes one parenthesis
      more than it opens, so Python rejects the file as it stands.  The
      embedding follows the statements as they are written, that
      parenthesis apart; nothing here says that the script runs. *)

From Stdlib Require Import String Ascii Bool Arith ZArith QArith Qround Lia Lqa.
From Stdlib Require Import OrdersEx.
From Stdlib Require Import List Permutation Sorted.
Import ListNotations.

Set Implicit Arguments.

(* ================================================================== *)
(** ** Exceptions *)

Inductive Error : Type :=
| SchemaError        (* ValueError("Input sheet must contain a 'Date' column.") *)
| ParseError         (* pd.to_datetime could not read a cell *)
| KeyError           (* season_of_month: a month outside the dictionary *)
| IntCastingNaNError (* .astype(int) on a column holding NaN *)
| IndexError.        (* zone_cols[0] without a zone column, years_sorted[-1] without a year *)

Inductive Result (A : Type) : Type :=
| Ok (a : A)
| Raise (e : Error).
Arguments Ok {A} a.
Arguments Raise {A} e.

Definition bind {A B} (c : Result A) (k : A -> Result B) : Result B :=
  match c with
  | Ok a => k a
  | Raise e => Raise e
  end.

Notation "x <- c ;; k" := (bind c (fun x => k))
  (at level 61, c at next level, right associativity).

Fixpoint mapM {A B} (f : A -> Result B) (l : list A) : Result (list B) :=
  match l with
  | [] => Ok []
  | a :: l' => b <- f a ;; bs <- mapM f l' ;; Ok (b :: bs)
  end.

(* ================================================================== *)
(** ** Sorting: the contract of [kind='quicksort'] and two sorts *)

(** A sort takes the strict comparison of the keys (numpy's [Tag::less]). *)
Definition Sorter : Type := forall A : Type, (A -> A -> bool) -> list A -> list A.

Record StrictWeak {A} (less : A -> A -> bool) : Prop := {
  less_asym : forall x y, less x y = true -> less y x = false;
  less_negtrans : forall x y z,
      less y x = false -> less z y = false -> less z x = false }.

(** [ascending_by less l]: no element is followed by a smaller one. *)
Definition ascending_by {A} (less : A -> A -> bool) : list A -> Prop :=
  StronglySorted (fun x y => less y x = false).

(** [descending_by less l]: no element is followed by a larger one. *)
Definition descending_by {A} (less : A -> A -> bool) : list A -> Prop :=
  StronglySorted (fun x y => less x y = false).

Record sort_contract (kind : Sorter) : Prop := {
  sort_perm : forall A (less : A -> A -> bool) l, Permutation l (kind A less l);
  sort_sorted : forall A (less : A -> A -> bool) l,
      StrictWeak less -> ascending_by less (kind A less l) }.

(** A sort is stable when every class of tied elements keeps its order. *)
Definition stable (kind : Sorter) : Prop :=
  forall A (less : A -> A -> bool) (p : A -> bool) l,
    StrictWeak less ->
    (forall x y, p x = true -> p y = true -> less x y = false) ->
    filter p (kind A less l) = filter p l.

(** *** Insertion sort ([kind='stable']) *)

Fixpoint insert_sorted {A} (less : A -> A -> bool) (x : A) (l : list A) : list A :=
  match l with
  | [] => [x]
  | y :: l' => if less y x then y :: insert_sorted less x l' else x :: l
  end.

Definition insertion_sort : Sorter :=
  fun A less l => fold_right (insert_sorted less) [] l.

(** *** numpy's quicksort, [npy_quicksort]/[aquicksort] of npysort/quicksort.cpp

    An introsort: a range of more than 17 elements is partitioned around the
    median of its first, middle and last element, a smaller one is sorted by
    insertion, and a range popped from the stack once the depth budget of
    [2 * floor (log2 n)] is spent goes to heapsort.  The explicit stack of
    the C code is the recursion here: the ranges are disjoint, so the order
    in which they are finished does not change the array.  numpy runs other
    code where the CPU has vector instructions, and where exactly the small
    ranges begin is not relied on: the sort serves to show one outcome that
    is not stable, on eighteen tied records, and in closed examples. *)

Fixpoint set_nth {A} (i : nat) (x : A) (a : list A) : list A :=
  match a, i with
  | [], _ => []
  | _ :: a', O => x :: a'
  | y :: a', S i' => y :: set_nth i' x a'
  end.

Definition swap {A} (a : list A) (i j : nat) : list A :=
  match nth_error a i, nth_error a j with
  | Some x, Some y => set_nth j x (set_nth i y a)
  | _, _ => a
  end.

(** [less_at less a i j] is [less(v[a[i]], v[a[j]])]. *)
Definition less_at {A} (less : A -> A -> bool) (a : list A) (i j : nat) : bool :=
  match nth_error a i, nth_error a j with
  | Some x, Some y => less x y
  | _, _ => false
  end.

(** [do { ++pi; } while (less(v[*pi], vp))], entered at [pi + 1]. *)
Fixpoint scan_up {A} (fuel : nat) (less : A -> A -> bool) (a : list A) (vp : A)
         (pi : nat) : nat :=
  match fuel with
  | O => pi
  | S fuel' =>
      match nth_error a pi with
      | Some x => if less x vp then scan_up fuel' less a vp (S pi) else pi
      | None => pi
      end
  end.

(** [do { --pj; } while (less(vp, v[*pj]))], entered at [pj - 1]. *)
Fixpoint scan_down {A} (fuel : nat) (less : A -> A -> bool) (a : list A) (vp : A)
         (pj : nat) : nat :=
  match fuel with
  | O => pj
  | S fuel' =>
      match nth_error a pj with
      | Some x => if less vp x then scan_down fuel' less a vp (pred pj) else pj
      | None => pj
      end
  end.

(** The [for (;;)] of the partition: returns the array and the final [pi]. *)
Fixpoint hoare_loop {A} (fuel : nat) (less : A -> A -> bool) (a : list A) (vp : A)
         (pi pj : nat) : list A * nat :=
  match fuel with
  | O => (a, pi)
  | S fuel' =>
      let pi' := scan_up (length a) less a vp (S pi) in
      let pj' := scan_down (length a) less a vp (pred pj) in
      if (pj' <=? pi')%nat then (a, pi')
      else hoare_loop fuel' less (swap a pi' pj') vp pi' pj'
  end.

Definition partition {A} (less : A -> A -> bool) (a : list A) (pl pr : nat)
  : list A * nat :=
  let pm := (pl + (pr - pl) / 2)%nat in
  let a := if less_at less a pm pl then swap a pm pl else a in
  let a := if less_at less a pr pm then swap a pr pm else a in
  let a := if less_at less a pm pl then swap a pm pl else a in
  match nth_error a pm with
  | None => (a, pl)
  | Some vp =>
      let pj := (pr - 1)%nat in
      let a := swap a pm pj in
      let '(a, pi) := hoare_loop (length a) less a vp pl pj in
      (swap a pi (pr - 1), pi)
  end.

(** The insertion sort of the range [pl..pr]: each element moves left past
    the elements strictly greater than it. *)
Fixpoint insert_from_right {A} (less : A -> A -> bool) (x : A) (rev_sorted : list A)
  : list A :=
  match rev_sorted with
  | [] => [x]
  | y :: l' => if less x y then y :: insert_from_right less x l' else x :: rev_sorted
  end.

Definition on_range {A} (f : list A -> list A) (a : list A) (pl pr : nat) : list A :=
  firstn pl a ++ f (firstn (S pr - pl) (skipn pl a)) ++ skipn (pl + (S pr - pl)) a.

Definition insertion_range {A} (less : A -> A -> bool) (a : list A) (pl pr : nat)
  : list A :=
  on_range (fun seg => rev (fold_left (fun acc x => insert_from_right less x acc) seg []))
           a pl pr.

(** [aheapsort]: the array is addressed from 1, [tmp] is the element held
    out of the array while the hole [i] sinks. *)
Fixpoint sift_down {A} (fuel : nat) (less : A -> A -> bool) (s : list A) (tmp : A)
         (i j n : nat) : list A :=
  match fuel with
  | O => set_nth (i - 1) tmp s
  | S fuel' =>
      if (j <=? n)%nat then
        let j := if (j <? n)%nat && less_at less s (j - 1) j then S j else j in
        match nth_error s (j - 1) with
        | Some y =>
            if less tmp y
            then sift_down fuel' less (set_nth (i - 1) y s) tmp j (j + j) n
            else set_nth (i - 1) tmp s
        | None => set_nth (i - 1) tmp s
        end
      else set_nth (i - 1) tmp s
  end.

Fixpoint heapify {A} (less : A -> A -> bool) (s : list A) (l n : nat) : list A :=
  match l with
  | O => s
  | S l' =>
      match nth_error s (l - 1) with
      | Some tmp => heapify less (sift_down n less s tmp l (l + l) n) l' n
      | None => s
      end
  end.

Fixpoint pop_max {A} (less : A -> A -> bool) (s : list A) (n : nat) : list A :=
  match n with
  | O => s
  | S n' =>
      match n' with
      | O => s
      | S _ =>
          match nth_error s (n - 1), nth_error s 0 with
          | Some tmp, Some top =>
              pop_max less (sift_down n less (set_nth (n - 1) top s) tmp 1 2 n') n'
          | _, _ => s
          end
      end
  end.

Definition heapsort {A} (less : A -> A -> bool) (s : list A) : list A :=
  let n := length s in
  pop_max less (heapify less s (n / 2) n) n.

Fixpoint quicksort_loop {A} (fuel : nat) (less : A -> A -> bool) (cdepth : Z)
         (a : list A) (pl pr : nat) : list A :=
  match fuel with
  | O => a
  | S fuel' =>
      if (16 <? pr - pl)%nat then
        let '(a, pi) := partition less a pl pr in
        let cdepth := (cdepth - 1)%Z in
        let popped a l r :=
          if (cdepth <? 0)%Z then on_range (heapsort less) a l r
          else quicksort_loop fuel' less cdepth a l r in
        if (pi - pl <? pr - pi)%nat
        then popped (quicksort_loop fuel' less cdepth a pl (pi - 1)%nat) (S pi) pr
        else popped (quicksort_loop fuel' less cdepth a (S pi) pr) pl (pi - 1)%nat
      else insertion_range less a pl pr
  end.

Definition np_quicksort : Sorter :=
  fun A less l =>
    let n := length l in
    quicksort_loop (S n) less (2 * Z.log2 (Z.of_nat n))%Z l 0%nat (n - 1)%nat.

(** [DataFrame.sort_values(by, ascending)] on keys that are all present
    ([nargsort]): a descending sort reverses the rows, sorts them ascending
    and reverses the outcome. *)
Definition sort_values {A} (kind : Sorter) (less : A -> A -> bool) (ascending : bool)
           (rows : list A) : list A :=
  if ascending then kind A less rows else rev (kind A less (rev rows)).

Local Open Scope Q_scope.

Definition Qltb (x y : Q) : bool := negb (Qle_bool y x).

(* ================================================================== *)
(** ** Timestamps *)

Record Timestamp : Type := { year : Z; month : Z; day : Z; hour : Z }.

(** The order of datetime64 values: the fields, most significant first. *)
Definition ts_ltb (a b : Timestamp) : bool :=
  (year a <? year b)%Z
  || ((year a =? year b)%Z
      && ((month a <? month b)%Z
          || ((month a =? month b)%Z
              && ((day a <? day b)%Z
                  || ((day a =? day b)%Z && (hour a <? hour b)%Z))))).

(** What [pd.to_datetime] yields: a date of the calendar at a full hour. *)
Definition valid_ts (t : Timestamp) : Prop :=
  (1 <= month t <= 12)%Z /\ (1 <= day t <= 31)%Z /\ (0 <= hour t <= 23)%Z.

(** Days since 1970-01-01 and the name of the day ([dt.day_name()]). *)
Definition days_from_civil (t : Timestamp) : Z :=
  let y := (if month t <=? 2 then year t - 1 else year t)%Z in
  let era := (y / 400)%Z in
  let yoe := (y - era * 400)%Z in
  let mp := (if month t <=? 2 then month t + 9 else month t - 3)%Z in
  let doy := ((153 * mp + 2) / 5 + day t - 1)%Z in
  let doe := (yoe * 365 + yoe / 4 - yoe / 100 + doy)%Z in
  (era * 146097 + doe - 719468)%Z.

Definition dow_order : list string :=
  ["Monday"; "Tuesday"; "Wednesday"; "Thursday"; "Friday"; "Saturday"; "Sunday"]%string.

Definition day_name (t : Timestamp) : string :=
  nth (Z.to_nat ((days_from_civil t + 3) mod 7)) dow_order "Monday"%string.

(** The order of Python strings (by code point). *)
Definition str_ltb (a b : string) : bool :=
  match String_as_OT.compare a b with
  | Lt => true
  | _ => false
  end.

(* ================================================================== *)
(** ** Statistics of a list of (present) values *)

Definition Qsum (l : list Q) : Q := fold_right Qplus 0 l.

Definition Qlen (l : list Q) : Q := inject_Z (Z.of_nat (length l)).

Definition mean (l : list Q) : option Q :=
  match l with
  | [] => None
  | _ => Some (Qsum l / Qlen l)
  end.

(** The order statistics. *)
Definition sorted_values (l : list Q) : list Q := insertion_sort Qltb l.

Definition median (l : list Q) : option Q :=
  let s := sorted_values l in
  let n := length s in
  match n with
  | O => None
  | _ => if Nat.even n
         then Some ((nth (n / 2 - 1) s 0 + nth (n / 2) s 0) / 2)
         else Some (nth (n / 2) s 0)
  end.

Definition Qmin_list (l : list Q) : option Q :=
  match l with
  | [] => None
  | x :: l' => Some (fold_left (fun m y => if Qltb y m then y else m) l' x)
  end.

Definition Qmax_list (l : list Q) : option Q :=
  match l with
  | [] => None
  | x :: l' => Some (fold_left (fun m y => if Qltb m y then y else m) l' x)
  end.

(** [Series.quantile(q)], interpolation 'linear': the value at the virtual
    index [(n - 1) * q] between the two order statistics around it. *)
Definition quantile (q : Q) (l : list Q) : option Q :=
  let s := sorted_values l in
  let n := length s in
  match n with
  | O => None
  | _ =>
      let h := inject_Z (Z.of_nat (n - 1)) * q in
      let lo := Z.to_nat (Qfloor h) in
      let hi := Nat.min (S lo) (n - 1) in
      let gamma := h - inject_Z (Qfloor h) in
      Some (nth lo s 0 + (nth hi s 0 - nth lo s 0) * gamma)
  end.

(** Sum of the squared deviations from the mean [m]. *)
Definition ssqdm (m : Q) (l : list Q) : Q :=
  Qsum (map (fun x => (x - m) * (x - m)) l).

(** [var(ddof=1)]: NaN unless there are more observations than [ddof]. *)
Definition var (l : list Q) : option Q :=
  match mean l with
  | Some m =>
      if (length l <=? 1)%nat then None
      else Some (ssqdm m l / inject_Z (Z.of_nat (length l - 1)))
  | None => None
  end.

(** [Sqrt v] stands for the non-negative square root of [v]. *)
Inductive Root : Type := Sqrt (v : Q).

Definition std (l : list Q) : option Root := option_map Sqrt (var l).

(** The values that are not NaN ([skipna=True]). *)
Definition present {A} (l : list (option A)) : list A :=
  flat_map (fun c => match c with Some x => [x] | None => [] end) l.

(* ================================================================== *)
(** ** Group-by *)

Section GroupBy.
Context {R K : Type}.
Variable key : R -> K.
Variable K_ltb : K -> K -> bool.

Definition key_eqb (a b : K) : bool := negb (K_ltb a b) && negb (K_ltb b a).

Fixpoint insert_key (k : K) (ks : list K) : list K :=
  match ks with
  | [] => [k]
  | k' :: ks' =>
      if K_ltb k k' then k :: ks
      else if K_ltb k' k then k' :: insert_key k ks'
      else ks
  end.

(** The distinct keys, ascending ([sort=True]). *)
Definition group_keys (records : list R) : list K :=
  fold_right insert_key [] (map key records).

(** One group per key, its records in their original order. *)
Definition groupby (records : list R) : list (K * list R) :=
  map (fun k => (k, filter (fun r => key_eqb (key r) k) records)) (group_keys records).

End GroupBy.

(** A strict order that separates any two different keys. *)
Definition StrictTotal {K} (less : K -> K -> bool) : Prop :=
  StrictWeak less /\ forall a b, less a b = false -> less b a = false -> a = b.

(** The lexicographic order of pairs, as group-by orders a compound key. *)
Definition lex_ltb {A B} (ltA : A -> A -> bool) (ltB : B -> B -> bool) (a b : A * B) : bool :=
  ltA (fst a) (fst b) || (key_eqb ltA (fst a) (fst b) && ltB (snd a) (snd b)).

(** [.reindex(labels)]: the row of each label, a row of NaN where there is none. *)
Definition reindex {V} (labels : list string) (missing : V) (table : list (string * V))
  : list (string * V) :=
  map (fun l => match find (fun kv => String.eqb (fst kv) l) table with
                | Some kv => (l, snd kv)
                | None => (l, missing)
                end) labels.

(* ================================================================== *)
(** ** The data model *)

(** A row of [wide = df.set_index("Date")[zone_cols]]. *)
Record Row : Type := { index : Timestamp; values : list (option Q) }.

Record RawSeries : Type := { zone_cols : list string; rows : list Row }.

(** A row of [stacked], columns Date, Zone, Price. *)
Record LongRecord : Type := { Date : Timestamp; Zone : string; Price : Q }.

(** Every row has one cell per zone column. *)
Definition rectangular (rs : RawSeries) : Prop :=
  Forall (fun r => length (values r) = length (zone_cols rs)) (rows rs).

(** No cell is missing. *)
Definition complete (rs : RawSeries) : Prop :=
  Forall (fun r => Forall (fun c => c <> None) (values r)) (rows rs).

(** The cells that are NaN. *)
Definition count_missing (vs : list (option Q)) : nat :=
  length (filter (fun c => match c with None => true | Some _ => false end) vs).

Definition missing_cells (rs : RawSeries) : nat :=
  count_missing (flat_map values (rows rs)).

(** Column [j] of [wide]. *)
Definition column (j : nat) (rs : RawSeries) : list (option Q) :=
  map (fun r => nth j (values r) None) (rows rs).

(** *** Long form: [wide.stack().reset_index()]

    [stack] goes through the rows and, in each, through the columns, and
    leaves out the cells that are NaN ([dropna=True]). *)
Definition cell_records (d : Timestamp) (zones : list string) (vs : list (option Q))
  : list LongRecord :=
  flat_map (fun zc => match snd zc with
                      | Some p => [{| Date := d; Zone := fst zc; Price := p |}]
                      | None => []
                      end)
           (combine zones vs).

Definition stack_row (zones : list string) (r : Row) : list LongRecord :=
  cell_records (index r) zones (values r).

Definition stack (rs : RawSeries) : list LongRecord :=
  flat_map (stack_row (zone_cols rs)) (rows rs).

Definition prices (stacked : list LongRecord) : list Q := map Price stacked.

(* ================================================================== *)
(** ** The derived views of [build_dashboard] *)

(** *** Zone summary *)

Record ZoneStats : Type := {
  zs_Zone : string;
  zs_Mean : option Q;
  zs_Median : option Q;
  zs_Min : option Q;
  zs_Max : option Q;
  zs_P95 : option Q;
  zs_Stdev : option Root }.

Record ZoneSummary : Type := { zone_stats : ZoneStats; Rank : Z }.

Definition agg_zone (g : string * list LongRecord) : ZoneStats :=
  let p := prices (snd g) in
  {| zs_Zone := fst g;
     zs_Mean := mean p;
     zs_Median := median p;
     zs_Min := Qmin_list p;
     zs_Max := Qmax_list p;
     zs_P95 := quantile (95 # 100) p;
     zs_Stdev := std p |}.

(** [stacked.groupby("Zone").agg(...)] *)
Definition zone_agg (stacked : list LongRecord) : list ZoneStats :=
  map agg_zone (groupby Zone str_ltb stacked).

Definition is_nan {A} (o : option A) : bool :=
  match o with
  | None => true
  | Some _ => false
  end.

Definition option_ltb (a b : option Q) : bool :=
  match a, b with
  | Some x, Some y => Qltb x y
  | _, _ => false
  end.

(** [Series.rank(method="first", ascending=False)]: one plus the number of
    larger values and of equal values that stand earlier; NaN keeps NaN. *)
Definition rank_first_desc (col : list (option Q)) : list (option Z) :=
  map (fun i =>
         match nth i col None with
         | None => None
         | Some m =>
             let larger := filter (fun o => option_ltb (Some m) o) col in
             let earlier := filter (fun o => match o with
                                             | Some x => Qeq_bool x m
                                             | None => false
                                             end) (firstn i col) in
             Some (1 + Z.of_nat (length larger) + Z.of_nat (length earlier))%Z
         end)
      (seq 0 (length col)).

(** [.astype(int)] *)
Definition astype_int (col : list (option Z)) : Result (list Z) :=
  mapM (fun o => match o with
                 | Some z => Ok z
                 | None => Raise IntCastingNaNError
                 end) col.

Section Sorting.
Variable kind : Sorter.

(** [.sort_values("Mean", ascending=False)]: the rows with a mean, sorted on
    it, then the rows whose mean is NaN ([na_position='last']). *)
Definition with_mean (rows : list ZoneStats) : list (Q * ZoneStats) :=
  flat_map (fun r => match zs_Mean r with
                     | Some m => [(m, r)]
                     | None => []
                     end) rows.

Definition by_mean (a b : Q * ZoneStats) : bool := Qltb (fst a) (fst b).

Definition sort_by_mean (rows : list ZoneStats) : list ZoneStats :=
  map snd (sort_values kind by_mean false (with_mean rows))
  ++ filter (fun r => is_nan (zs_Mean r)) rows.

Definition zone_summary (stacked : list LongRecord) : Result (list ZoneSummary) :=
  let sorted := sort_by_mean (zone_agg stacked) in
  ranks <- astype_int (rank_first_desc (map zs_Mean sorted)) ;;
  Ok (map (fun sr => {| zone_stats := fst sr; Rank := snd sr |}) (combine sorted ranks)).

(** *** Extremes: [stacked.sort_values("Price", ascending=...).head(20)] *)
Definition price_ltb (a b : LongRecord) : bool := Qltb (Price a) (Price b).

Definition idxmax (stacked : list LongRecord) : list LongRecord :=
  firstn 20 (sort_values kind price_ltb false stacked).

Definition idxmin (stacked : list LongRecord) : list LongRecord :=
  firstn 20 (sort_values kind price_ltb true stacked).

Definition extremes (stacked : list LongRecord) : list LongRecord * list LongRecord :=
  (idxmax stacked, idxmin stacked).

End Sorting.

Definition zone_of (s : ZoneSummary) : string := zs_Zone (zone_stats s).

Definition mean_of (s : ZoneSummary) : option Q := zs_Mean (zone_stats s).

(** The records of one zone. *)
Definition of_zone (z : string) (stacked : list LongRecord) : list LongRecord :=
  filter (fun r => String.eqb (Zone r) z) stacked.

(** The mean is the number [v]. *)
Definition mean_is (v : Q) (s : ZoneStats) : bool :=
  match zs_Mean s with
  | Some m => Qeq_bool m v
  | None => false
  end.

(** *** Overall KPIs *)
Record Overall : Type := {
  Hours : nat;
  Zones : nat;
  o_Mean : option Q;
  o_Median : option Q;
  o_Min : option Q;
  o_Max : option Q;
  o_P95 : option Q;
  o_Stdev : option Root }.

Definition overall (rs : RawSeries) : Overall :=
  let p := prices (stack rs) in
  {| Hours := length (rows rs);
     Zones := length (zone_cols rs);
     o_Mean := mean p;
     o_Median := median p;
     o_Min := Qmin_list p;
     o_Max := Qmax_list p;
     o_P95 := quantile (95 # 100) p;
     o_Stdev := std p |}.

(** *** Monthly averages: [groupby(["Zone", "Year", "Month"])["Price"].mean()] *)
Definition ym_key (r : LongRecord) : string * (Z * Z) :=
  (Zone r, (year (Date r), month (Date r))).

Definition ym_ltb : string * (Z * Z) -> string * (Z * Z) -> bool :=
  lex_ltb str_ltb (lex_ltb Z.ltb Z.ltb).

Definition monthly (stacked : list LongRecord) : list (string * (Z * Z) * option Q) :=
  map (fun g => (fst g, mean (prices (snd g)))) (groupby ym_key ym_ltb stacked).

(** *** Hour-of-day and day-of-week profiles *)
Definition hod (stacked : list LongRecord) : list (Z * option Q) :=
  map (fun g => (fst g, mean (prices (snd g))))
      (groupby (fun r => hour (Date r)) Z.ltb stacked).

Definition dow (stacked : list LongRecord) : list (string * option Q) :=
  reindex dow_order None
          (map (fun g => (fst g, mean (prices (snd g))))
               (groupby (fun r => day_name (Date r)) str_ltb stacked)).

(** *** Seasons *)
Definition season_table : list (Z * string) :=
  [(12, "Winter"); (1, "Winter"); (2, "Winter");
   (3, "Spring"); (4, "Spring"); (5, "Spring");
   (6, "Summer"); (7, "Summer"); (8, "Summer");
   (9, "Autumn"); (10, "Autumn"); (11, "Autumn")]%Z%string.

Definition season_of_month (m : Z) : Result string :=
  match find (fun kv => (fst kv =? m)%Z) season_table with
  | Some kv => Ok (snd kv)
  | None => Raise KeyError
  end.

Definition season_order : list string := ["Winter"; "Spring"; "Summer"; "Autumn"]%string.

(** [.agg(["mean", "median", "std", "min", "max"])] *)
Record Describe : Type := {
  d_mean : option Q;
  d_median : option Q;
  d_std : option Root;
  d_min : option Q;
  d_max : option Q }.

Definition describe (l : list Q) : Describe :=
  {| d_mean := mean l; d_median := median l; d_std := std l;
     d_min := Qmin_list l; d_max := Qmax_list l |}.

Definition nan_row : Describe :=
  {| d_mean := None; d_median := None; d_std := None; d_min := None; d_max := None |}.

(** The records with their season: [seasonal["Season"] = ...map(season_of_month)]. *)
Definition with_season (stacked : list LongRecord) : Result (list (string * LongRecord)) :=
  mapM (fun r => s <- season_of_month (month (Date r)) ;; Ok (s, r)) stacked.

Definition seasonal (stacked : list LongRecord) : Result (list (string * Describe)) :=
  tagged <- with_season stacked ;;
  Ok (reindex season_order nan_row
              (map (fun g => (fst g, describe (map (fun sr => Price (snd sr)) (snd g))))
                   (groupby fst str_ltb tagged))).

(** The records whose month the dictionary maps to the season [s]. *)
Definition in_season (s : string) (stacked : list LongRecord) : list LongRecord :=
  filter (fun r => match season_of_month (month (Date r)) with
                   | Ok s' => String.eqb s' s
                   | Raise _ => false
                   end) stacked.

(** The row of a season, statistic by statistic.  With no record in the
    season all five are NaN.  Otherwise, over the prices [S] of the season:
    the mean is their sum over their number; the median is the middle one
    of them in ascending order, or the mean of the two middle ones; the
    standard deviation is NaN for one price and else the root of the sum of
    squared deviations from the mean over one less than their number; the
    minimum and the maximum are the least and the greatest of them. *)
Definition season_row (s : string) (stacked : list LongRecord) (d : Describe) : Prop :=
  let S := prices (in_season s stacked) in
  (S = [] ->
   d_mean d = None /\ d_median d = None /\ d_std d = None /\
   d_min d = None /\ d_max d = None) /\
  (S <> [] ->
   (exists m, d_mean d = Some m /\ m * Qlen S == Qsum S) /\
   (exists md ascending,
       d_median d = Some md /\ Permutation S ascending /\ StronglySorted Qle ascending /\
       md = if Nat.even (length S)
            then (nth (length S / 2 - 1) ascending 0 + nth (length S / 2) ascending 0) / 2
            else nth (length S / 2) ascending 0) /\
   (length S = 1%nat -> d_std d = None) /\
   ((2 <= length S)%nat ->
    exists m v, d_std d = Some (Sqrt v) /\ m * Qlen S == Qsum S /\
                v * (Qlen S - 1) == Qsum (map (fun x => (x - m) * (x - m)) S)) /\
   (exists mn, d_min d = Some mn /\ In mn S /\ forall x, In x S -> mn <= x) /\
   (exists mx, d_max d = Some mx /\ In mx S /\ forall x, In x S -> x <= mx)).

(** *** Inter-zonal spread: [wide.max(axis=1)], [wide.min(axis=1)] *)
Record SpreadRow : Type := {
  sp_Date : Timestamp;
  sp_Max : option Q;
  sp_Min : option Q;
  sp_Spread : option Q }.

Definition option_sub (a b : option Q) : option Q :=
  match a, b with
  | Some x, Some y => Some (x - y)
  | _, _ => None
  end.

Definition spread_row (r : Row) : SpreadRow :=
  let mx := Qmax_list (present (values r)) in
  let mn := Qmin_list (present (values r)) in
  {| sp_Date := index r; sp_Max := mx; sp_Min := mn; sp_Spread := option_sub mx mn |}.

Definition spread (rs : RawSeries) : list SpreadRow := map spread_row (rows rs).

(** *** Rolling mean and volatility of the across-zone average *)

(** [wide.mean(axis=1)] *)
Definition avg2 (rs : RawSeries) : list (option Q) :=
  map (fun r => mean (present (values r))) (rows rs).

(** The trailing window of [w] positions that ends at position [i]. *)
Definition window {A} (w i : nat) (s : list A) : list A :=
  skipn (S i - w) (firstn (S i) s).

(** [.rolling(w, min_periods=minp).f()]: NaN while the window holds fewer
    than [minp] observations. *)
Definition rolling {B} (w minp : nat) (f : list Q -> option B) (s : list (option Q))
  : list (option B) :=
  map (fun i => let obs := present (window w i s) in
                if (length obs <? minp)%nat then None else f obs)
      (seq 0 (length s)).

Record RollRow : Type := {
  r_Avg : option Q;
  RollMean30d : option Q;
  RollVol30d : option Root }.

Definition roll_with (w minp : nat) (rs : RawSeries) : list RollRow :=
  let a := avg2 rs in
  map (fun t => {| r_Avg := fst (fst t); RollMean30d := snd (fst t); RollVol30d := snd t |})
      (combine (combine a (rolling w minp mean a)) (rolling w minp std a)).

Definition roll (rs : RawSeries) : list RollRow := roll_with (24 * 30) 24 rs.

(** *** Correlation: [wide.corr()], Pearson, [min_periods=1] *)

(** The coefficient [covxy / sqrt (ssqdm_x * ssqdm_y)]. *)
Record Pearson : Type := { covxy : Q; ssqdm_x : Q; ssqdm_y : Q }.

(** The rows in which both columns hold a value. *)
Definition pairwise_complete (xs ys : list (option Q)) : list (Q * Q) :=
  flat_map (fun xy => match xy with
                      | (Some x, Some y) => [(x, y)]
                      | _ => []
                      end) (combine xs ys).

Definition nancorr (minp : nat) (xs ys : list (option Q)) : option Pearson :=
  let ps := pairwise_complete xs ys in
  if (length ps <? minp)%nat then None
  else
    let n := inject_Z (Z.of_nat (length ps)) in
    let mx := Qsum (map fst ps) / n in
    let my := Qsum (map snd ps) / n in
    let sx := ssqdm mx (map fst ps) in
    let sy := ssqdm my (map snd ps) in
    let c := Qsum (map (fun p => (fst p - mx) * (snd p - my)) ps) in
    if Qeq_bool (sx * sy) 0 then None
    else Some {| covxy := c; ssqdm_x := sx; ssqdm_y := sy |}.

Definition corr (rs : RawSeries) : list (list (option Pearson)) :=
  let k := seq 0 (length (zone_cols rs)) in
  map (fun i => map (fun j => nancorr 1 (column i rs) (column j rs)) k) k.

(** [denotes c r]: the coefficient [c] is the rational [r]. *)
Definition denotes (c : Pearson) (r : Q) : Prop :=
  r * r * (ssqdm_x c * ssqdm_y c) == covxy c * covxy c /\ 0 <= r * covxy c.

(** The entry of the matrix in row [i], column [j]. *)
Definition corr_at (rs : RawSeries) (i j : nat) : option (option Pearson) :=
  match nth_error (corr rs) i with
  | Some row => nth_error row j
  | None => None
  end.

(** Two entries are the same number: both NaN, or the same quotient. *)
Definition same_coefficient (a b : option Pearson) : Prop :=
  match a, b with
  | None, None => True
  | Some p, Some q =>
      covxy p == covxy q /\ ssqdm_x p * ssqdm_y p == ssqdm_x q * ssqdm_y q
  | _, _ => False
  end.

(* ================================================================== *)
(** ** The loader and the run *)

(** A cell of a frame: a number, an empty cell (NaN), a date, an empty
    cell of a datetime column (NaT), a text. *)
Inductive Cell : Type :=
| Num (q : Q)
| NaN
| Stamp (t : Timestamp)
| NaT
| Text (s : string).

(** A frame: the column labels and the rows, each as long as the labels. *)
Record DataFrame : Type := { columns : list string; data : list (list Cell) }.

Definition is_Date (c : string) : bool := String.eqb c "Date".

(** The cell of a row under the column "Date". *)
Definition date_cell (cols : list string) (row : list Cell) : option Cell :=
  option_map snd (find (fun cv => is_Date (fst cv)) (combine cols row)).

(** The timestamp a loaded row carries; none when its date is NaT. *)
Definition row_date (cols : list string) (row : list Cell) : option Timestamp :=
  match date_cell cols row with
  | Some (Stamp t) => Some t
  | _ => None
  end.

(** What the cell under "Date" holds in a datetime column: a date
    ([Some (Some t)]) or NaT ([Some None]); [None] for any other cell. *)
Definition loaded_date (cols : list string) (row : list Cell) : option (option Timestamp) :=
  match date_cell cols row with
  | Some (Stamp t) => Some (Some t)
  | Some NaT => Some None
  | _ => None
  end.

(** The cells of a row under the columns other than "Date". *)
Definition zone_cells (cols : list string) (row : list Cell) : list Cell :=
  map snd (filter (fun cv => negb (is_Date (fst cv))) (combine cols row)).

(** The cell of a datetime column for a date or for NaT. *)
Definition datetime_cell (d : option Timestamp) : Cell :=
  match d with
  | Some t => Stamp t
  | None => NaT
  end.

Section Loader.
Variable kind : Sorter.
(** [pd.to_datetime] on one cell of the column: [None] when it raises,
    [Some None] when it reads the cell as NaT, as it does an empty cell,
    [Some (Some t)] when it reads the date [t]. *)
Variable to_datetime : Cell -> option (option Timestamp).

(** [df["Date"] = pd.to_datetime(df["Date"])] on one row, with the key the
    row is sorted by. *)
Definition parse_row (cols : list string) (row : list Cell)
  : Result (option Timestamp * list Cell) :=
  match date_cell cols row with
  | None => Raise ParseError
  | Some c =>
      match to_datetime c with
      | None => Raise ParseError
      | Some d =>
          Ok (d, map (fun cv => if is_Date (fst cv) then datetime_cell d else snd cv)
                     (combine cols row))
      end
  end.

Definition by_date (a b : Timestamp * list Cell) : bool := ts_ltb (fst a) (fst b).

(** The rows that have a date, with it, and the rows whose date is NaT. *)
Definition dated (keyed : list (option Timestamp * list Cell))
  : list (Timestamp * list Cell) :=
  flat_map (fun kr => match fst kr with
                      | Some t => [(t, snd kr)]
                      | None => []
                      end) keyed.

Definition undated (keyed : list (option Timestamp * list Cell)) : list (list Cell) :=
  map snd (filter (fun kr => is_nan (fst kr)) keyed).

(** [df.sort_values("Date")]: the rows that have a date, sorted on it, then
    the rows whose date is NaT in the order they had ([na_position='last']). *)
Definition load_data (sheet : DataFrame) : Result DataFrame :=
  if negb (existsb is_Date (columns sheet)) then Raise SchemaError
  else
    keyed <- mapM (parse_row (columns sheet)) (data sheet) ;;
    Ok {| columns := columns sheet;
          data := map snd (sort_values kind by_date true (dated keyed))
                  ++ undated keyed |}.

(** [main]: [df = load_data(...)], then [build] on the frame. *)
Definition run {B} (build : DataFrame -> Result B) (sheet : DataFrame) : Result B :=
  df <- load_data sheet ;; build df.

End Loader.

(* ================================================================== *)
(** ** The extremes as the specification words them

    "Sort descending/ascending by price; stable tie-break by original
    record order; return first k of each", with k = 20. *)
Definition extremes_spec (stacked : list LongRecord) : list LongRecord * list LongRecord :=
  (firstn 20 (insertion_sort (fun a b => price_ltb b a) stacked),
   firstn 20 (insertion_sort price_ltb stacked)).

(* ================================================================== *)
(** ** Sample inputs *)

Definition ts (y m d h : Z) : Timestamp := {| year := y; month := m; day := d; hour := h |}.

(** Eighteen hours of one zone at one price. *)
Definition ties18 : list LongRecord :=
  map (fun h => {| Date := ts 2021 1 1 (Z.of_nat h); Zone := "A"; Price := 5 |}) (seq 0 18).

Definition three_records : list LongRecord :=
  [ {| Date := ts 2021 1 1 0; Zone := "A"; Price := 10 |};
    {| Date := ts 2021 1 1 0; Zone := "B"; Price := 30 |};
    {| Date := ts 2021 1 1 1; Zone := "A"; Price := 10 |} ].


(** Two zones of one price, the column of "B" before the column of "A". *)
Definition tie_BA : RawSeries :=
  {| zone_cols := ["B"; "A"]%string;
     rows := [ {| index := ts 2021 1 1 0; values := [Some 10; Some 10] |} ] |}.

(** Two zones, the second without any price. *)
Definition missing_B : RawSeries :=
  {| zone_cols := ["A"; "B"]%string;
     rows := [ {| index := ts 2021 1 1 0; values := [Some 10; None] |} ] |}.


(** One zone, twenty-four hours, the price of the first hour missing. *)
Definition gap24 : RawSeries :=
  {| zone_cols := ["A"]%string;
     rows := {| index := ts 2021 1 1 0; values := [None] |}
             :: map (fun h => {| index := ts 2021 1 1 (Z.of_nat h); values := [Some 1] |})
                    (seq 1 23) |}.

(** One zone, twenty-four hours, a price at each. *)
Definition full24 : RawSeries :=
  {| zone_cols := ["A"]%string;
     rows := map (fun h => {| index := ts 2021 1 1 (Z.of_nat h); values := [Some 1] |})
                 (seq 0 24) |}.


(** Two zones over four hours, one price of the second zone missing. *)
Definition two_zones : RawSeries :=
  {| zone_cols := ["A"; "B"]%string;
     rows := [ {| index := ts 2021 1 1 0; values := [Some 1; Some 2] |};
               {| index := ts 2021 1 1 1; values := [Some 3; None] |};
               {| index := ts 2021 1 1 2; values := [Some 2; Some 5] |};
               {| index := ts 2021 1 1 3; values := [Some 4; Some 4] |} ] |}.


(** A sheet whose dates stand out of order, one with an empty date cell
    and one without the column. *)
Definition sheet_AD : DataFrame :=
  {| columns := ["A"; "Date"]%string;
     data := [ [Num 1; Stamp (ts 2021 1 2 0)]; [NaN; Stamp (ts 2021 1 1 0)] ] |}.

Definition sheet_empty_date : DataFrame :=
  {| columns := ["A"; "Date"]%string;
     data := [ [Num 1; NaN]; [Num 2; Stamp (ts 2021 1 2 0)];
               [NaN; Stamp (ts 2021 1 1 0)] ] |}.

Definition sheet_no_date : DataFrame :=
  {| columns := ["A"; "B"]%string; data := [ [Num 1; Num 2] ] |}.

(** A reader of dates for the examples: a date as it is, an empty cell as
    NaT, and no other cell. *)
Definition stamps_only (c : Cell) : option (option Timestamp) :=
  match c with
  | Stamp t => Some (Some t)
  | NaN => Some None
  | NaT => Some None
  | Num _ => None
  | Text _ => None
  end.


(** Two days of hourly prices, zone A at 10 and zone B at 20 throughout. *)
Definition constant48 : RawSeries :=
  {| zone_cols := ["A"; "B"]%string;
     rows := map (fun h => {| index := ts 2021 1 (1 + Z.of_nat (h / 24)) (Z.of_nat (h mod 24));
                              values := [Some 10; Some 20] |})
                 (seq 0 48) |}.

(** The value is there and is the number [v]. *)
Definition is_value (o : option Q) (v : Q) : Prop :=
  match o with
  | Some x => x == v
  | None => False
  end.

Definition is_root_of (o : option Root) (v : Q) : Prop :=
  match o with
  | Some (Sqrt x) => x == v
  | None => False
  end.


(* ================================================================== *)
(** ** What the figures select from the derived views *)

(** [top10 = zone_summary.head(10)["Zone"].tolist()] *)
Definition top10 (summary : list ZoneSummary) : list string :=
  map zone_of (firstn 10 summary).

(** [spark_zones = zone_summary.sort_values("Rank").head(12)["Zone"].tolist()] *)
Definition by_rank (a b : ZoneSummary) : bool := (Rank a <? Rank b)%Z.

Definition spark_zones (kind : Sorter) (summary : list ZoneSummary) : list string :=
  map zone_of (firstn 12 (sort_values kind by_rank true summary)).

(** ["PJM-RTO ZONE" if "PJM-RTO ZONE" in zone_cols else zone_cols[0]];
    [None] is the IndexError of [zone_cols[0]] on an empty list. *)
Definition default_zone (zones : list string) : option string :=
  if existsb (String.eqb "PJM-RTO ZONE") zones then Some "PJM-RTO ZONE"%string
  else nth_error zones 0.

(** [years_sorted = sorted(monthly["Year"].unique())] *)
Definition year_of_row (e : string * (Z * Z) * option Q) : Z := fst (snd (fst e)).

Definition years_sorted (m : list (string * (Z * Z) * option Q)) : list Z :=
  group_keys year_of_row Z.ltb m.

(** [default_year = years_sorted[-1]]; [None] is its IndexError. *)
Definition default_year (m : list (string * (Z * Z) * option Q)) : option Z :=
  nth_error (years_sorted m) (length (years_sorted m) - 1).


(** [monthly.sort_values(["Zone", "Year", "Month"])], the rows of the monthly
    CSV file. *)
Definition by_zone_year_month (a b : string * (Z * Z) * option Q) : bool :=
  ym_ltb (fst a) (fst b).

Definition monthly_csv (kind : Sorter) (m : list (string * (Z * Z) * option Q))
  : list (string * (Z * Z) * option Q) :=
  sort_values kind by_zone_year_month true m.


(** A sort that meets the contract and is not stable: it hands tied elements
    back in reverse order. *)
Definition reversing_sort : Sorter :=
  fun A less l => insertion_sort less (rev l).


(** *** The traces of the seasonality figure and of its zone menu *)
Definition zone_of_row (e : string * (Z * Z) * option Q) : string := fst (fst e).

Definition month_of_row (e : string * (Z * Z) * option Q) : Z := snd (snd (fst e)).

Definition by_month (a b : string * (Z * Z) * option Q) : bool :=
  (month_of_row a <? month_of_row b)%Z.

(** [dyy = dd[dd["Year"] == y].sort_values("Month")], where
    [dd = monthly[monthly["Zone"] == z]]. *)
Definition zone_year (kind : Sorter) (m : list (string * (Z * Z) * option Q))
           (z : string) (y : Z) : list (string * (Z * Z) * option Q) :=
  sort_values kind by_month true
              (filter (fun e => (year_of_row e =? y)%Z)
                      (filter (fun e => String.eqb (zone_of_row e) z) m)).

(** [months_ticks = list(range(1, 13))] *)
Definition months_ticks : list Z := map Z.of_nat (seq 1 12).

(** The trace of a year in [make_zone_season_plot]: [x=dyy["Month"]],
    [y=dyy["Price"]]. *)
Definition zone_trace (kind : Sorter) (m : list (string * (Z * Z) * option Q))
           (z : string) (y : Z) : list Z * list (option Q) :=
  (map month_of_row (zone_year kind m z y), map snd (zone_year kind m z y)).

(** The arguments of a zone's button: [{"y": ys, "x": [list(range(1, 13))] *
    traces_count}], one list per year of [years_sorted]. *)
Definition zone_button (kind : Sorter) (m : list (string * (Z * Z) * option Q))
           (z : string) : list (list Z) * list (list (option Q)) :=
  (repeat months_ticks (length (years_sorted m)),
   map (fun y => map snd (zone_year kind m z y)) (years_sorted m)).

(* ================================================================== *)
(** ** From the loaded frame to the derived views

    [build_dashboard] is embedded for the frames whose rows all carry a date
    and whose zone cells are numbers or empty: [wide] is [None] for any
    other frame.  [aggregate] holds the statements of [build_dashboard] that
    compute, lines 59 to 337, in their order; the drawing between them and
    the HTML after them are left out, so [Ok] says that these statements
    raise nothing, not that [build_dashboard] returns. *)

Definition as_float (c : Cell) : option (option Q) :=
  match c with
  | Num q => Some (Some q)
  | NaN => Some None
  | _ => None
  end.

Fixpoint all_some {A} (l : list (option A)) : option (list A) :=
  match l with
  | [] => Some []
  | o :: l' =>
      match o, all_some l' with
      | Some a, Some l'' => Some (a :: l'')
      | _, _ => None
      end
  end.

(** [zone_cols = [c for c in df.columns if c != "Date"]] and
    [wide = df.set_index("Date")[zone_cols]]. *)
Definition wide_row (cols : list string) (row : list Cell) : option Row :=
  match row_date cols row, all_some (map as_float (zone_cells cols row)) with
  | Some t, Some vs => Some {| index := t; values := vs |}
  | _, _ => None
  end.

Definition wide (df : DataFrame) : option RawSeries :=
  option_map (fun rs => {| zone_cols := filter (fun c => negb (is_Date c)) (columns df);
                           rows := rs |})
             (all_some (map (wide_row (columns df)) (data df))).

Record Dashboard : Type := {
  v_stacked : list LongRecord;
  v_monthly : list (string * (Z * Z) * option Q);
  v_overall : Overall;
  v_zone_summary : list ZoneSummary;
  v_top10 : list string;
  v_default_zone : string;
  v_spark_zones : list string;
  v_roll : list RollRow;
  v_spread : list SpreadRow;
  v_hod : list (Z * option Q);
  v_dow : list (string * option Q);
  v_seasonal : list (string * Describe);
  v_corr : list (list (option Pearson));
  v_idxmax : list LongRecord;
  v_idxmin : list LongRecord;
  v_default_year : Z }.

(** An index into an empty list. *)
Definition index_error {A} (o : option A) : Result A :=
  match o with
  | Some a => Ok a
  | None => Raise IndexError
  end.

Section Views.
Variable kind : Sorter.

Definition aggregate (rs : RawSeries) : Result Dashboard :=
  let stacked := stack rs in
  zs <- zone_summary kind stacked ;;
  dz <- index_error (default_zone (zone_cols rs)) ;;
  se <- seasonal stacked ;;
  dy <- index_error (default_year (monthly stacked)) ;;
  Ok {| v_stacked := stacked;
        v_monthly := monthly stacked;
        v_overall := overall rs;
        v_zone_summary := zs;
        v_top10 := top10 zs;
        v_default_zone := dz;
        v_spark_zones := spark_zones kind zs;
        v_roll := roll rs;
        v_spread := spread rs;
        v_hod := hod stacked;
        v_dow := dow stacked;
        v_seasonal := se;
        v_corr := corr rs;
        v_idxmax := idxmax kind stacked;
        v_idxmin := idxmin kind stacked;
        v_default_year := dy |}.

End Views.

(** A row the embedding reads: [pd.to_datetime] reads its cell under "Date"
    as a date of the calendar, and its other cells are numbers or empty. *)
Definition readable_row (to_datetime : Cell -> option (option Timestamp))
           (cols : list string) (row : list Cell) : Prop :=
  (exists c t, date_cell cols row = Some c /\ to_datetime c = Some (Some t) /\ valid_ts t) /\
  Forall (fun c => exists o, as_float c = Some o) (zone_cells cols row).


(** [pd.to_datetime] reads the date cell of the row, as a date or as NaT. *)
Definition date_read (to_datetime : Cell -> option (option Timestamp))
           (cols : list string) (row : list Cell) : Prop :=
  exists c d, date_cell cols row = Some c /\ to_datetime c = Some d.

(* ================================================================== *)
(** * Properties *)

(** ** Orders *)

Lemma StrictWeak_key {A B} (f : A -> B) (less : B -> B -> bool) :
  StrictWeak less -> StrictWeak (fun a b => less (f a) (f b)).
Proof.
  intros [Ha Hn]; split; intros; eauto.
Qed.

Lemma Qltb_lt (x y : Q) : Qltb x y = true <-> x < y.
Proof.
  unfold Qltb. rewrite negb_true_iff.
  destruct (Qle_bool y x) eqn:E.
  - apply Qle_bool_iff in E. split; [discriminate | intro H; exfalso; lra].
  - split; [intros _ | reflexivity].
    apply Qnot_le_lt. intro H. apply Qle_bool_iff in H. congruence.
Qed.

Lemma Qltb_ge (x y : Q) : Qltb x y = false <-> y <= x.
Proof.
  unfold Qltb. rewrite negb_false_iff. apply Qle_bool_iff.
Qed.

Lemma StrictWeak_Qltb : StrictWeak Qltb.
Proof.
  split.
  - intros x y H. apply Qltb_lt in H. apply Qltb_ge. lra.
  - intros x y z H1 H2. apply Qltb_ge in H1, H2. apply Qltb_ge. lra.
Qed.

Lemma StrictWeak_Zltb : StrictWeak Z.ltb.
Proof.
  split; intros; repeat match goal with
                        | H : (_ <? _)%Z = _ |- _ =>
                            first [apply Z.ltb_lt in H | apply Z.ltb_ge in H]
                        end;
    apply Z.ltb_ge; lia.
Qed.

Lemma ts_ltb_lt (a b : Timestamp) :
  ts_ltb a b = true <->
  (year a < year b \/ year a = year b /\
   (month a < month b \/ month a = month b /\
    (day a < day b \/ day a = day b /\ hour a < hour b)))%Z.
Proof.
  unfold ts_ltb.
  repeat first [rewrite orb_true_iff | rewrite andb_true_iff
               | rewrite Z.ltb_lt | rewrite Z.eqb_eq].
  reflexivity.
Qed.

Lemma ts_ltb_false (a b : Timestamp) :
  ts_ltb a b = false <->
  ~ (year a < year b \/ year a = year b /\
   (month a < month b \/ month a = month b /\
    (day a < day b \/ day a = day b /\ hour a < hour b)))%Z.
Proof.
  rewrite <- ts_ltb_lt. destruct (ts_ltb a b); split; congruence.
Qed.

Lemma StrictWeak_ts_ltb : StrictWeak ts_ltb.
Proof.
  split.
  - intros x y H. apply ts_ltb_lt in H. apply ts_ltb_false. lia.
  - intros x y z H1 H2. apply ts_ltb_false in H1, H2. apply ts_ltb_false. lia.
Qed.

Lemma str_ltb_lt (a b : string) : str_ltb a b = true <-> String_as_OT.lt a b.
Proof.
  unfold str_ltb, String_as_OT.lt.
  destruct (String_as_OT.compare a b); split; congruence.
Qed.

Lemma str_ltb_irrefl (a : string) : str_ltb a a = false.
Proof.
  destruct (str_ltb a a) eqn:E; [|reflexivity].
  apply str_ltb_lt in E. exfalso. exact (StrictOrder_Irreflexive _ E).
Qed.

Lemma str_ltb_total (a b : string) :
  str_ltb a b = false -> str_ltb b a = false -> a = b.
Proof.
  intros H1 H2.
  destruct (String_as_OT.compare_spec a b) as [E | E | E]; [exact E | |].
  - apply str_ltb_lt in E. congruence.
  - apply str_ltb_lt in E. congruence.
Qed.

Lemma StrictWeak_str_ltb : StrictWeak str_ltb.
Proof.
  split.
  - intros x y H. apply str_ltb_lt in H.
    destruct (str_ltb y x) eqn:E; [|reflexivity].
    apply str_ltb_lt in E. exfalso.
    exact (StrictOrder_Irreflexive _ (StrictOrder_Transitive _ _ _ H E)).
  - intros x y z H1 H2.
    destruct (str_ltb z x) eqn:E; [|reflexivity].
    apply str_ltb_lt in E. exfalso.
    destruct (String_as_OT.compare_spec y x) as [E1 | E1 | E1].
    + hnf in E1. subst y. apply str_ltb_lt in E. congruence.
    + apply str_ltb_lt in E1. congruence.
    + assert (String_as_OT.lt z y) by (exact (StrictOrder_Transitive _ _ _ E E1)).
      apply str_ltb_lt in H. congruence.
Qed.

(** ** Insertion sort keeps the contract of a sort and is stable *)

Lemma insert_sorted_perm {A} (less : A -> A -> bool) x l :
  Permutation (x :: l) (insert_sorted less x l).
Proof.
  induction l as [|y l IH]; simpl; [reflexivity|].
  destruct (less y x); [|reflexivity].
  rewrite perm_swap. constructor. exact IH.
Qed.

Lemma insertion_sort_perm {A} (less : A -> A -> bool) l :
  Permutation l (insertion_sort less l).
Proof.
  induction l as [|x l IH]; simpl; [constructor|].
  etransitivity; [|apply insert_sorted_perm].
  constructor. exact IH.
Qed.

Lemma insert_sorted_ascending {A} (less : A -> A -> bool) x l :
  StrictWeak less -> ascending_by less l -> ascending_by less (insert_sorted less x l).
Proof.
  intros SW. unfold ascending_by.
  induction l as [|y l IH]; intros Hs; simpl.
  - repeat constructor.
  - inversion Hs as [|? ? Hl Hy]; subst.
    destruct (less y x) eqn:E.
    + constructor; [auto|].
      rewrite <- (insert_sorted_perm less x l).
      constructor; [apply (less_asym SW); exact E | exact Hy].
    + constructor; [exact Hs|].
      constructor; [exact E|].
      rewrite Forall_forall in *. intros z Hz.
      apply (less_negtrans SW) with (y := y); auto.
Qed.

Lemma insertion_sort_contract : sort_contract insertion_sort.
Proof.
  split.
  - intros. apply insertion_sort_perm.
  - intros A less l SW. induction l as [|x l IH]; simpl.
    + constructor.
    + apply insert_sorted_ascending; assumption.
Qed.

Lemma filter_insert_sorted {A} (less : A -> A -> bool) (p : A -> bool) x l :
  (forall a b, p a = true -> p b = true -> less a b = false) ->
  filter p (insert_sorted less x l) = filter p (x :: l).
Proof.
  intros Hp. induction l as [|y l IH]; [reflexivity|].
  simpl insert_sorted. destruct (less y x) eqn:E; [|reflexivity].
  simpl in *. rewrite IH.
  destruct (p x) eqn:Px, (p y) eqn:Py; try reflexivity.
  rewrite (Hp y x Py Px) in E. discriminate.
Qed.

Lemma insertion_sort_stable : stable insertion_sort.
Proof.
  intros A less p l _ Hp. induction l as [|x l IH]; [reflexivity|].
  simpl. change (fold_right (insert_sorted less) [] l) with (insertion_sort less l).
  rewrite filter_insert_sorted by exact Hp. simpl. rewrite IH. reflexivity.
Qed.

(** ** numpy's quicksort on small inputs *)

Example np_quicksort_sorts :
  np_quicksort Nat.ltb
    [5; 3; 9; 1; 0; 22; 7; 7; 3; 15; 11; 2; 8; 4; 6; 19; 20; 13; 12; 10; 17; 1; 30; 25; 14]%nat
  = [0; 1; 1; 2; 3; 3; 4; 5; 6; 7; 7; 8; 9; 10; 11; 12; 13; 14; 15; 17; 19; 20; 22; 25; 30]%nat.
Proof. vm_compute. reflexivity. Qed.

Example heapsort_sorts :
  heapsort Nat.ltb [5; 3; 9; 1; 0; 22; 7; 7; 3; 15; 11; 2]%nat
  = [0; 1; 2; 3; 3; 5; 7; 7; 9; 11; 15; 22]%nat.
Proof. vm_compute. reflexivity. Qed.

(** ** [sort_values] under the contract *)

Lemma StronglySorted_app {A} (R : A -> A -> Prop) l1 l2 :
  StronglySorted R l1 -> StronglySorted R l2 ->
  (forall x y, In x l1 -> In y l2 -> R x y) ->
  StronglySorted R (l1 ++ l2).
Proof.
  induction l1 as [|a l1 IH]; intros H1 H2 H12; simpl; [exact H2|].
  inversion H1 as [|? ? Hs Ha]; subst.
  constructor.
  - apply IH; auto. intros; apply H12; simpl; auto.
  - apply Forall_app. split; [exact Ha|].
    apply Forall_forall. intros y Hy. apply H12; simpl; auto.
Qed.

Lemma StronglySorted_rev {A} (R : A -> A -> Prop) l :
  StronglySorted R l -> StronglySorted (fun x y => R y x) (rev l).
Proof.
  induction 1 as [|a l Hs IH Ha]; simpl; [constructor|].
  apply StronglySorted_app; [exact IH | repeat constructor |].
  intros x y Hx [<- | []].
  rewrite Forall_forall in Ha. apply Ha. apply in_rev. exact Hx.
Qed.

Lemma StronglySorted_weaken {A} (R S : A -> A -> Prop) l :
  (forall x y, R x y -> S x y) -> StronglySorted R l -> StronglySorted S l.
Proof.
  intros HRS. induction 1 as [|a l Hs IH Ha]; constructor; auto.
  eapply Forall_impl; [|exact Ha]. intros; auto.
Qed.

Lemma StronglySorted_map {A B} (f : A -> B) (R : B -> B -> Prop) l :
  StronglySorted (fun x y => R (f x) (f y)) l -> StronglySorted R (map f l).
Proof.
  induction 1 as [|a l Hs IH Ha]; simpl; constructor; auto.
  apply Forall_map. exact Ha.
Qed.

Lemma In_firstn {A} n (l : list A) x : In x (firstn n l) -> In x l.
Proof.
  revert l. induction n as [|n IH]; intros [|a l]; simpl; try tauto.
  intros [H | H]; auto.
Qed.

Section SortValues.
Variable kind : Sorter.
Hypothesis contract : sort_contract kind.
Context {A : Type}.
Variable less : A -> A -> bool.
Hypothesis SW : StrictWeak less.

Lemma sort_values_perm asc (l : list A) : Permutation l (sort_values kind less asc l).
Proof.
  unfold sort_values. destruct asc.
  - apply (sort_perm contract).
  - rewrite <- Permutation_rev. rewrite <- (sort_perm contract).
    apply Permutation_rev.
Qed.

Lemma sort_values_ascending (l : list A) : ascending_by less (sort_values kind less true l).
Proof.
  apply (sort_sorted contract). exact SW.
Qed.

Lemma sort_values_descending (l : list A) :
  descending_by less (sort_values kind less false l).
Proof.
  unfold sort_values, descending_by.
  apply (StronglySorted_rev (R := fun x y => less y x = false)).
  apply (sort_sorted contract). exact SW.
Qed.

Lemma sort_values_stable asc (p : A -> bool) (l : list A) :
  stable kind ->
  (forall x y, p x = true -> p y = true -> less x y = false) ->
  filter p (sort_values kind less asc l) = filter p l.
Proof.
  intros St Hp. unfold sort_values. destruct asc.
  - apply St; assumption.
  - rewrite filter_rev. rewrite St by assumption.
    rewrite filter_rev. apply rev_involutive.
Qed.

End SortValues.

(** ** Extremes *)

Lemma price_ltb_ge (a b : LongRecord) : price_ltb a b = false <-> Price b <= Price a.
Proof. apply Qltb_ge. Qed.

Lemma StrictWeak_price_ltb : StrictWeak price_ltb.
Proof. exact (StrictWeak_key Price StrictWeak_Qltb). Qed.

Lemma tied_prices_not_less (v : Q) (x y : LongRecord) :
  Qeq_bool (Price x) v = true -> Qeq_bool (Price y) v = true -> price_ltb x y = false.
Proof.
  intros Hx Hy. apply Qeq_bool_iff in Hx, Hy. apply price_ltb_ge. lra.
Qed.

(** C3, as the code has it: the top 20 are the first 20 of the records in
    an order descending by price, the bottom 20 the first 20 of the records
    in an order ascending by price.  The default sort fixes the order of the
    records of one price only when it is stable: then, and only then by the
    contract, they stand in their original order. *)
Theorem extremes_sorted_prefixes (kind : Sorter) (stacked : list LongRecord) :
  sort_contract kind ->
  exists top_all bottom_all,
    extremes kind stacked = (firstn 20 top_all, firstn 20 bottom_all) /\
    Permutation stacked top_all /\
    StronglySorted (fun x y => Price y <= Price x) top_all /\
    Permutation stacked bottom_all /\
    StronglySorted (fun x y => Price x <= Price y) bottom_all /\
    (stable kind ->
     forall v,
       filter (fun r => Qeq_bool (Price r) v) top_all
       = filter (fun r => Qeq_bool (Price r) v) stacked /\
       filter (fun r => Qeq_bool (Price r) v) bottom_all
       = filter (fun r => Qeq_bool (Price r) v) stacked).
Proof.
  intros C.
  exists (sort_values kind price_ltb false stacked),
         (sort_values kind price_ltb true stacked).
  split; [reflexivity|].
  split; [apply sort_values_perm; exact C|].
  split.
  { eapply StronglySorted_weaken;
      [|apply (sort_values_descending C StrictWeak_price_ltb)].
    intros x y H. apply price_ltb_ge. exact H. }
  split; [apply sort_values_perm; exact C|].
  split.
  { eapply StronglySorted_weaken;
      [|apply (sort_values_ascending C StrictWeak_price_ltb)].
    intros x y H. apply price_ltb_ge. exact H. }
  intros St v. split.
  - apply (sort_values_stable StrictWeak_price_ltb); [exact St|].
    apply tied_prices_not_less.
  - apply (sort_values_stable StrictWeak_price_ltb); [exact St|].
    apply tied_prices_not_less.
Qed.

Lemma extremes_sorted_prefixes_witness :
  sort_contract insertion_sort /\ stable insertion_sort /\
  exists top_all bottom_all,
    extremes insertion_sort three_records = (firstn 20 top_all, firstn 20 bottom_all) /\
    Permutation three_records top_all /\
    StronglySorted (fun x y => Price y <= Price x) top_all /\
    Permutation three_records bottom_all /\
    StronglySorted (fun x y => Price x <= Price y) bottom_all /\
    forall v,
      filter (fun r => Qeq_bool (Price r) v) top_all
      = filter (fun r => Qeq_bool (Price r) v) three_records /\
      filter (fun r => Qeq_bool (Price r) v) bottom_all
      = filter (fun r => Qeq_bool (Price r) v) three_records.
Proof.
  split; [exact insertion_sort_contract|]. split; [exact insertion_sort_stable|].
  destruct (extremes_sorted_prefixes three_records insertion_sort_contract)
    as [top_all [bottom_all [H1 [H2 [H3 [H4 [H5 H6]]]]]]].
  exists top_all, bottom_all.
  repeat (split; [assumption|]). exact (H6 insertion_sort_stable).
Defined.

(** C3 as stated fails: on eighteen records of one price, the default
    quicksort returns the hours in the order below, not in the original one. *)
Lemma extremes_ties_reordered :
  map (fun r => hour (Date r)) (idxmax np_quicksort ties18)
  = [0; 1; 16; 15; 14; 13; 12; 11; 10; 9; 8; 7; 6; 5; 4; 3; 2; 17]%Z
  /\ map (fun r => hour (Date r)) (fst (extremes_spec ties18))
     = [0; 1; 2; 3; 4; 5; 6; 7; 8; 9; 10; 11; 12; 13; 14; 15; 16; 17]%Z
  /\ extremes np_quicksort ties18 <> extremes_spec ties18.
Proof.
  split; [vm_compute; reflexivity|].
  split; [vm_compute; reflexivity|].
  intros H.
  apply (f_equal (fun p => map (fun r => hour (Date r)) (fst p))) in H.
  vm_compute in H. discriminate H.
Qed.

(** ** Group-by *)

Lemma StrictTotal_str_ltb : StrictTotal str_ltb.
Proof. split; [exact StrictWeak_str_ltb | exact str_ltb_total]. Qed.

Lemma StrictTotal_Zltb : StrictTotal Z.ltb.
Proof.
  split; [exact StrictWeak_Zltb|].
  intros a b H1 H2. apply Z.ltb_ge in H1, H2. lia.
Qed.

Section GroupByFacts.
Context {R K : Type}.
Variable key : R -> K.
Variable K_ltb : K -> K -> bool.
Hypothesis ST : StrictTotal K_ltb.

Lemma K_ltb_irrefl (a : K) : K_ltb a a = false.
Proof.
  destruct (K_ltb a a) eqn:E; [|reflexivity].
  rewrite (less_asym (proj1 ST) _ _ E) in E. discriminate.
Qed.

Lemma K_ltb_trans (a b c : K) :
  K_ltb a b = true -> K_ltb b c = true -> K_ltb a c = true.
Proof.
  intros H1 H2. destruct (K_ltb a c) eqn:E; [reflexivity|].
  pose proof (less_asym (proj1 ST) _ _ H1) as H3.
  rewrite (less_negtrans (proj1 ST) _ _ _ E H3) in H2. discriminate.
Qed.

Lemma key_eqb_eq (a b : K) : key_eqb K_ltb a b = true <-> a = b.
Proof.
  unfold key_eqb. rewrite andb_true_iff, !negb_true_iff. split.
  - intros [H1 H2]. apply (proj2 ST); assumption.
  - intros <-. split; apply K_ltb_irrefl.
Qed.

Lemma insert_key_In (k x : K) ks :
  In x (insert_key K_ltb k ks) <-> x = k \/ In x ks.
Proof.
  induction ks as [|k' ks IH]; simpl.
  - intuition.
  - destruct (K_ltb k k') eqn:E1; simpl; [intuition|].
    destruct (K_ltb k' k) eqn:E2; simpl.
    + rewrite IH. intuition.
    + assert (k = k') by (apply (proj2 ST); assumption). subst. intuition.
Qed.

Lemma group_keys_In (k : K) (l : list R) :
  In k (group_keys key K_ltb l) <-> exists r, In r l /\ key r = k.
Proof.
  unfold group_keys. induction l as [|r l IH]; simpl.
  - split; [tauto | intros [r [[] _]]].
  - rewrite insert_key_In, IH. split.
    + intros [-> | [r' [H1 H2]]]; eauto.
    + intros [r' [[<- | H1] H2]]; eauto.
Qed.

Lemma insert_key_sorted (k : K) ks :
  StronglySorted (fun a b => K_ltb a b = true) ks ->
  StronglySorted (fun a b => K_ltb a b = true) (insert_key K_ltb k ks).
Proof.
  induction ks as [|k' ks IH]; intros Hs; simpl.
  - repeat constructor.
  - inversion Hs as [|? ? Hl Hk]; subst.
    destruct (K_ltb k k') eqn:E1.
    + constructor; [exact Hs|]. constructor; [exact E1|].
      rewrite Forall_forall in *. intros z Hz.
      apply K_ltb_trans with k'; auto.
    + destruct (K_ltb k' k) eqn:E2; [|exact Hs].
      constructor; [auto|].
      rewrite Forall_forall in *. intros z Hz.
      apply insert_key_In in Hz. destruct Hz as [-> | Hz]; auto.
Qed.

Lemma group_keys_sorted (l : list R) :
  StronglySorted (fun a b => K_ltb a b = true) (group_keys key K_ltb l).
Proof.
  unfold group_keys. induction l as [|r l IH]; simpl.
  - constructor.
  - apply insert_key_sorted. exact IH.
Qed.

Lemma strictly_sorted_NoDup (ks : list K) :
  StronglySorted (fun a b => K_ltb a b = true) ks -> NoDup ks.
Proof.
  induction 1 as [|a l Hs IH Ha]; constructor; [|exact IH].
  intros Hin. rewrite Forall_forall in Ha.
  specialize (Ha a Hin). rewrite K_ltb_irrefl in Ha. discriminate.
Qed.

Lemma group_keys_NoDup (l : list R) : NoDup (group_keys key K_ltb l).
Proof. apply strictly_sorted_NoDup, group_keys_sorted. Qed.

Lemma groupby_keys (l : list R) :
  map fst (groupby key K_ltb l) = group_keys key K_ltb l.
Proof.
  unfold groupby. rewrite map_map. simpl. apply map_id.
Qed.

Lemma groupby_group (l : list R) (k : K) (g : list R) :
  In (k, g) (groupby key K_ltb l) ->
  g = filter (fun r => key_eqb K_ltb (key r) k) l /\ g <> [] /\
  exists r, In r l /\ key r = k.
Proof.
  unfold groupby. rewrite in_map_iff. intros [k' [E Hk]].
  inversion E; subst k' g. split; [reflexivity|].
  apply group_keys_In in Hk. destruct Hk as [r [Hr Hkey]].
  split; [|eauto].
  intros Hnil.
  assert (Hin : In r (filter (fun r => key_eqb K_ltb (key r) k) l)).
  { apply filter_In. split; [exact Hr|]. apply key_eqb_eq. exact Hkey. }
  rewrite Hnil in Hin. exact Hin.
Qed.

End GroupByFacts.

(** ** Ranks *)

Lemma filter_complement_length {A} (p q : A -> bool) (l : list A) :
  (forall x, In x l -> p x = negb (q x)) ->
  (length (filter p l) + length (filter q l))%nat = length l.
Proof.
  induction l as [|a l IH]; intros H; simpl; [reflexivity|].
  rewrite (H a (or_introl eq_refl)).
  assert (IH' := IH (fun x Hx => H x (or_intror Hx))).
  destruct (q a); simpl; lia.
Qed.

Lemma filter_none {A} (p : A -> bool) (l : list A) :
  (forall x, In x l -> p x = false) -> filter p l = [].
Proof.
  induction l as [|a l IH]; intros H; simpl; [reflexivity|].
  rewrite (H a (or_introl eq_refl)). apply IH. intros; apply H; simpl; auto.
Qed.

Lemma StronglySorted_middle {A} (R : A -> A -> Prop) l1 m l2 :
  StronglySorted R (l1 ++ m :: l2) ->
  Forall (fun x => R x m) l1 /\ Forall (fun y => R m y) l2.
Proof.
  induction l1 as [|a l1 IH]; simpl; intros H;
    inversion H as [|? ? Hs Ha]; subst.
  - split; [constructor | exact Ha].
  - destruct (IH Hs) as [H1 H2]. split; [|exact H2].
    constructor; [|exact H1].
    rewrite Forall_forall in Ha. apply Ha. apply in_or_app. simpl; auto.
Qed.

Lemma rank_first_desc_sorted (ms : list Q) :
  StronglySorted (fun x y => y <= x) ms ->
  rank_first_desc (map Some ms) = map (fun i => Some (Z.of_nat (S i))) (seq 0 (length ms)).
Proof.
  intros Hs. unfold rank_first_desc. rewrite length_map.
  apply map_ext_in. intros i Hi. apply in_seq in Hi. destruct Hi as [_ Hi]. simpl in Hi.
  destruct (nth_split ms 0 Hi) as [l1 [l2 [E Hl1]]].
  set (m := nth i ms 0) in *.
  assert (Hnth : nth i (map Some ms) None = Some m).
  { rewrite (nth_indep (map Some ms) None (Some 0)) by (rewrite length_map; exact Hi).
    apply (map_nth (@Some Q)). }
  rewrite Hnth. f_equal.
  rewrite E in Hs. destruct (StronglySorted_middle _ _ _ Hs) as [H1 H2].
  rewrite Forall_forall in H1, H2.
  assert (Hfirst : firstn i (map Some ms) = map Some l1).
  { rewrite firstn_map. f_equal. rewrite E, <- Hl1.
    rewrite firstn_app, firstn_all, Nat.sub_diag. simpl. apply app_nil_r. }
  rewrite Hfirst.
  assert (Hlarger :
            filter (fun o => option_ltb (Some m) o) (map Some ms)
            = map Some (filter (fun x => Qltb m x) l1)).
  { assert (Hmap : forall l, filter (fun o => option_ltb (Some m) o) (map Some l)
                             = map Some (filter (fun x => Qltb m x) l)).
    { clear. induction l as [|a l IH]; [reflexivity|].
      cbn [map filter]. change (option_ltb (Some m) (Some a)) with (Qltb m a).
      destruct (Qltb m a); cbn [map]; rewrite IH; reflexivity. }
    rewrite Hmap. f_equal. rewrite E at 1. rewrite filter_app.
    rewrite (filter_none (fun x => Qltb m x) (m :: l2)); [apply app_nil_r|].
    intros y [<- | Hy]; apply Qltb_ge; [lra|]. apply H2. exact Hy. }
  rewrite Hlarger.
  assert (Hearlier :
            filter (fun o => match o with Some x => Qeq_bool x m | None => false end)
                   (map Some l1)
            = map Some (filter (fun x => Qeq_bool x m) l1)).
  { clear. induction l1 as [|a l IH]; [reflexivity|].
    cbn [map filter]. destruct (Qeq_bool a m); cbn [map]; rewrite IH; reflexivity. }
  rewrite Hearlier, !length_map.
  pose proof (filter_complement_length (fun x => Qltb m x) (fun x => Qeq_bool x m) l1) as Hc.
  assert (Hc' : (length (filter (fun x => Qltb m x) l1)
                 + length (filter (fun x => Qeq_bool x m) l1))%nat = i);
    [rewrite <- Hl1; apply Hc | lia].
  intros x Hx. specialize (H1 x Hx). simpl in H1.
  destruct (Qeq_bool x m) eqn:Eq; simpl.
  - apply Qeq_bool_iff in Eq. apply Qltb_ge. lra.
  - apply Qltb_lt. apply Qeq_bool_neq in Eq.
    destruct (Qlt_le_dec m x) as [Hlt | Hle]; [exact Hlt|].
    exfalso. apply Eq. apply Qle_antisym; assumption.
Qed.

Lemma astype_int_some (zs : list Z) : astype_int (map Some zs) = Ok zs.
Proof.
  unfold astype_int. induction zs as [|z zs IH]; simpl; [reflexivity|].
  rewrite IH. reflexivity.
Qed.

(** ** The long form *)

Lemma cell_records_In d zones vs rec :
  In rec (cell_records d zones vs) <->
  exists j p, nth_error zones j = Some (Zone rec) /\
              nth_error vs j = Some (Some p) /\
              rec = {| Date := d; Zone := Zone rec; Price := p |}.
Proof.
  revert vs. induction zones as [|z zones IH]; intros vs.
  - simpl. split; [tauto|]. intros [j [p [H _]]]. destruct j; discriminate.
  - destruct vs as [|v vs].
    + simpl. split; [tauto|]. intros [j [p [_ [H _]]]]. destruct j; discriminate.
    + unfold cell_records in *. cbn [combine flat_map snd fst].
      rewrite in_app_iff, IH. split.
      * intros [H | [j [p [H1 [H2 H3]]]]].
        -- destruct v as [p|]; [|destruct H].
           destruct H as [<- | []]. exists 0%nat, p. simpl. auto.
        -- exists (S j), p. simpl. auto.
      * intros [[|j] [p [H1 [H2 H3]]]]; simpl in H1, H2.
        -- left. inversion H1; inversion H2; subst. rewrite H3. simpl. auto.
        -- right. eauto.
Qed.

Lemma stack_In (rs : RawSeries) (rec : LongRecord) :
  In rec (stack rs) <->
  exists r j, In r (rows rs) /\
              nth_error (zone_cols rs) j = Some (Zone rec) /\
              nth_error (values r) j = Some (Some (Price rec)) /\
              Date rec = index r.
Proof.
  unfold stack. rewrite in_flat_map. split.
  - intros [r [Hr Hin]]. apply cell_records_In in Hin.
    destruct Hin as [j [p [H1 [H2 H3]]]].
    exists r, j. rewrite H3. simpl. auto.
  - intros [r [j [Hr [H1 [H2 H3]]]]]. exists r. split; [exact Hr|].
    apply cell_records_In. exists j, (Price rec).
    split; [exact H1|]. split; [exact H2|].
    destruct rec; simpl in *; subst; reflexivity.
Qed.

Lemma cell_records_length d zones vs :
  length zones = length vs ->
  (length (cell_records d zones vs) + count_missing vs)%nat = length zones.
Proof.
  revert vs. unfold count_missing.
  induction zones as [|z zones IH]; intros [|v vs] H; simpl in *; try discriminate;
    [reflexivity|].
  injection H as H. specialize (IH vs H).
  unfold cell_records in *. cbn [combine flat_map snd fst].
  rewrite length_app. destruct v; simpl; lia.
Qed.

Lemma cell_records_prices d zones vs :
  length zones = length vs -> prices (cell_records d zones vs) = present vs.
Proof.
  revert vs. induction zones as [|z zones IH]; intros [|v vs] H; simpl in *;
    try discriminate; [reflexivity|].
  injection H as H. specialize (IH vs H).
  unfold cell_records, prices, present in *. cbn [combine flat_map snd fst].
  rewrite map_app, IH. destruct v; reflexivity.
Qed.

Lemma stack_length (rs : RawSeries) :
  rectangular rs ->
  (length (stack rs) + missing_cells rs = length (rows rs) * length (zone_cols rs))%nat.
Proof.
  unfold rectangular, stack, missing_cells, count_missing.
  destruct rs as [zones rws]. simpl.
  induction rws as [|r rws IH]; intros H; simpl; [reflexivity|].
  inversion H as [|? ? Hr Hrest]; subst. specialize (IH Hrest).
  rewrite length_app, filter_app, length_app.
  pose proof (cell_records_length (index r) zones (values r) (eq_sym Hr)) as Hc.
  unfold count_missing, stack_row in *. lia.
Qed.

Lemma stack_prices (rs : RawSeries) :
  rectangular rs -> prices (stack rs) = present (flat_map values (rows rs)).
Proof.
  unfold rectangular, stack. destruct rs as [zones rws]. simpl.
  induction rws as [|r rws IH]; intros H; simpl; [reflexivity|].
  inversion H as [|? ? Hr Hrest]; subst. specialize (IH Hrest).
  unfold prices, present in *. rewrite map_app, flat_map_app, IH.
  f_equal. apply (cell_records_prices (index r) zones (values r) (eq_sym Hr)).
Qed.

(** ** Zone summary *)

Lemma key_eqb_str (a b : string) : key_eqb str_ltb a b = String.eqb a b.
Proof.
  destruct (String.eqb a b) eqn:E.
  - apply (key_eqb_eq StrictTotal_str_ltb). apply String.eqb_eq. exact E.
  - destruct (key_eqb str_ltb a b) eqn:E'; [|reflexivity].
    apply (key_eqb_eq StrictTotal_str_ltb) in E'. apply String.eqb_neq in E. contradiction.
Qed.

Lemma mean_nonempty (l : list Q) : l <> [] -> exists m, mean l = Some m.
Proof. destruct l; [congruence|]. intros _. eexists. reflexivity. Qed.

Lemma zone_agg_zones (stacked : list LongRecord) :
  map zs_Zone (zone_agg stacked) = group_keys Zone str_ltb stacked.
Proof.
  unfold zone_agg. rewrite map_map. simpl. apply groupby_keys.
Qed.

Lemma zone_agg_rows (stacked : list LongRecord) :
  Forall (fun s => s = agg_zone (zs_Zone s, of_zone (zs_Zone s) stacked) /\
                   exists m, zs_Mean s = Some m)
         (zone_agg stacked).
Proof.
  apply Forall_forall. intros s Hs. unfold zone_agg in Hs.
  apply in_map_iff in Hs. destruct Hs as [[k g] [<- Hg]].
  destruct (groupby_group Zone StrictTotal_str_ltb _ _ _ Hg) as [Eg [Hne _]].
  assert (Eg' : g = of_zone k stacked).
  { rewrite Eg. unfold of_zone. apply filter_ext. intros r. apply key_eqb_str. }
  simpl. split.
  - rewrite <- Eg'. reflexivity.
  - unfold prices. apply mean_nonempty. destruct g; [congruence | discriminate].
Qed.

Lemma with_mean_spec (rows : list ZoneStats) :
  Forall (fun s => exists m, zs_Mean s = Some m) rows ->
  map snd (with_mean rows) = rows /\
  Forall (fun p => zs_Mean (snd p) = Some (fst p)) (with_mean rows) /\
  filter (fun r => is_nan (zs_Mean r)) rows = [].
Proof.
  induction 1 as [|s rows [m Hm] Hrows [IH1 [IH2 IH3]]]; simpl.
  - repeat split; constructor.
  - rewrite Hm. simpl. rewrite IH1, IH3. repeat split. constructor; auto.
Qed.

Lemma by_mean_ge (a b : Q * ZoneStats) : by_mean a b = false <-> fst b <= fst a.
Proof. apply Qltb_ge. Qed.

Lemma StrictWeak_by_mean : StrictWeak by_mean.
Proof. exact (StrictWeak_key fst StrictWeak_Qltb). Qed.

Lemma keyed_means (L : list (Q * ZoneStats)) :
  Forall (fun p => zs_Mean (snd p) = Some (fst p)) L ->
  map zs_Mean (map snd L) = map Some (map fst L).
Proof.
  induction 1 as [|p L Hp HL IH]; simpl; [reflexivity|]. rewrite Hp, IH. reflexivity.
Qed.

Lemma keyed_filter (v : Q) (L : list (Q * ZoneStats)) :
  Forall (fun p => zs_Mean (snd p) = Some (fst p)) L ->
  map snd (filter (fun p => Qeq_bool (fst p) v) L) = filter (mean_is v) (map snd L).
Proof.
  induction 1 as [|p L Hp HL IH]; simpl; [reflexivity|].
  unfold mean_is at 1. rewrite Hp.
  destruct (Qeq_bool (fst p) v); simpl; rewrite IH; reflexivity.
Qed.

Lemma StronglySorted_keyed (L : list (Q * ZoneStats)) :
  Forall (fun p => zs_Mean (snd p) = Some (fst p)) L ->
  StronglySorted (fun a b => fst b <= fst a) L ->
  StronglySorted (fun a b => exists ma mb,
                      zs_Mean a = Some ma /\ zs_Mean b = Some mb /\ mb <= ma)
                 (map snd L).
Proof.
  intros HL Hs. apply StronglySorted_map.
  induction Hs as [|a L Hs IH Ha]; constructor.
  - apply IH. inversion HL; assumption.
  - inversion HL as [|? ? Hhead Htail]; subst.
    rewrite Forall_forall in *. intros b Hb.
    exists (fst a), (fst b). repeat split; auto.
Qed.

Section ZoneSummaryFacts.
Variable kind : Sorter.
Hypothesis contract : sort_contract kind.
Variable stacked : list LongRecord.

Lemma sort_by_mean_spec :
  Permutation (zone_agg stacked) (sort_by_mean kind (zone_agg stacked)) /\
  StronglySorted (fun a b => exists ma mb,
                      zs_Mean a = Some ma /\ zs_Mean b = Some mb /\ mb <= ma)
                 (sort_by_mean kind (zone_agg stacked)) /\
  (exists ms, map zs_Mean (sort_by_mean kind (zone_agg stacked)) = map Some ms /\
              StronglySorted (fun x y => y <= x) ms) /\
  (stable kind ->
   forall v, filter (mean_is v) (sort_by_mean kind (zone_agg stacked))
             = filter (mean_is v) (zone_agg stacked)).
Proof.
  assert (Hall : Forall (fun s => exists m, zs_Mean s = Some m) (zone_agg stacked)).
  { eapply Forall_impl; [|apply zone_agg_rows]. intros s [_ H]. exact H. }
  destruct (with_mean_spec Hall) as [H1 [H2 H3]].
  unfold sort_by_mean. rewrite H3, app_nil_r.
  set (SK := sort_values kind by_mean false (with_mean (zone_agg stacked))).
  assert (HP : Permutation (with_mean (zone_agg stacked)) SK)
    by (apply sort_values_perm; exact contract).
  assert (HI : Forall (fun p => zs_Mean (snd p) = Some (fst p)) SK).
  { apply Forall_forall. intros p Hp. rewrite Forall_forall in H2. apply H2.
    eapply Permutation_in; [symmetry; exact HP | exact Hp]. }
  assert (HS : StronglySorted (fun a b => fst b <= fst a) SK).
  { eapply StronglySorted_weaken;
      [|apply (sort_values_descending contract StrictWeak_by_mean)].
    intros x y H. apply by_mean_ge. exact H. }
  split; [rewrite <- H1 at 1; apply Permutation_map; exact HP|].
  split; [apply StronglySorted_keyed; assumption|].
  split.
  - exists (map fst SK). split; [apply keyed_means; exact HI|].
    apply StronglySorted_map. exact HS.
  - intros St v. rewrite <- (keyed_filter v HI).
    unfold SK. rewrite (sort_values_stable StrictWeak_by_mean); [|exact St|].
    + rewrite (keyed_filter v H2), H1. reflexivity.
    + intros x y Hx Hy. apply Qeq_bool_iff in Hx, Hy. apply by_mean_ge. lra.
Qed.

Lemma zone_summary_ok :
  zone_summary kind stacked
  = Ok (map (fun sr => {| zone_stats := fst sr; Rank := snd sr |})
            (combine (sort_by_mean kind (zone_agg stacked))
                     (map (fun i => Z.of_nat (S i))
                          (seq 0 (length (sort_by_mean kind (zone_agg stacked))))))).
Proof.
  destruct sort_by_mean_spec as [_ [_ [[ms [Hms Hsorted]] _]]].
  unfold zone_summary. rewrite Hms, (rank_first_desc_sorted Hsorted).
  rewrite <- (map_map (fun i => Z.of_nat (S i)) Some), astype_int_some. simpl.
  assert (length ms = length (sort_by_mean kind (zone_agg stacked))) as ->.
  { rewrite <- (length_map Some ms), <- Hms. apply length_map. }
  reflexivity.
Qed.

End ZoneSummaryFacts.

Lemma StronglySorted_map_inv {A B} (f : A -> B) (R : B -> B -> Prop) l :
  StronglySorted R (map f l) -> StronglySorted (fun x y => R (f x) (f y)) l.
Proof.
  induction l as [|a l IH]; simpl; intros H; [constructor|].
  inversion H as [|? ? Hs Ha]; subst. constructor; [auto|].
  rewrite Forall_forall in *. intros x Hx. apply Ha. apply in_map. exact Hx.
Qed.

Lemma StronglySorted_filter {A} (R : A -> A -> Prop) (p : A -> bool) l :
  StronglySorted R l -> StronglySorted R (filter p l).
Proof.
  induction 1 as [|a l Hs IH Ha]; simpl; [constructor|].
  destruct (p a); [|exact IH]. constructor; [exact IH|].
  rewrite Forall_forall in *. intros x Hx. apply Ha.
  apply filter_In in Hx. tauto.
Qed.

Lemma map_fst_combine {A B} (l : list A) (l' : list B) :
  length l = length l' -> map fst (combine l l') = l.
Proof.
  revert l'. induction l as [|a l IH]; intros [|b l'] H; simpl in *;
    try discriminate; [reflexivity|].
  f_equal. apply IH. lia.
Qed.

Lemma map_snd_combine {A B} (l : list A) (l' : list B) :
  length l = length l' -> map snd (combine l l') = l'.
Proof.
  revert l'. induction l as [|a l IH]; intros [|b l'] H; simpl in *;
    try discriminate; [reflexivity|].
  f_equal. apply IH. lia.
Qed.

Lemma zone_summary_rows (kind : Sorter) (stacked : list LongRecord) :
  sort_contract kind ->
  exists summary,
    zone_summary kind stacked = Ok summary /\
    Forall (fun s => zone_stats s = agg_zone (zone_of s, of_zone (zone_of s) stacked))
           summary.
Proof.
  intros C. destruct (sort_by_mean_spec C stacked) as [HP _].
  eexists. split; [apply (zone_summary_ok C)|].
  apply Forall_forall. intros s Hs. apply in_map_iff in Hs.
  destruct Hs as [[st rk] [<- Hin]]. apply in_combine_l in Hin. simpl.
  apply (Permutation_in _ (Permutation_sym HP)) in Hin.
  pose proof (zone_agg_rows stacked) as Hrows.
  rewrite Forall_forall in Hrows. destruct (Hrows _ Hin) as [E _]. exact E.
Qed.

(** C1, as the code has it: the summary has one row per zone that holds at
    least one price (a zone column that is all NaN has none), the rows stand
    by mean descending and carry the ranks 1, 2, ... in that order, so rank 1
    goes to a zone of highest mean; each row holds the statistics of its
    zone's prices.  Zones of equal mean stand as the sort leaves them: under a
    stable sort in the ascending order of their names, in which the group-by
    hands them over, and not in the order of the columns. *)
Theorem zone_summary_ranks (kind : Sorter) (rs : RawSeries) :
  sort_contract kind ->
  exists summary,
    zone_summary kind (stack rs) = Ok summary /\
    map Rank summary = map Z.of_nat (seq 1 (length summary)) /\
    NoDup (map zone_of summary) /\
    (forall z, In z (map zone_of summary) <->
               exists r j p, In r (rows rs) /\
                             nth_error (zone_cols rs) j = Some z /\
                             nth_error (values r) j = Some (Some p)) /\
    Forall (fun s => zone_stats s
                     = agg_zone (zone_of s, of_zone (zone_of s) (stack rs))) summary /\
    StronglySorted (fun a b => exists ma mb,
                        mean_of a = Some ma /\ mean_of b = Some mb /\ mb <= ma)
                   summary /\
    (stable kind ->
     forall v, StronglySorted (fun a b => str_ltb (zs_Zone a) (zs_Zone b) = true)
                              (filter (mean_is v) (map zone_stats summary))).
Proof.
  intros C.
  destruct (sort_by_mean_spec C (stack rs)) as [HP [HS [_ HSt]]].
  set (S := sort_by_mean kind (zone_agg (stack rs))) in *.
  set (ranks := map (fun i => Z.of_nat (Datatypes.S i)) (seq 0 (length S))).
  assert (Hlen : length S = length ranks)
    by (unfold ranks; rewrite length_map, length_seq; reflexivity).
  eexists. split; [apply (zone_summary_ok C)|].
  fold S. fold ranks.
  set (summary := map (fun sr => {| zone_stats := fst sr; Rank := snd sr |})
                      (combine S ranks)).
  assert (Hstats : map zone_stats summary = S).
  { unfold summary. rewrite map_map. simpl. apply map_fst_combine. exact Hlen. }
  assert (Hranks : map Rank summary = ranks).
  { unfold summary. rewrite map_map. simpl. apply map_snd_combine. exact Hlen. }
  assert (Hzones : map zone_of summary = map zs_Zone S).
  { rewrite <- Hstats, map_map. reflexivity. }
  split.
  { rewrite Hranks. unfold ranks. rewrite <- seq_shift, map_map.
    rewrite <- Hstats, !length_map. reflexivity. }
  split.
  { rewrite Hzones. eapply Permutation_NoDup; [apply Permutation_map; exact HP|].
    rewrite zone_agg_zones. apply (group_keys_NoDup Zone StrictTotal_str_ltb). }
  split.
  { intros z. rewrite Hzones.
    assert (In z (map zs_Zone S) <-> In z (group_keys Zone str_ltb (stack rs))) as ->.
    { rewrite <- zone_agg_zones. split; apply Permutation_in;
        [symmetry|]; apply Permutation_map; exact HP. }
    rewrite (group_keys_In Zone StrictTotal_str_ltb). split.
    - intros [rec [Hin <-]]. apply stack_In in Hin.
      destruct Hin as [r [j [Hr [Hz [Hv _]]]]]. exists r, j, (Price rec). auto.
    - intros [r [j [p [Hr [Hz Hv]]]]].
      exists {| Date := index r; Zone := z; Price := p |}. split; [|reflexivity].
      apply stack_In. exists r, j. simpl. auto. }
  split.
  { apply Forall_forall. intros s Hs.
    assert (Hin : In (zone_stats s) (zone_agg (stack rs))).
    { eapply Permutation_in; [symmetry; exact HP|].
      fold S. rewrite <- Hstats. apply in_map. exact Hs. }
    pose proof (zone_agg_rows (stack rs)) as Hrows.
    rewrite Forall_forall in Hrows. destruct (Hrows _ Hin) as [E _]. exact E. }
  split.
  { apply (@StronglySorted_map_inv _ _ zone_stats
             (fun a b => exists ma mb,
                  zs_Mean a = Some ma /\ zs_Mean b = Some mb /\ mb <= ma)).
    rewrite Hstats. exact HS. }
  intros St v. rewrite Hstats. rewrite (HSt St v).
  apply StronglySorted_filter.
  apply (@StronglySorted_map_inv _ _ zs_Zone (fun a b => str_ltb a b = true)).
  rewrite zone_agg_zones. apply (group_keys_sorted Zone StrictTotal_str_ltb).
Qed.

Lemma zone_summary_ranks_witness :
  sort_contract insertion_sort /\ stable insertion_sort /\
  exists summary,
    zone_summary insertion_sort (stack tie_BA) = Ok summary /\
    map Rank summary = map Z.of_nat (seq 1 (length summary)) /\
    NoDup (map zone_of summary) /\
    (forall z, In z (map zone_of summary) <->
               exists r j p, In r (rows tie_BA) /\
                             nth_error (zone_cols tie_BA) j = Some z /\
                             nth_error (values r) j = Some (Some p)) /\
    Forall (fun s => zone_stats s
                     = agg_zone (zone_of s, of_zone (zone_of s) (stack tie_BA))) summary /\
    StronglySorted (fun a b => exists ma mb,
                        mean_of a = Some ma /\ mean_of b = Some mb /\ mb <= ma)
                   summary /\
    forall v, StronglySorted (fun a b => str_ltb (zs_Zone a) (zs_Zone b) = true)
                             (filter (mean_is v) (map zone_stats summary)).
Proof.
  split; [exact insertion_sort_contract|]. split; [exact insertion_sort_stable|].
  destruct (zone_summary_ranks tie_BA insertion_sort_contract)
    as [summary [H1 [H2 [H3 [H4 [H5 [H6 H7]]]]]]].
  exists summary.
  repeat (split; [assumption|]). exact (H7 insertion_sort_stable).
Defined.

(** C1 as stated fails twice.  With the columns B, A and one price for
    both, rank 1 goes to A, the second column.  With a column that holds no
    price, the summary has one row for two zones, so its ranks are not a
    permutation of 1..2. *)
Lemma zone_summary_rank_counterexample :
  (zone_cols tie_BA = ["B"; "A"]%string /\
   exists summary,
     zone_summary np_quicksort (stack tie_BA) = Ok summary /\
     map mean_of summary = [Some 10; Some 10] /\
     map (fun s => (zone_of s, Rank s)) summary = [("A", 1); ("B", 2)]%string%Z) /\
  (length (zone_cols missing_B) = 2%nat /\
   exists summary,
     zone_summary np_quicksort (stack missing_B) = Ok summary /\
     map (fun s => (zone_of s, Rank s)) summary = [("A", 1)]%string%Z /\
     ~ Permutation (map Rank summary) [1; 2]%Z).
Proof.
  split; (split; [reflexivity|]); eexists; (split; [vm_compute; reflexivity|]).
  - split; reflexivity.
  - split; [reflexivity|].
    intros H. apply Permutation_length in H. discriminate H.
Qed.

(** ** The long form of a series without missing prices *)

Lemma count_missing_complete (vs : list (option Q)) :
  Forall (fun c => c <> None) vs -> count_missing vs = 0%nat.
Proof.
  unfold count_missing. induction 1 as [|c vs Hc Hvs IH]; simpl; [reflexivity|].
  destruct c; [exact IH | congruence].
Qed.

Lemma cell_records_nth d zones vs j z p :
  Forall (fun c => c <> None) vs ->
  nth_error zones j = Some z -> nth_error vs j = Some (Some p) ->
  nth_error (cell_records d zones vs) j = Some {| Date := d; Zone := z; Price := p |}.
Proof.
  revert vs j. induction zones as [|z0 zones IH]; intros vs j Hc Hz Hv.
  - destruct j; discriminate.
  - destruct vs as [|v vs]; [destruct j; discriminate|].
    inversion Hc as [|? ? Hv0 Hrest]; subst.
    unfold cell_records in *. cbn [combine flat_map snd fst].
    destruct v as [p0|]; [|congruence].
    destruct j as [|j]; simpl in Hz, Hv.
    + inversion Hz; inversion Hv; subst. reflexivity.
    + simpl. apply IH; assumption.
Qed.

Lemma stack_complete_nth (rs : RawSeries) :
  rectangular rs -> complete rs ->
  forall i j r z p,
    nth_error (rows rs) i = Some r ->
    nth_error (zone_cols rs) j = Some z ->
    nth_error (values r) j = Some (Some p) ->
    nth_error (stack rs) (i * length (zone_cols rs) + j)
    = Some {| Date := index r; Zone := z; Price := p |}.
Proof.
  intros Hrect Hcomp.
  assert (Hrowlen : forall r, In r (rows rs) ->
                              length (stack_row (zone_cols rs) r) = length (zone_cols rs)).
  { intros r Hr. unfold rectangular, complete in *. rewrite Forall_forall in Hrect, Hcomp.
    pose proof (cell_records_length (index r) (zone_cols rs) (values r)
                                    (eq_sym (Hrect r Hr))) as H.
    rewrite (count_missing_complete (Hcomp r Hr)) in H.
    unfold stack_row. lia. }
  unfold stack, complete in *. destruct rs as [zones rws]. simpl in *.
  clear Hrect. induction rws as [|r0 rws IH]; intros i j r z p Hi Hz Hv.
  - destruct i; discriminate.
  - assert (Hj : (j < length zones)%nat) by (apply nth_error_Some; congruence).
    inversion Hcomp as [|? ? Hc0 Hcrest]; subst.
    simpl. destruct i as [|i]; simpl in Hi.
    + inversion Hi; subst r0. rewrite nth_error_app1.
      * apply cell_records_nth; assumption.
      * rewrite (Hrowlen r (or_introl eq_refl)). simpl. exact Hj.
    + rewrite nth_error_app2 by (rewrite (Hrowlen r0 (or_introl eq_refl)); simpl; lia).
      rewrite (Hrowlen r0 (or_introl eq_refl)).
      replace (S i * length zones + j - length zones)%nat
        with (i * length zones + j)%nat by lia.
      apply IH; auto. intros r1 Hr1. apply Hrowlen. right. exact Hr1.
Qed.

Lemma stack_complete_length (rs : RawSeries) :
  rectangular rs -> complete rs ->
  length (stack rs) = (length (rows rs) * length (zone_cols rs))%nat.
Proof.
  intros Hrect Hcomp. pose proof (stack_length Hrect) as H.
  assert (missing_cells rs = 0%nat) as Hm; [|lia].
  unfold missing_cells. apply count_missing_complete.
  unfold complete in Hcomp. clear - Hcomp.
  induction Hcomp as [|r rws Hr Hrws IH]; simpl; [constructor|].
  apply Forall_app. split; assumption.
Qed.

(** C2: for a series whose rows have one price per zone, none missing (a
    valid series), the long form has rows x zones records; the record at
    position [i * zones + j] is the timestamp of row [i], the name of zone [j]
    and the price of that cell, and every record stands at such a position:
    each (row, zone) pair is there once, unchanged. *)
Theorem stack_complete (rs : RawSeries) :
  rectangular rs -> complete rs ->
  length (stack rs) = (length (rows rs) * length (zone_cols rs))%nat /\
  (forall i j r z p,
      nth_error (rows rs) i = Some r ->
      nth_error (zone_cols rs) j = Some z ->
      nth_error (values r) j = Some (Some p) ->
      nth_error (stack rs) (i * length (zone_cols rs) + j)
      = Some {| Date := index r; Zone := z; Price := p |}) /\
  (forall n rec,
      nth_error (stack rs) n = Some rec ->
      exists i j r,
        n = (i * length (zone_cols rs) + j)%nat /\ (j < length (zone_cols rs))%nat /\
        nth_error (rows rs) i = Some r /\
        nth_error (zone_cols rs) j = Some (Zone rec) /\
        nth_error (values r) j = Some (Some (Price rec)) /\
        Date rec = index r).
Proof.
  intros Hrect Hcomp.
  pose proof (stack_complete_length Hrect Hcomp) as Hlen.
  pose proof (stack_complete_nth Hrect Hcomp) as Hnth.
  split; [exact Hlen|]. split; [exact Hnth|].
  intros n rec Hn.
  assert (Hlt : (n < length (rows rs) * length (zone_cols rs))%nat).
  { rewrite <- Hlen. apply nth_error_Some. congruence. }
  remember (length (zone_cols rs)) as Z eqn:EZ.
  assert (HZ : Z <> 0%nat) by (intros E; rewrite E in Hlt; lia).
  assert (Hj : (n mod Z < Z)%nat) by (apply Nat.mod_upper_bound; exact HZ).
  assert (Hi : (n / Z < length (rows rs))%nat).
  { apply Nat.Div0.div_lt_upper_bound. rewrite Nat.mul_comm. exact Hlt. }
  assert (Hn' : n = (n / Z * Z + n mod Z)%nat).
  { rewrite (Nat.div_mod_eq n Z) at 1. lia. }
  destruct (nth_error (rows rs) (n / Z)) as [r|] eqn:Er;
    [|apply nth_error_None in Er; lia].
  destruct (nth_error (zone_cols rs) (n mod Z)) as [z|] eqn:Ez;
    [|apply nth_error_None in Ez; lia].
  assert (Hr : In r (rows rs)) by (eapply nth_error_In; exact Er).
  unfold rectangular, complete in Hrect, Hcomp. rewrite Forall_forall in Hrect, Hcomp.
  destruct (nth_error (values r) (n mod Z)) as [c|] eqn:Ec;
    [|apply nth_error_None in Ec; rewrite (Hrect r Hr) in Ec; lia].
  destruct c as [p|].
  - pose proof (Hnth _ _ _ _ _ Er Ez Ec) as Hrec.
    rewrite <- Hn', Hn in Hrec. inversion Hrec; subst rec.
    exists (n / Z)%nat, (n mod Z)%nat, r. simpl.
    repeat (split; [assumption|]). reflexivity.
  - exfalso. specialize (Hcomp r Hr). rewrite Forall_forall in Hcomp.
    apply (Hcomp None); [|reflexivity]. eapply nth_error_In. exact Ec.
Qed.

Lemma stack_complete_witness :
  rectangular tie_BA /\ complete tie_BA /\
  length (stack tie_BA) = (length (rows tie_BA) * length (zone_cols tie_BA))%nat /\
  (forall i j r z p,
      nth_error (rows tie_BA) i = Some r ->
      nth_error (zone_cols tie_BA) j = Some z ->
      nth_error (values r) j = Some (Some p) ->
      nth_error (stack tie_BA) (i * length (zone_cols tie_BA) + j)
      = Some {| Date := index r; Zone := z; Price := p |}) /\
  (forall n rec,
      nth_error (stack tie_BA) n = Some rec ->
      exists i j r,
        n = (i * length (zone_cols tie_BA) + j)%nat /\
        (j < length (zone_cols tie_BA))%nat /\
        nth_error (rows tie_BA) i = Some r /\
        nth_error (zone_cols tie_BA) j = Some (Zone rec) /\
        nth_error (values r) j = Some (Some (Price rec)) /\
        Date rec = index r).
Proof.
  assert (Hr : rectangular tie_BA) by (repeat constructor).
  assert (Hc : complete tie_BA) by (repeat constructor; discriminate).
  split; [exact Hr|]. split; [exact Hc|].
  exact (stack_complete Hr Hc).
Defined.

(** ** Maximum and minimum *)

Lemma present_In {A} (vs : list (option A)) (v : A) : In v (present vs) <-> In (Some v) vs.
Proof.
  unfold present. rewrite in_flat_map. split.
  - intros [[x|] [Hc Hin]]; simpl in Hin; [|tauto].
    destruct Hin as [<- | []]. exact Hc.
  - intros H. exists (Some v). simpl. auto.
Qed.

Lemma fold_max_spec (l : list Q) (x : Q) :
  let M := fold_left (fun m y => if Qltb m y then y else m) l x in
  In M (x :: l) /\ x <= M /\ forall y, In y l -> y <= M.
Proof.
  revert x. induction l as [|a l IH]; intros x; simpl.
  - split; [auto|]. split; [lra | tauto].
  - destruct (Qltb x a) eqn:E.
    + apply Qltb_lt in E. destruct (IH a) as [H1 [H2 H3]]. simpl in H1.
      split; [tauto|]. split; [lra|].
      intros y [<- | Hy]; auto.
    + apply Qltb_ge in E. destruct (IH x) as [H1 [H2 H3]]. simpl in H1.
      split; [tauto|]. split; [exact H2|].
      intros y [<- | Hy]; [lra | auto].
Qed.

Lemma fold_min_spec (l : list Q) (x : Q) :
  let m := fold_left (fun m y => if Qltb y m then y else m) l x in
  In m (x :: l) /\ m <= x /\ forall y, In y l -> m <= y.
Proof.
  revert x. induction l as [|a l IH]; intros x; simpl.
  - split; [auto|]. split; [lra | tauto].
  - destruct (Qltb a x) eqn:E.
    + apply Qltb_lt in E. destruct (IH a) as [H1 [H2 H3]]. simpl in H1.
      split; [tauto|]. split; [lra|].
      intros y [<- | Hy]; auto.
    + apply Qltb_ge in E. destruct (IH x) as [H1 [H2 H3]]. simpl in H1.
      split; [tauto|]. split; [exact H2|].
      intros y [<- | Hy]; [lra | auto].
Qed.

Lemma Qmax_list_spec (l : list Q) :
  match Qmax_list l with
  | None => l = []
  | Some M => In M l /\ forall y, In y l -> y <= M
  end.
Proof.
  destruct l as [|x l]; simpl; [reflexivity|].
  destruct (fold_max_spec l x) as [H1 [H2 H3]]. split; [exact H1|].
  intros y [<- | Hy]; auto.
Qed.

Lemma Qmin_list_spec (l : list Q) :
  match Qmin_list l with
  | None => l = []
  | Some m => In m l /\ forall y, In y l -> m <= y
  end.
Proof.
  destruct l as [|x l]; simpl; [reflexivity|].
  destruct (fold_min_spec l x) as [H1 [H2 H3]]. split; [exact H1|].
  intros y [<- | Hy]; auto.
Qed.

(** ** Inter-zonal spread *)

(** C5: at every timestamp the maximum and the minimum are taken over the
    prices that are there, a missing price being left out and raising
    nothing: with no price at all the three values are NaN; otherwise the
    maximum and the minimum are prices of the row that bound all its prices,
    and the spread is their difference.  Where one zone alone has a price,
    both are that price and the spread is zero. *)
Theorem spread_skips_missing (rs : RawSeries) (i : nat) (r : Row) :
  nth_error (rows rs) i = Some r ->
  exists s,
    nth_error (spread rs) i = Some s /\
    sp_Date s = index r /\
    sp_Spread s = option_sub (sp_Max s) (sp_Min s) /\
    ((forall v, ~ In (Some v) (values r)) ->
     sp_Max s = None /\ sp_Min s = None /\ sp_Spread s = None) /\
    ((exists v, In (Some v) (values r)) ->
     exists mx mn,
       sp_Max s = Some mx /\ sp_Min s = Some mn /\ sp_Spread s = Some (mx - mn) /\
       In (Some mx) (values r) /\ In (Some mn) (values r) /\
       forall v, In (Some v) (values r) -> mn <= v <= mx) /\
    (forall v, present (values r) = [v] ->
               sp_Max s = Some v /\ sp_Min s = Some v /\
               exists d, sp_Spread s = Some d /\ d == 0).
Proof.
  intros Hr. exists (spread_row r).
  split; [unfold spread; rewrite nth_error_map, Hr; reflexivity|].
  split; [reflexivity|]. split; [reflexivity|].
  unfold spread_row. simpl.
  pose proof (Qmax_list_spec (present (values r))) as Hmax.
  pose proof (Qmin_list_spec (present (values r))) as Hmin.
  split; [|split].
  - intros Hnone.
    assert (E : present (values r) = []).
    { destruct (present (values r)) as [|v l] eqn:E; [reflexivity|].
      exfalso. apply (Hnone v). apply present_In. rewrite E. simpl; auto. }
    rewrite E. simpl. auto.
  - intros [v Hv]. apply present_In in Hv.
    destruct (Qmax_list (present (values r))) as [mx|];
      [|rewrite Hmax in Hv; destruct Hv].
    destruct (Qmin_list (present (values r))) as [mn|];
      [|rewrite Hmin in Hv; destruct Hv].
    destruct Hmax as [Hx1 Hx2], Hmin as [Hn1 Hn2].
    exists mx, mn. repeat split; try (apply present_In; assumption).
    + apply Hn2. apply present_In. assumption.
    + apply Hx2. apply present_In. assumption.
  - intros v E. rewrite E. simpl. repeat split.
    exists (v - v). split; [reflexivity | ring].
Qed.

Lemma spread_skips_missing_witness :
  nth_error (rows missing_B) 0 = Some {| index := ts 2021 1 1 0; values := [Some 10; None] |} /\
  exists s,
    nth_error (spread missing_B) 0 = Some s /\
    sp_Max s = Some 10 /\ sp_Min s = Some 10 /\
    exists d, sp_Spread s = Some d /\ d == 0.
Proof.
  split; [reflexivity|].
  destruct (@spread_skips_missing missing_B 0
              {| index := ts 2021 1 1 0; values := [Some 10; None] |} eq_refl)
    as [s [H1 [_ [_ [_ [_ H2]]]]]].
  exists s. split; [exact H1|].
  destruct (H2 10 eq_refl) as [Hx [Hn Hd]]. auto.
Defined.

(** ** Rolling statistics *)

Lemma nth_error_combine {A B} (l : list A) (l' : list B) i x y :
  nth_error l i = Some x -> nth_error l' i = Some y ->
  nth_error (combine l l') i = Some (x, y).
Proof.
  revert l' i. induction l as [|a l IH]; intros [|b l'] [|i] Hx Hy;
    simpl in *; try discriminate.
  - congruence.
  - apply IH; assumption.
Qed.

Lemma rolling_nth {B} (w minp : nat) (f : list Q -> option B) (s : list (option Q)) i :
  (i < length s)%nat ->
  nth_error (rolling w minp f s) i
  = Some (if (length (present (window w i s)) <? minp)%nat then None
          else f (present (window w i s))).
Proof.
  intros Hi. unfold rolling. rewrite nth_error_map, nth_error_seq.
  destruct (Nat.ltb_spec i (length s)); [reflexivity | lia].
Qed.

Lemma present_length_le {A} (l : list (option A)) : (length (present l) <= length l)%nat.
Proof.
  unfold present. induction l as [|[a|] l IH]; simpl; lia.
Qed.

Lemma present_length_all {A} (l : list (option A)) :
  Forall (fun o => o <> None) l -> length (present l) = length l.
Proof.
  unfold present. induction 1 as [|o l Ho Hl IH]; simpl; [reflexivity|].
  destruct o; [simpl; lia | congruence].
Qed.

Lemma window_length {A} (w i : nat) (s : list A) :
  (i < length s)%nat -> length (window w i s) = Nat.min (S i) w.
Proof.
  intros Hi. unfold window. rewrite length_skipn, length_firstn. lia.
Qed.

Lemma window_Forall {A} (P : A -> Prop) (w i : nat) (s : list A) :
  Forall P s -> Forall P (window w i s).
Proof.
  intros H. unfold window. rewrite Forall_forall in *. intros x Hx.
  apply H. apply (In_firstn (S i)).
  rewrite <- (firstn_skipn (S i - w) (firstn (S i) s)).
  apply in_or_app. right. exact Hx.
Qed.

Lemma std_defined (l : list Q) : (2 <= length l)%nat -> exists v, std l = Some (Sqrt v).
Proof.
  intros H. unfold std, var.
  destruct l as [|x l]; [simpl in H; lia|].
  cbn [mean]. destruct (Nat.leb_spec (length (x :: l)) 1); [lia|].
  eexists. reflexivity.
Qed.

Lemma std_single (l : list Q) : (length l <= 1)%nat -> std l = None.
Proof.
  intros H. unfold std, var. destruct (mean l); [|reflexivity].
  destruct (Nat.leb_spec (length l) 1); [reflexivity | lia].
Qed.

(** C4, as the code has it: the across-zone mean of each timestamp comes
    first (NaN where no zone has a price); the rolling mean and the rolling
    sample standard deviation at a position are taken over the means that
    exist among the last 720 positions, and are NaN, nothing else, while
    fewer than 24 of them exist.  So positions 0..22 have no value; a position
    from 23 on has one when every timestamp has at least one price, and in
    general exactly when its window holds 24 existing means. *)
Theorem roll_min_periods (rs : RawSeries) (i : nat) (r : Row) :
  nth_error (rows rs) i = Some r ->
  exists row,
    nth_error (roll rs) i = Some row /\
    r_Avg row = mean (present (values r)) /\
    ((length (present (window 720 i (avg2 rs))) < 24)%nat ->
     RollMean30d row = None /\ RollVol30d row = None) /\
    ((24 <= length (present (window 720 i (avg2 rs))))%nat ->
     RollMean30d row = mean (present (window 720 i (avg2 rs))) /\
     RollVol30d row = std (present (window 720 i (avg2 rs))) /\
     (exists m, RollMean30d row = Some m) /\
     (exists v, RollVol30d row = Some (Sqrt v))) /\
    ((i < 23)%nat -> RollMean30d row = None /\ RollVol30d row = None) /\
    ((23 <= i)%nat ->
     Forall (fun r => exists v, In (Some v) (values r)) (rows rs) ->
     (exists m, RollMean30d row = Some m) /\
     (exists v, RollVol30d row = Some (Sqrt v))).
Proof.
  intros Hr.
  assert (Hi : (i < length (avg2 rs))%nat).
  { unfold avg2. rewrite length_map. apply nth_error_Some. congruence. }
  set (obs := present (window 720 i (avg2 rs))).
  assert (Havg : nth_error (avg2 rs) i = Some (mean (present (values r)))).
  { unfold avg2. rewrite nth_error_map, Hr. reflexivity. }
  eexists. split.
  { unfold roll, roll_with. rewrite nth_error_map.
    erewrite nth_error_combine;
      [reflexivity | apply nth_error_combine; [exact Havg | apply rolling_nth; exact Hi]
      | apply rolling_nth; exact Hi]. }
  cbn [r_Avg RollMean30d RollVol30d fst snd].
  change (24 * 30)%nat with 720%nat. fold obs.
  split; [reflexivity|].
  assert (Hlow : (length obs < 24)%nat ->
                 (if (length obs <? 24)%nat then None else mean obs) = None /\
                 (if (length obs <? 24)%nat then None else std obs) = None).
  { intros H. destruct (Nat.ltb_spec (length obs) 24); [auto | lia]. }
  assert (Hhigh : (24 <= length obs)%nat ->
                  (if (length obs <? 24)%nat then None else mean obs) = mean obs /\
                  (if (length obs <? 24)%nat then None else std obs) = std obs /\
                  (exists m, (if (length obs <? 24)%nat then None else mean obs) = Some m) /\
                  (exists v, (if (length obs <? 24)%nat then None else std obs)
                             = Some (Sqrt v))).
  { intros H. destruct (Nat.ltb_spec (length obs) 24); [lia|].
    split; [reflexivity|]. split; [reflexivity|]. split.
    - apply mean_nonempty. destruct obs; [simpl in H; lia | discriminate].
    - apply std_defined. lia. }
  split; [exact Hlow|]. split; [exact Hhigh|]. split.
  - intros H. apply Hlow. unfold obs.
    pose proof (present_length_le (window 720 i (avg2 rs))) as Hp.
    rewrite (window_length 720 (avg2 rs) Hi) in Hp. lia.
  - intros H Hall.
    assert (Hobs : length obs = Nat.min (S i) 720).
    { unfold obs. rewrite present_length_all; [apply window_length; exact Hi|].
      apply window_Forall. unfold avg2. apply Forall_map.
      eapply Forall_impl; [|exact Hall]. intros r0 [v Hv].
      apply present_In in Hv.
      destruct (present (values r0)); [destruct Hv | discriminate]. }
    destruct (Hhigh ltac:(lia)) as [_ [_ Hd]]. exact Hd.
Qed.

Lemma roll_min_periods_witness :
  nth_error (rows full24) 23 = Some {| index := ts 2021 1 1 23; values := [Some 1] |} /\
  (23 <= 23)%nat /\
  Forall (fun r => exists v, In (Some v) (values r)) (rows full24) /\
  exists row,
    nth_error (roll full24) 23 = Some row /\
    (exists m, RollMean30d row = Some m) /\
    (exists v, RollVol30d row = Some (Sqrt v)).
Proof.
  assert (Hall : Forall (fun r => exists v, In (Some v) (values r)) (rows full24)).
  { unfold full24. cbn [rows]. apply Forall_map. apply Forall_forall.
    intros h _. exists 1. simpl. auto. }
  split; [reflexivity|]. split; [lia|]. split; [exact Hall|].
  destruct (@roll_min_periods full24 23
              {| index := ts 2021 1 1 23; values := [Some 1] |} eq_refl)
    as [row [H1 [_ [_ [_ [_ H2]]]]]].
  exists row. split; [exact H1|]. apply H2; [lia | exact Hall].
Defined.

(** C4 as stated fails: with the price of the first of 24 hours missing,
    position 23 = minPeriods - 1 has 23 observations behind it and no value. *)
Lemma roll_gap_counterexample :
  length (rows gap24) = 24%nat /\
  option_map r_Avg (nth_error (roll gap24) 0) = Some None /\
  option_map RollMean30d (nth_error (roll gap24) 23) = Some None /\
  option_map RollVol30d (nth_error (roll gap24) 23) = Some None.
Proof.
  repeat split; vm_compute; reflexivity.
Qed.

(** ** Standard deviation and quantiles *)

Lemma sorted_values_spec (l : list Q) :
  Permutation l (sorted_values l) /\ StronglySorted Qle (sorted_values l).
Proof.
  split; [apply insertion_sort_perm|].
  eapply StronglySorted_weaken;
    [|apply (sort_sorted insertion_sort_contract l StrictWeak_Qltb)].
  intros x y H. apply Qltb_ge. exact H.
Qed.

Lemma sorted_values_length (l : list Q) : length (sorted_values l) = length l.
Proof. symmetry. apply Permutation_length, sorted_values_spec. Qed.

Lemma inject_nat_nonzero (n : nat) : (0 < n)%nat -> ~ inject_Z (Z.of_nat n) == 0.
Proof.
  intros H E. unfold Qeq in E. cbn [Qnum Qden inject_Z] in E. lia.
Qed.

Lemma inject_nat_pred (n : nat) :
  (0 < n)%nat -> inject_Z (Z.of_nat (n - 1)) == inject_Z (Z.of_nat n) - 1.
Proof.
  intros H. rewrite Nat2Z.inj_sub by lia. unfold Qminus, Qeq.
  cbn [Qnum Qden inject_Z Qplus Qopp]. lia.
Qed.

Lemma var_sample (l : list Q) :
  (2 <= length l)%nat ->
  exists m v, mean l = Some m /\ var l = Some v /\
              m * Qlen l == Qsum l /\
              v * (Qlen l - 1) == ssqdm m l.
Proof.
  intros H. unfold var, Qlen.
  destruct l as [|x l]; [simpl in H; lia|].
  cbn [mean]. destruct (Nat.leb_spec (length (x :: l)) 1); [lia|].
  set (n := length (x :: l)) in *.
  pose proof (@inject_nat_nonzero n ltac:(lia)) as Hn.
  pose proof (@inject_nat_nonzero (n - 1) ltac:(lia)) as Hn'.
  pose proof (@inject_nat_pred n ltac:(lia)) as Hn1.
  do 2 eexists. split; [reflexivity|]. split; [reflexivity|]. unfold Qlen.
  fold n. rewrite <- Hn1.
  generalize dependent (inject_Z (Z.of_nat n)).
  generalize dependent (inject_Z (Z.of_nat (n - 1))).
  intros N1 HN1 N HN _. generalize (Qsum (x :: l)). intros s.
  split.
  - field. exact HN.
  - generalize (ssqdm (s / N) (x :: l)). intros d. field. exact HN1.
Qed.

Lemma quantile_linear (q : Q) (l : list Q) :
  l <> [] -> 0 <= q <= 1 ->
  exists lo gamma,
    (lo <= length l - 1)%nat /\ 0 <= gamma /\ gamma < 1 /\
    inject_Z (Z.of_nat lo) + gamma == inject_Z (Z.of_nat (length l - 1)) * q /\
    quantile q l
    = Some (nth lo (sorted_values l) 0
            + (nth (Nat.min (S lo) (length l - 1)) (sorted_values l) 0
               - nth lo (sorted_values l) 0) * gamma).
Proof.
  intros Hne [Hq0 Hq1]. unfold quantile. rewrite sorted_values_length.
  destruct (length l) as [|n'] eqn:En; [destruct l; [congruence | discriminate]|].
  set (n1 := (S n' - 1)%nat).
  set (h := inject_Z (Z.of_nat n1) * q).
  assert (Hn1 : 0 <= inject_Z (Z.of_nat n1)).
  { change 0 with (inject_Z 0). rewrite <- Zle_Qle. lia. }
  assert (Hh0 : 0 <= h) by (unfold h; nra).
  assert (Hh1 : h <= inject_Z (Z.of_nat n1)) by (unfold h; nra).
  assert (Hf0 : (0 <= Qfloor h)%Z).
  { change 0%Z with (Qfloor (inject_Z 0)). apply Qfloor_resp_le. exact Hh0. }
  assert (Hf1 : (Qfloor h <= Z.of_nat n1)%Z).
  { rewrite <- (Qfloor_Z (Z.of_nat n1)). apply Qfloor_resp_le. exact Hh1. }
  exists (Z.to_nat (Qfloor h)), (h - inject_Z (Qfloor h)).
  pose proof (Qfloor_le h) as Hle. pose proof (Qlt_floor h) as Hlt.
  rewrite inject_Z_plus in Hlt. rewrite Z2Nat.id by exact Hf0.
  split; [lia|]. split; [lra|]. split; [change (inject_Z 1) with 1 in Hlt; lra|].
  split; [unfold h; ring | reflexivity].
Qed.

(** C9: a standard deviation is the root of the sum of the squared
    deviations from the mean over N - 1, and is NaN (no zero, no exception)
    for an empty group and for a group of one; a quantile is interpolated
    linearly between the two order statistics around the position
    [(N - 1) * q].  The per-zone summary, the seasonal statistics, the
    rolling volatility and the overall KPI all use this standard deviation,
    and both 95th percentiles this quantile. *)
Theorem sample_std_linear_quantile
        (l : list Q) (q : Q) (g : string * list LongRecord) (rs : RawSeries)
        (w minp i : nat) (s : list (option Q)) :
  ((length l <= 1)%nat -> std l = None) /\
  ((2 <= length l)%nat ->
   exists m v, mean l = Some m /\ std l = Some (Sqrt v) /\
               m * Qlen l == Qsum l /\
               v * (Qlen l - 1) == Qsum (map (fun x => (x - m) * (x - m)) l)) /\
  (l <> [] -> 0 <= q <= 1 ->
   Permutation l (sorted_values l) /\ StronglySorted Qle (sorted_values l) /\
   exists lo gamma,
     (lo <= length l - 1)%nat /\ 0 <= gamma /\ gamma < 1 /\
     inject_Z (Z.of_nat lo) + gamma == inject_Z (Z.of_nat (length l - 1)) * q /\
     quantile q l
     = Some (nth lo (sorted_values l) 0
             + (nth (Nat.min (S lo) (length l - 1)) (sorted_values l) 0
                - nth lo (sorted_values l) 0) * gamma)) /\
  zs_Stdev (agg_zone g) = std (prices (snd g)) /\
  zs_P95 (agg_zone g) = quantile (95 # 100) (prices (snd g)) /\
  d_std (describe l) = std l /\
  o_Stdev (overall rs) = std (prices (stack rs)) /\
  o_P95 (overall rs) = quantile (95 # 100) (prices (stack rs)) /\
  ((i < length s)%nat ->
   nth_error (rolling w minp std s) i
   = Some (if (length (present (window w i s)) <? minp)%nat then None
           else std (present (window w i s)))).
Proof.
  split; [apply std_single|].
  split.
  { intros H. destruct (var_sample l H) as [m [v [Hm [Hv [H1 H2]]]]].
    exists m, v. unfold std. rewrite Hv. auto. }
  split.
  { intros Hne Hq. destruct (sorted_values_spec l) as [HP HS].
    split; [exact HP|]. split; [exact HS|]. apply quantile_linear; assumption. }
  repeat (split; [reflexivity|]).
  apply rolling_nth.
Qed.

Example std_of_one : std [3] = None.
Proof. reflexivity. Qed.

Example std_of_two : exists v, std [1; 3] = Some (Sqrt v) /\ v == 2.
Proof. eexists. split; [vm_compute; reflexivity | reflexivity]. Qed.

Example p95_of_five : exists x, quantile (95 # 100) [1; 2; 3; 4; 5] = Some x /\ x == 48 # 10.
Proof. eexists. split; [vm_compute; reflexivity | reflexivity]. Qed.

(** ** Correlation *)

Lemma pairwise_complete_swap (xs ys : list (option Q)) :
  pairwise_complete ys xs = map (fun p => (snd p, fst p)) (pairwise_complete xs ys).
Proof.
  unfold pairwise_complete. revert ys.
  induction xs as [|x xs IH]; intros [|y ys]; simpl; try reflexivity.
  rewrite map_app, IH. destruct x, y; reflexivity.
Qed.

Lemma pairwise_complete_diag (xs : list (option Q)) :
  pairwise_complete xs xs = map (fun x => (x, x)) (present xs).
Proof.
  unfold pairwise_complete, present.
  induction xs as [|x xs IH]; simpl; [reflexivity|].
  rewrite map_app, IH. destruct x; reflexivity.
Qed.

Lemma pairwise_complete_idem (ps : list (Q * Q)) :
  pairwise_complete (map Some (map fst ps)) (map Some (map snd ps)) = ps.
Proof.
  unfold pairwise_complete. induction ps as [|[x y] ps IH]; simpl; [reflexivity|].
  rewrite IH. reflexivity.
Qed.

Lemma Qsum_ext {A} (f g : A -> Q) (l : list A) :
  (forall x, f x == g x) -> Qsum (map f l) == Qsum (map g l).
Proof.
  intros H. induction l as [|a l IH]; simpl; [reflexivity|].
  rewrite (H a), IH. reflexivity.
Qed.

Lemma Qsquare_nonneg (a : Q) : 0 <= a * a.
Proof.
  destruct (Qlt_le_dec a 0) as [H | H].
  - setoid_replace (a * a) with ((- a) * (- a)) by ring.
    apply Qmult_le_0_compat; lra.
  - apply Qmult_le_0_compat; assumption.
Qed.

Lemma ssqdm_nonneg (m : Q) (l : list Q) : 0 <= ssqdm m l.
Proof.
  unfold ssqdm. induction l as [|x l IH]; simpl; [lra|].
  pose proof (Qsquare_nonneg (x - m)). lra.
Qed.

Lemma Qsquare_zero (s : Q) : s * s == 0 <-> s == 0.
Proof.
  split; intros H; [|rewrite H; ring].
  destruct (Qmult_integral _ _ H); assumption.
Qed.

Lemma nancorr_symmetric (minp : nat) (xs ys : list (option Q)) :
  same_coefficient (nancorr minp xs ys) (nancorr minp ys xs).
Proof.
  unfold nancorr. rewrite (pairwise_complete_swap xs ys).
  set (ps := pairwise_complete xs ys).
  rewrite length_map, !map_map. cbn [fst snd].
  destruct (length ps <? minp)%nat; [exact I|].
  set (n := inject_Z (Z.of_nat (length ps))).
  set (mx := Qsum (map fst ps) / n). set (my := Qsum (map snd ps) / n).
  change (map (fun x : Q * Q => snd x) ps) with (map snd ps).
  change (map (fun x : Q * Q => fst x) ps) with (map fst ps).
  fold mx my.
  assert (E : ssqdm my (map snd ps) * ssqdm mx (map fst ps)
              == ssqdm mx (map fst ps) * ssqdm my (map snd ps)) by ring.
  destruct (Qeq_bool (ssqdm mx (map fst ps) * ssqdm my (map snd ps)) 0) eqn:B1;
    destruct (Qeq_bool (ssqdm my (map snd ps) * ssqdm mx (map fst ps)) 0) eqn:B2;
    simpl.
  - exact I.
  - apply Qeq_bool_iff in B1. apply Qeq_bool_neq in B2. apply B2. rewrite E. exact B1.
  - apply Qeq_bool_iff in B2. apply Qeq_bool_neq in B1. apply B1. rewrite <- E. exact B2.
  - split; [|symmetry; exact E].
    apply Qsum_ext. intros p. ring.
Qed.

Lemma ssqdm_single (x : Q) : ssqdm (Qsum [x] / Qlen [x]) [x] == 0.
Proof.
  unfold ssqdm, Qlen. simpl. field.
Qed.

Lemma nancorr_diagonal (xs : list (option Q)) :
  match var (present xs) with
  | None => nancorr 1 xs xs = None
  | Some v =>
      (v == 0 -> nancorr 1 xs xs = None) /\
      (~ v == 0 -> exists p, nancorr 1 xs xs = Some p /\ denotes p 1)
  end.
Proof.
  unfold nancorr. rewrite pairwise_complete_diag.
  generalize (present xs). intros l0.
  rewrite length_map, !map_map. cbn [fst snd]. rewrite map_id.
  destruct (Nat.ltb_spec (length l0) 1) as [Hlen | Hlen].
  { destruct l0; [reflexivity | simpl in Hlen; lia]. }
  change (inject_Z (Z.of_nat (length l0))) with (Qlen l0).
  set (m := Qsum l0 / Qlen l0).
  change (Qsum (map (fun x0 : Q => (x0 - m) * (x0 - m)) l0)) with (ssqdm m l0).
  assert (Hmean : mean l0 = Some m) by (destruct l0; [simpl in Hlen; lia | reflexivity]).
  unfold var. rewrite Hmean.
  destruct (Nat.leb_spec (length l0) 1) as [H1 | H1].
  - assert (Hz : ssqdm m l0 == 0).
    { destruct l0 as [|a [|b l1]]; simpl in H1, Hlen; try lia.
      apply ssqdm_single. }
    assert (B : Qeq_bool (ssqdm m l0 * ssqdm m l0) 0 = true).
    { apply Qeq_bool_iff. apply Qsquare_zero. exact Hz. }
    rewrite B. reflexivity.
  - pose proof (@inject_nat_nonzero (length l0 - 1) ltac:(lia)) as Hn.
    assert (Hv : ssqdm m l0 / inject_Z (Z.of_nat (length l0 - 1)) == 0
                 <-> ssqdm m l0 == 0).
    { split; intros E.
      - setoid_replace (ssqdm m l0)
          with (inject_Z (Z.of_nat (length l0 - 1))
                * (ssqdm m l0 / inject_Z (Z.of_nat (length l0 - 1))))
          by (field; exact Hn).
        rewrite E. ring.
      - rewrite E. field. exact Hn. }
    split.
    + intros E. apply Hv in E.
      assert (B : Qeq_bool (ssqdm m l0 * ssqdm m l0) 0 = true).
      { apply Qeq_bool_iff. apply Qsquare_zero. exact E. }
      rewrite B. reflexivity.
    + intros E.
      destruct (Qeq_bool (ssqdm m l0 * ssqdm m l0) 0) eqn:B.
      * exfalso. apply E. apply Hv. apply Qsquare_zero. apply Qeq_bool_iff. exact B.
      * eexists. split; [reflexivity|]. unfold denotes. simpl. split; [ring|].
        pose proof (ssqdm_nonneg m l0). lra.
Qed.

Lemma corr_at_entry (rs : RawSeries) (i j : nat) :
  (i < length (zone_cols rs))%nat -> (j < length (zone_cols rs))%nat ->
  corr_at rs i j = Some (nancorr 1 (column i rs) (column j rs)).
Proof.
  intros Hi Hj. unfold corr_at, corr.
  rewrite nth_error_map, nth_error_seq.
  destruct (Nat.ltb_spec i (length (zone_cols rs))); [|lia]. simpl.
  rewrite nth_error_map, nth_error_seq.
  destruct (Nat.ltb_spec j (length (zone_cols rs))); [|lia]. reflexivity.
Qed.

Lemma same_coefficient_denotes (p q : Pearson) (r : Q) :
  same_coefficient (Some p) (Some q) -> (denotes p r <-> denotes q r).
Proof.
  unfold same_coefficient, denotes. intros [Hc Hs].
  rewrite <- !Qmult_assoc, Hs, Hc. reflexivity.
Qed.



Example corr_constant_zone :
  corr_at {| zone_cols := ["A"]%string;
             rows := [ {| index := ts 2021 1 1 0; values := [Some 10] |};
                       {| index := ts 2021 1 1 1; values := [Some 10] |} ] |} 0 0
  = Some None.
Proof. vm_compute. reflexivity. Qed.

(** ** Seasons *)

Lemma month_cases (m : Z) :
  (1 <= m <= 12)%Z ->
  (m = 1 \/ m = 2 \/ m = 3 \/ m = 4 \/ m = 5 \/ m = 6 \/
   m = 7 \/ m = 8 \/ m = 9 \/ m = 10 \/ m = 11 \/ m = 12)%Z.
Proof. lia. Qed.

Lemma season_of_month_total (m : Z) :
  (1 <= m <= 12)%Z -> exists s, season_of_month m = Ok s /\ In s season_order.
Proof.
  intros H. apply month_cases in H.
  repeat (destruct H as [-> | H]); try subst m;
    (eexists; split; [reflexivity | simpl; tauto]).
Qed.

Lemma with_season_spec (stacked : list LongRecord) :
  Forall (fun r => valid_ts (Date r)) stacked ->
  exists tagged,
    with_season stacked = Ok tagged /\ map snd tagged = stacked /\
    Forall (fun sr => season_of_month (month (Date (snd sr))) = Ok (fst sr)) tagged.
Proof.
  unfold with_season.
  induction 1 as [|r l Hr Hl [tagged [IH1 [IH2 IH3]]]]; simpl.
  - exists []. repeat split; constructor.
  - destruct Hr as [Hm _]. destruct (season_of_month_total Hm) as [s [Hs _]].
    rewrite Hs. simpl. rewrite IH1. simpl.
    exists ((s, r) :: tagged). simpl. rewrite IH2.
    repeat split. constructor; [exact Hs | exact IH3].
Qed.

Lemma tagged_filter (s : string) (tagged : list (string * LongRecord)) :
  Forall (fun sr => season_of_month (month (Date (snd sr))) = Ok (fst sr)) tagged ->
  map (fun sr => Price (snd sr))
      (filter (fun sr => key_eqb str_ltb (fst sr) s) tagged)
  = prices (in_season s (map snd tagged)).
Proof.
  unfold prices, in_season.
  induction 1 as [|sr l Hsr Hl IH]; simpl; [reflexivity|].
  rewrite Hsr, key_eqb_str.
  destruct (String.eqb (fst sr) s); simpl; rewrite IH; reflexivity.
Qed.

Lemma find_keyed {V} (G : string -> V) (ks : list string) (l : string) :
  find (fun kv => String.eqb (fst kv) l) (map (fun k => (k, G k)) ks)
  = if existsb (fun k => String.eqb k l) ks then Some (l, G l) else None.
Proof.
  induction ks as [|k ks IH]; simpl; [reflexivity|].
  destruct (String.eqb_spec k l) as [-> | Hne]; simpl; [reflexivity | exact IH].
Qed.

Lemma mean_sum (l : list Q) (m : Q) : mean l = Some m -> m * Qlen l == Qsum l.
Proof.
  destruct l as [|x l]; [discriminate|]. unfold mean. intros H. injection H as <-.
  change (Qsum (x :: l) / Qlen (x :: l) * Qlen (x :: l) == Qsum (x :: l)).
  assert (Hn : ~ Qlen (x :: l) == 0) by (apply inject_nat_nonzero; simpl; lia).
  generalize dependent (Qlen (x :: l)). generalize (Qsum (x :: l)).
  intros sm n Hn. field. exact Hn.
Qed.

(** What [describe] holds for the prices of a season. *)
Lemma season_row_intro (s : string) (stacked : list LongRecord) (d : Describe) :
  (in_season s stacked = [] -> d = nan_row) ->
  (in_season s stacked <> [] -> d = describe (prices (in_season s stacked))) ->
  season_row s stacked d.
Proof.
  intros Hnil Hsome. unfold season_row. cbv zeta.
  set (P := prices (in_season s stacked)).
  assert (HS : P = [] <-> in_season s stacked = []).
  { unfold P, prices. split; [apply map_eq_nil | intros ->; reflexivity]. }
  split.
  - intros E. apply HS in E. rewrite (Hnil E). repeat split.
  - intros Hne. assert (Hne' : in_season s stacked <> []) by (intros E; apply Hne, HS, E).
    rewrite (Hsome Hne'). fold P. unfold describe. cbn [d_mean d_median d_std d_min d_max].
    assert (Hlen : (0 < length P)%nat) by (destruct P; [congruence | simpl; lia]).
    split; [|split; [|split; [|split; [|split]]]].
    + destruct (mean_nonempty Hne) as [m Hm]. exists m. split; [exact Hm|].
      apply mean_sum. exact Hm.
    + destruct (sorted_values_spec P) as [HP Hsorted].
      exists (if Nat.even (length P)
              then (nth (length P / 2 - 1) (sorted_values P) 0
                    + nth (length P / 2) (sorted_values P) 0) / 2
              else nth (length P / 2) (sorted_values P) 0), (sorted_values P).
      split; [|split; [exact HP | split; [exact Hsorted | reflexivity]]].
      unfold median. rewrite sorted_values_length.
      destruct (length P) as [|n] eqn:En; [lia|].
      destruct (Nat.even (S n)); reflexivity.
    + intros H1. apply std_single. lia.
    + intros H2. destruct (@var_sample P H2) as [m [v [Hm [Hv [E1 E2]]]]].
      exists m, v. unfold std. rewrite Hv. split; [reflexivity|].
      split; [exact E1 | exact E2].
    + pose proof (Qmin_list_spec P) as H. destruct (Qmin_list P) as [mn|]; [|contradiction].
      exists mn. split; [reflexivity | exact H].
    + pose proof (Qmax_list_spec P) as H. destruct (Qmax_list P) as [mx|]; [|contradiction].
      exists mx. split; [reflexivity | exact H].
Qed.

Lemma seasonal_entry (s : string) (tagged : list (string * LongRecord)) :
  Forall (fun sr => season_of_month (month (Date (snd sr))) = Ok (fst sr)) tagged ->
  season_row s (map snd tagged)
             (let G k := describe (map (fun sr => Price (snd sr))
                                       (filter (fun sr => key_eqb str_ltb (fst sr) k) tagged)) in
              if existsb (fun k => String.eqb k s) (group_keys fst str_ltb tagged)
              then G s else nan_row).
Proof.
  intros Hinv. cbv beta zeta. rewrite (tagged_filter s Hinv).
  assert (Hex : existsb (fun k => String.eqb k s) (group_keys fst str_ltb tagged) = true
                <-> in_season s (map snd tagged) <> []).
  { rewrite existsb_exists. split.
    - intros [k [Hk E]]. apply String.eqb_eq in E. subst k.
      apply (group_keys_In fst StrictTotal_str_ltb) in Hk.
      destruct Hk as [sr [Hin Hfst]]. intros Hnil.
      assert (Hmem : In (snd sr) (in_season s (map snd tagged))).
      { unfold in_season. apply filter_In. split; [apply in_map; exact Hin|].
        rewrite Forall_forall in Hinv. rewrite (Hinv sr Hin), Hfst.
        apply String.eqb_refl. }
      rewrite Hnil in Hmem. exact Hmem.
    - intros Hne. destruct (in_season s (map snd tagged)) as [|r l] eqn:E; [congruence|].
      assert (Hmem : In r (in_season s (map snd tagged))) by (rewrite E; simpl; auto).
      unfold in_season in Hmem. apply filter_In in Hmem. destruct Hmem as [Hin Hs].
      apply in_map_iff in Hin. destruct Hin as [sr [<- Hin]].
      rewrite Forall_forall in Hinv. rewrite (Hinv sr Hin) in Hs.
      exists (fst sr). split; [|exact Hs].
      apply (group_keys_In fst StrictTotal_str_ltb). eauto. }
  apply season_row_intro;
    destruct (existsb (fun k => String.eqb k s) (group_keys fst str_ltb tagged)).
  - intros Hnil. exfalso. apply (proj1 Hex eq_refl). exact Hnil.
  - reflexivity.
  - reflexivity.
  - intros Hne. apply Hex in Hne. discriminate.
Qed.

Lemma reindex_found {V} (b : bool) (l : string) (x d : V) :
  match (if b then Some (l, x) else None) with
  | Some kv => (l, snd kv)
  | None => (l, d)
  end = (l, if b then x else d).
Proof. destruct b; reflexivity. Qed.

Lemma seasonal_spec (stacked : list LongRecord) :
  Forall (fun r => valid_ts (Date r)) stacked ->
  exists winter spring summer autumn,
    seasonal stacked
    = Ok [("Winter", winter); ("Spring", spring);
          ("Summer", summer); ("Autumn", autumn)]%string /\
    season_row "Winter" stacked winter /\ season_row "Spring" stacked spring /\
    season_row "Summer" stacked summer /\ season_row "Autumn" stacked autumn.
Proof.
  intros Hv. destruct (with_season_spec Hv) as [tagged [H1 [H2 H3]]].
  unfold seasonal. rewrite H1. cbn [bind].
  unfold groupby. rewrite map_map. cbn [fst snd].
  unfold reindex, season_order. cbn [map].
  rewrite !(find_keyed
              (fun k => describe (map (fun sr => Price (snd sr))
                                      (filter (fun r => key_eqb str_ltb (fst r) k) tagged)))).
  rewrite <- H2.
  pose proof (seasonal_entry "Winter" H3) as Hw.
  pose proof (seasonal_entry "Spring" H3) as Hs.
  pose proof (seasonal_entry "Summer" H3) as Hu.
  pose proof (seasonal_entry "Autumn" H3) as Ha.
  cbv beta zeta in Hw, Hs, Hu, Ha.
  rewrite !reindex_found.
  do 4 eexists. split; [reflexivity|].
  split; [exact Hw | split; [exact Hs | split; [exact Hu | exact Ha]]].
Qed.

Lemma in_season_partition (stacked : list LongRecord) :
  Forall (fun r => valid_ts (Date r)) stacked ->
  (length (in_season "Winter" stacked) + length (in_season "Spring" stacked)
   + length (in_season "Summer" stacked) + length (in_season "Autumn" stacked))%nat
  = length stacked.
Proof.
  unfold in_season.
  induction 1 as [|r l [Hm _] Hl IH]; [reflexivity|].
  cbn [filter]. apply month_cases in Hm.
  repeat (destruct Hm as [Hm | Hm]); rewrite Hm; simpl; lia.
Qed.

Lemma in_season_months (s : string) (months : list Z) (stacked : list LongRecord) :
  (forall m, match season_of_month m with
             | Ok s' => String.eqb s' s
             | Raise _ => false
             end = existsb (fun k => (k =? m)%Z) months) ->
  in_season s stacked
  = filter (fun r => existsb (fun k => (k =? month (Date r))%Z) months) stacked.
Proof.
  intros H. unfold in_season. apply filter_ext. intros r. apply H.
Qed.

Ltac month_by_month m :=
  unfold season_of_month, season_table; cbn [find fst snd existsb];
  repeat match goal with
         | |- context [(?k =? m)%Z] => destruct (Z.eqb_spec k m) as [<- | ?]
         end; reflexivity.

(** C7: the months map to the seasons as fixed (Winter = Dec/Jan/Feb, Spring
    = Mar/Apr/May, Summer = Jun/Jul/Aug, Autumn = Sep/Oct/Nov): the records
    of a season are those whose month is one of its three, so every record
    falls into exactly one season.  The result has the four seasons in that
    order, and the row of a season holds the mean, the median, the sample
    standard deviation, the minimum and the maximum of its records' prices,
    each pinned by what it is; a season without a record is reported with
    NaN for all five, never with a zero. *)
Theorem seasonal_by_fixed_mapping (stacked : list LongRecord) :
  Forall (fun r => valid_ts (Date r)) stacked ->
  (forall m, In m [12; 1; 2]%Z -> season_of_month m = Ok "Winter"%string) /\
  (forall m, In m [3; 4; 5]%Z -> season_of_month m = Ok "Spring"%string) /\
  (forall m, In m [6; 7; 8]%Z -> season_of_month m = Ok "Summer"%string) /\
  (forall m, In m [9; 10; 11]%Z -> season_of_month m = Ok "Autumn"%string) /\
  in_season "Winter" stacked
  = filter (fun r => existsb (fun k => (k =? month (Date r))%Z) [12; 1; 2]%Z) stacked /\
  in_season "Spring" stacked
  = filter (fun r => existsb (fun k => (k =? month (Date r))%Z) [3; 4; 5]%Z) stacked /\
  in_season "Summer" stacked
  = filter (fun r => existsb (fun k => (k =? month (Date r))%Z) [6; 7; 8]%Z) stacked /\
  in_season "Autumn" stacked
  = filter (fun r => existsb (fun k => (k =? month (Date r))%Z) [9; 10; 11]%Z) stacked /\
  (length (in_season "Winter" stacked) + length (in_season "Spring" stacked)
   + length (in_season "Summer" stacked) + length (in_season "Autumn" stacked))%nat
  = length stacked /\
  exists winter spring summer autumn,
    seasonal stacked
    = Ok [("Winter", winter); ("Spring", spring);
          ("Summer", summer); ("Autumn", autumn)]%string /\
    season_row "Winter" stacked winter /\ season_row "Spring" stacked spring /\
    season_row "Summer" stacked summer /\ season_row "Autumn" stacked autumn.
Proof.
  intros Hv.
  repeat (split; [intros m Hm; simpl in Hm;
                  repeat (destruct Hm as [<- | Hm]); try reflexivity; destruct Hm|]).
  split; [apply in_season_months; intros m; month_by_month m|].
  split; [apply in_season_months; intros m; month_by_month m|].
  split; [apply in_season_months; intros m; month_by_month m|].
  split; [apply in_season_months; intros m; month_by_month m|].
  split; [apply in_season_partition; exact Hv|].
  apply seasonal_spec. exact Hv.
Qed.

Lemma seasonal_by_fixed_mapping_witness :
  Forall (fun r => valid_ts (Date r)) three_records /\
  in_season "Winter" three_records = three_records /\
  exists winter spring summer autumn,
    seasonal three_records
    = Ok [("Winter", winter); ("Spring", spring);
          ("Summer", summer); ("Autumn", autumn)]%string /\
    season_row "Winter" three_records winter /\ season_row "Spring" three_records spring /\
    season_row "Summer" three_records summer /\ season_row "Autumn" three_records autumn.
Proof.
  assert (Hv : Forall (fun r => valid_ts (Date r)) three_records)
    by (repeat constructor; simpl; lia).
  destruct (seasonal_by_fixed_mapping Hv) as [_ [_ [_ [_ [Hw [_ [_ [_ [_ Hrows]]]]]]]]].
  split; [exact Hv|]. split; [rewrite Hw; reflexivity | exact Hrows].
Defined.

Example seasonal_january_only :
  exists winter,
    seasonal three_records
    = Ok [("Winter", winter); ("Spring", nan_row);
          ("Summer", nan_row); ("Autumn", nan_row)]%string.
Proof. eexists. vm_compute. reflexivity. Qed.

(** ** The loader *)

Lemma has_Date (cols : list string) : existsb is_Date cols = true <-> In "Date"%string cols.
Proof.
  rewrite existsb_exists. unfold is_Date. split.
  - intros [c [Hc E]]. apply String.eqb_eq in E. subst. exact Hc.
  - intros H. exists "Date"%string. split; [exact H | apply String.eqb_refl].
Qed.

Lemma mapM_Ok {A B} (f : A -> Result B) (l : list A) (bs : list B) :
  mapM f l = Ok bs -> Forall2 (fun a b => f a = Ok b) l bs.
Proof.
  revert bs. induction l as [|a l IH]; simpl; intros bs H.
  - inversion H. constructor.
  - destruct (f a) as [b|e] eqn:Ea; simpl in H; [|discriminate].
    destruct (mapM f l) as [bs'|e]; simpl in H; [|discriminate].
    inversion H; subst. constructor; auto.
Qed.

Lemma mapM_Raise {A B} (f : A -> Result B) (l : list A) (e : Error) :
  mapM f l = Raise e -> exists a, In a l /\ f a = Raise e.
Proof.
  induction l as [|a l IH]; simpl; intros H; [discriminate|].
  destruct (f a) as [b|e'] eqn:Ea; simpl in H.
  - destruct (mapM f l) as [bs'|e'']; simpl in H; [discriminate|].
    inversion H; subst. destruct (IH eq_refl) as [a' [H1 H2]]. eauto.
  - inversion H; subst. eauto.
Qed.

Lemma mapM_total {A B} (f : A -> Result B) (l : list A) :
  (forall a, In a l -> exists b, f a = Ok b) -> exists bs, mapM f l = Ok bs.
Proof.
  induction l as [|a l IH]; intros H; simpl; [eexists; reflexivity|].
  destruct (H a (or_introl eq_refl)) as [b Hb]. rewrite Hb. simpl.
  destruct IH as [bs Hbs]; [intros; apply H; right; assumption|].
  rewrite Hbs. simpl. eexists; reflexivity.
Qed.

(** A pairing of two lists follows a rearrangement of the second. *)
Lemma Forall2_Permutation {A B} (R : A -> B -> Prop) (l : list A) (k k' : list B) :
  Permutation k k' -> Forall2 R l k ->
  exists l', Permutation l l' /\ Forall2 R l' k'.
Proof.
  intros HP. revert l.
  induction HP as [|b k k' HP IH|b b' k|k k' k'' HP1 IH1 HP2 IH2]; intros l H.
  - exists l. split; [reflexivity | exact H].
  - inversion H as [|a ? l0 ? Hab Hl]; subst.
    destruct (IH l0 Hl) as [l' [Hp Hf]].
    exists (a :: l'). split; [constructor; exact Hp | constructor; assumption].
  - inversion H as [|a ? l0 ? Hab Hl]; subst.
    inversion Hl as [|a' ? l1 ? Hab' Hl']; subst.
    exists (a' :: a :: l1). split; [apply perm_swap|].
    constructor; [exact Hab' | constructor; assumption].
  - destruct (IH1 l H) as [l' [Hp Hf]]. destruct (IH2 l' Hf) as [l'' [Hp' Hf']].
    exists l''. split; [etransitivity; eassumption | exact Hf'].
Qed.

Lemma combine_map_combine {A B C} (g : A * B -> C) (cols : list A) (row : list B) :
  combine cols (map g (combine cols row))
  = map (fun cv => (fst cv, g cv)) (combine cols row).
Proof.
  revert row. induction cols as [|c cols IH]; intros [|v row]; simpl; try reflexivity.
  rewrite IH. reflexivity.
Qed.

Lemma find_map_snd {A B C} (p : A -> bool) (g : A * B -> C) (L : list (A * B)) :
  find (fun cv => p (fst cv)) (map (fun cv => (fst cv, g cv)) L)
  = option_map (fun cv => (fst cv, g cv)) (find (fun cv => p (fst cv)) L).
Proof.
  induction L as [|cv L IH]; simpl; [reflexivity|].
  destruct (p (fst cv)); [reflexivity | exact IH].
Qed.

(** Rewriting the date cells leaves the other cells as they are. *)
Lemma zone_cells_kept (c : Cell) (cols : list string) (row : list Cell) :
  zone_cells cols (map (fun cv => if is_Date (fst cv) then c else snd cv)
                       (combine cols row))
  = zone_cells cols row.
Proof.
  unfold zone_cells. rewrite combine_map_combine.
  induction (combine cols row) as [|cv L IH]; simpl; [reflexivity|].
  destruct (is_Date (fst cv)) eqn:E; simpl; [exact IH|]. rewrite IH. reflexivity.
Qed.

Lemma dated_undated_perm {R} (keyed : list (option Timestamp * R)) :
  Permutation (map snd keyed)
              (map snd (flat_map (fun kr => match fst kr with
                                            | Some t => [(t, snd kr)]
                                            | None => []
                                            end) keyed)
               ++ map snd (filter (fun kr => is_nan (fst kr)) keyed)).
Proof.
  induction keyed as [|[[t|] r] l IH]; simpl; [constructor | |].
  - constructor. exact IH.
  - apply Permutation_cons_app. exact IH.
Qed.

Section LoaderFacts.
Variable kind : Sorter.
Variable to_datetime : Cell -> option (option Timestamp).

Lemma parse_row_Raise cols row e :
  parse_row to_datetime cols row = Raise e -> e = ParseError.
Proof.
  unfold parse_row. destruct (date_cell cols row) as [c|]; [|congruence].
  destruct (to_datetime c); congruence.
Qed.

Lemma parse_row_read cols row :
  (exists kr, parse_row to_datetime cols row = Ok kr) <-> date_read to_datetime cols row.
Proof.
  unfold parse_row, date_read. destruct (date_cell cols row) as [c|].
  - destruct (to_datetime c) as [d|] eqn:Ed.
    + split; [intros _; eauto | intros _; eexists; reflexivity].
    + split; [intros [kr H]; discriminate|].
      intros [c' [d [Hc Hd]]]. congruence.
  - split; [intros [kr H]; discriminate | intros [c [d [Hc _]]]; discriminate].
Qed.

(** What a parsed row holds: the date that was read under "Date", and the
    other cells as they were. *)
Lemma parse_row_spec cols row d row' :
  parse_row to_datetime cols row = Ok (d, row') ->
  (exists c, date_cell cols row = Some c /\ to_datetime c = Some d) /\
  loaded_date cols row' = Some d /\
  zone_cells cols row' = zone_cells cols row.
Proof.
  unfold parse_row. destruct (date_cell cols row) as [c|] eqn:Ec; [|discriminate].
  destruct (to_datetime c) as [d'|] eqn:Et; [|discriminate].
  intros H. injection H as -> <-. split; [eauto|]. split; [|apply zone_cells_kept].
  unfold loaded_date, date_cell in *.
  rewrite combine_map_combine, (find_map_snd is_Date).
  destruct (find (fun cv => is_Date (fst cv)) (combine cols row)) as [cv|] eqn:Ef;
    [|discriminate].
  simpl. apply find_some in Ef. destruct Ef as [_ Ed]. rewrite Ed.
  destruct d; reflexivity.
Qed.

Lemma StrictWeak_by_date : StrictWeak by_date.
Proof. exact (StrictWeak_key fst StrictWeak_ts_ltb). Qed.

Lemma load_data_schema (sheet : DataFrame) :
  load_data kind to_datetime sheet = Raise SchemaError
  <-> ~ In "Date"%string (columns sheet).
Proof.
  unfold load_data. rewrite <- has_Date.
  destruct (existsb is_Date (columns sheet)); simpl.
  - split; [|congruence].
    destruct (mapM (parse_row to_datetime (columns sheet)) (data sheet)) as [k|e] eqn:E;
      simpl; [discriminate|].
    intros H. inversion H; subst.
    apply mapM_Raise in E. destruct E as [row [_ Hr]].
    apply parse_row_Raise in Hr. discriminate.
  - split; [congruence | reflexivity].
Qed.

Lemma load_data_keyed (sheet : DataFrame) :
  In "Date"%string (columns sheet) ->
  (Forall (date_read to_datetime (columns sheet)) (data sheet) ->
   exists keyed,
     mapM (parse_row to_datetime (columns sheet)) (data sheet) = Ok keyed /\
     load_data kind to_datetime sheet
     = Ok {| columns := columns sheet;
             data := map snd (sort_values kind by_date true (dated keyed))
                     ++ undated keyed |}) /\
  (~ Forall (date_read to_datetime (columns sheet)) (data sheet) ->
   load_data kind to_datetime sheet = Raise ParseError).
Proof.
  intros Hin. apply has_Date in Hin. unfold load_data. rewrite Hin. cbn [negb]. split.
  - intros Hread. rewrite Forall_forall in Hread.
    destruct (@mapM_total _ _ (parse_row to_datetime (columns sheet)) (data sheet))
      as [keyed Hk].
    { intros row Hrow. apply parse_row_read. apply Hread. exact Hrow. }
    exists keyed. rewrite Hk. split; reflexivity.
  - intros Hbad.
    destruct (mapM (parse_row to_datetime (columns sheet)) (data sheet)) as [keyed|e] eqn:Ek.
    + exfalso. apply Hbad. apply Forall_forall. intros row Hrow.
      apply parse_row_read. apply mapM_Ok in Ek.
      clear - Ek Hrow. induction Ek as [|a b l l' Hab _ IH]; [destruct Hrow|].
      destruct Hrow as [<- | Hrow]; eauto.
    + simpl. apply mapM_Raise in Ek. destruct Ek as [row [_ Hr]].
      apply parse_row_Raise in Hr. subst e. reflexivity.
Qed.

Lemma dated_rows cols (keyed : list (option Timestamp * list Cell)) :
  Forall (fun kr => loaded_date cols (snd kr) = Some (fst kr)) keyed ->
  Forall (fun tr => loaded_date cols (snd tr) = Some (Some (fst tr))) (dated keyed) /\
  map (loaded_date cols) (undated keyed) = repeat (Some None) (length (undated keyed)).
Proof.
  unfold dated, undated.
  induction 1 as [|[[t|] r] l Hkr _ [IH1 IH2]]; simpl in *.
  - split; [constructor | reflexivity].
  - split; [constructor; assumption | exact IH2].
  - split; [exact IH1|]. rewrite Hkr, IH2. reflexivity.
Qed.

Lemma load_data_sorted (sheet : DataFrame) df :
  sort_contract kind ->
  In "Date"%string (columns sheet) ->
  load_data kind to_datetime sheet = Ok df ->
  columns df = columns sheet /\
  (exists source,
      Permutation (data sheet) source /\
      Forall2 (fun row row' =>
                 (exists c, date_cell (columns sheet) row = Some c /\
                            to_datetime c = loaded_date (columns sheet) row') /\
                 zone_cells (columns sheet) row' = zone_cells (columns sheet) row)
              source (data df)) /\
  exists dates n,
    map (loaded_date (columns sheet)) (data df)
    = map (fun t => Some (Some t)) dates ++ repeat (Some None) n /\
    ascending_by ts_ltb dates.
Proof.
  intros C Hin Hload.
  destruct (load_data_keyed sheet Hin) as [Hgood Hbad].
  assert (Hread : Forall (date_read to_datetime (columns sheet)) (data sheet)).
  { apply Forall_forall. intros row Hrow.
    destruct (Forall_dec (date_read to_datetime (columns sheet))
                         (fun r => ltac:(unfold date_read;
                                         destruct (date_cell (columns sheet) r) as [c|];
                                         [destruct (to_datetime c) as [d|] eqn:E;
                                          [left; eauto
                                          | right; intros [c' [d [Hc Hd]]]; congruence]
                                         | right; intros [c [d [Hc _]]]; discriminate]))
                         (data sheet)) as [HF | HF].
    - rewrite Forall_forall in HF. apply HF. exact Hrow.
    - rewrite (Hbad HF) in Hload. discriminate. }
  destruct (Hgood Hread) as [keyed [Hk E]]. rewrite E in Hload.
  injection Hload as <-. cbn [columns data]. split; [reflexivity|].
  apply mapM_Ok in Hk.
  assert (Hspec : Forall2 (fun row kr =>
                             (exists c, date_cell (columns sheet) row = Some c /\
                                        to_datetime c = loaded_date (columns sheet) (snd kr)) /\
                             zone_cells (columns sheet) (snd kr)
                             = zone_cells (columns sheet) row)
                          (data sheet) keyed).
  { eapply Forall2_impl; [|exact Hk]. intros row [d row'] Hp.
    destruct (parse_row_spec _ _ Hp) as [[c [Hc Hd]] [Hl Hz]]. cbn [snd].
    rewrite Hl. split; [eauto | exact Hz]. }
  assert (Hkeys : Forall (fun kr => loaded_date (columns sheet) (snd kr) = Some (fst kr)) keyed).
  { clear - Hk. induction Hk as [|row [d row'] l l' Hp _ IH]; constructor; [|exact IH].
    exact (proj1 (proj2 (parse_row_spec _ _ Hp))). }
  destruct (@dated_rows (columns sheet) keyed Hkeys) as [Hdated Hundated].
  set (SK := sort_values kind by_date true (dated keyed)).
  assert (HP : Permutation (dated keyed) SK) by (apply sort_values_perm; exact C).
  split.
  - apply Forall2_Permutation with (k := map snd keyed).
    + etransitivity; [apply dated_undated_perm|].
      apply Permutation_app_tail, Permutation_map. exact HP.
    + clear - Hspec. induction Hspec; simpl; constructor; assumption.
  - exists (map fst SK), (length (undated keyed)).
    rewrite map_app, Hundated. split.
    + f_equal. rewrite !map_map.
      apply map_ext_in. intros tr Htr.
      apply (Permutation_in _ (Permutation_sym HP)) in Htr.
      rewrite Forall_forall in Hdated. apply Hdated. exact Htr.
    + unfold ascending_by. apply StronglySorted_map.
      apply (sort_values_ascending C StrictWeak_by_date).
Qed.

End LoaderFacts.

(** C8: the loader raises its schema error exactly when no column is named
    "Date", and then the run ends with that error whatever would have been
    built from the frame, so no aggregation is executed.  With the column
    there the load returns exactly when every date cell is read, and raises
    the parse error otherwise.  The frame it returns has the same columns
    and all the rows of the sheet: each holds under "Date" what was read from
    its cell, a date or NaT, and its other cells unchanged; the rows that
    have a date stand first, in ascending order of their dates, the rows
    whose date is NaT last; and the run goes on with that frame. *)
Theorem load_data_contract (kind : Sorter) (to_datetime : Cell -> option (option Timestamp))
        (sheet : DataFrame) :
  sort_contract kind ->
  (load_data kind to_datetime sheet = Raise SchemaError
   <-> ~ In "Date"%string (columns sheet)) /\
  (~ In "Date"%string (columns sheet) ->
   forall B (build : DataFrame -> Result B),
     run kind to_datetime build sheet = Raise SchemaError) /\
  (In "Date"%string (columns sheet) ->
   ((exists df, load_data kind to_datetime sheet = Ok df)
    <-> Forall (date_read to_datetime (columns sheet)) (data sheet)) /\
   (~ Forall (date_read to_datetime (columns sheet)) (data sheet) ->
    load_data kind to_datetime sheet = Raise ParseError /\
    forall B (build : DataFrame -> Result B),
      run kind to_datetime build sheet = Raise ParseError) /\
   forall df,
     load_data kind to_datetime sheet = Ok df ->
     columns df = columns sheet /\
     (exists source,
         Permutation (data sheet) source /\
         Forall2 (fun row row' =>
                    (exists c, date_cell (columns sheet) row = Some c /\
                               to_datetime c = loaded_date (columns sheet) row') /\
                    zone_cells (columns sheet) row' = zone_cells (columns sheet) row)
                 source (data df)) /\
     (exists dates n,
         map (loaded_date (columns sheet)) (data df)
         = map (fun t => Some (Some t)) dates ++ repeat (Some None) n /\
         ascending_by ts_ltb dates) /\
     forall B (build : DataFrame -> Result B),
       run kind to_datetime build sheet = build df).
Proof.
  intros C. split; [apply load_data_schema|]. split.
  - intros Hno B build. apply (load_data_schema kind to_datetime) in Hno.
    unfold run. rewrite Hno. reflexivity.
  - intros Hin. destruct (load_data_keyed kind to_datetime sheet Hin) as [Hgood Hbad].
    assert (Hiff : (exists df, load_data kind to_datetime sheet = Ok df)
                   <-> Forall (date_read to_datetime (columns sheet)) (data sheet)).
    { split.
      - intros [df Hdf]. apply Forall_forall. intros row Hrow.
        unfold load_data in Hdf. rewrite (proj2 (has_Date _) Hin) in Hdf. cbn [negb] in Hdf.
        destruct (mapM (parse_row to_datetime (columns sheet)) (data sheet))
          as [keyed|e] eqn:Ek; [|discriminate].
        apply parse_row_read. apply mapM_Ok in Ek.
        clear - Ek Hrow. induction Ek as [|a b l l' Hab _ IH]; [destruct Hrow|].
        destruct Hrow as [<- | Hrow]; eauto.
      - intros Hread. destruct (Hgood Hread) as [keyed [_ E]]. eauto. }
    split; [exact Hiff|]. split.
    + intros Hnot. split; [apply Hbad; exact Hnot|].
      intros B build. unfold run. rewrite (Hbad Hnot). reflexivity.
    + intros df Hdf.
      destruct (load_data_sorted to_datetime sheet C Hin Hdf) as [H1 [H2 H3]].
      split; [exact H1|]. split; [exact H2|]. split; [exact H3|].
      intros B build. unfold run. rewrite Hdf. reflexivity.
Qed.

Lemma load_data_contract_witness :
  sort_contract insertion_sort /\
  In "Date"%string (columns sheet_empty_date) /\ ~ In "Date"%string (columns sheet_no_date) /\
  load_data insertion_sort stamps_only sheet_no_date = Raise SchemaError /\
  Forall (date_read stamps_only (columns sheet_empty_date)) (data sheet_empty_date) /\
  exists df dates n,
    load_data insertion_sort stamps_only sheet_empty_date = Ok df /\
    columns df = columns sheet_empty_date /\
    map (loaded_date (columns sheet_empty_date)) (data df)
    = map (fun t => Some (Some t)) dates ++ repeat (Some None) n /\
    ascending_by ts_ltb dates.
Proof.
  assert (Hin : In "Date"%string (columns sheet_empty_date)) by (simpl; tauto).
  assert (Hno : ~ In "Date"%string (columns sheet_no_date))
    by (simpl; intros [H | [H | []]]; discriminate H).
  assert (Hread : Forall (date_read stamps_only (columns sheet_empty_date))
                         (data sheet_empty_date))
    by (repeat constructor; do 2 eexists; split; reflexivity).
  split; [exact insertion_sort_contract|]. split; [exact Hin|]. split; [exact Hno|].
  destruct (load_data_contract stamps_only sheet_no_date insertion_sort_contract)
    as [Hs _].
  split; [apply Hs; exact Hno|]. split; [exact Hread|].
  destruct (load_data_contract stamps_only sheet_empty_date insertion_sort_contract)
    as [_ [_ Hload]].
  destruct (Hload Hin) as [Hiff [_ Hdf]].
  destruct (proj2 Hiff Hread) as [df Hok].
  destruct (Hdf df Hok) as [H1 [_ [[dates [n [H3 H4]]] _]]].
  exists df, dates, n. auto.
Defined.

(** The rows come back by date, the row without a date last. *)
Example load_data_sorts :
  load_data np_quicksort stamps_only sheet_empty_date
  = Ok {| columns := ["A"; "Date"]%string;
          data := [ [NaN; Stamp (ts 2021 1 1 0)]; [Num 2; Stamp (ts 2021 1 2 0)];
                    [Num 1; NaT] ] |}.
Proof. vm_compute. reflexivity. Qed.

(** A date cell that is not read ends the load with the parse error. *)
Example load_data_unread_date :
  load_data np_quicksort stamps_only
            {| columns := ["A"; "Date"]%string; data := [ [Num 1; Text "soon"] ] |}
  = Raise ParseError.
Proof. vm_compute. reflexivity. Qed.

(** ** What the long form leaves out *)

Lemma cell_records_zone d zones vs rec :
  In rec (cell_records d zones vs) -> In (Zone rec) zones.
Proof.
  intros H. apply cell_records_In in H. destruct H as [j [p [H _]]].
  eapply nth_error_In. exact H.
Qed.

Lemma cell_records_of_zone d zones vs j z :
  NoDup zones -> length zones = length vs -> nth_error zones j = Some z ->
  prices (of_zone z (cell_records d zones vs)) = present [nth j vs None].
Proof.
  unfold of_zone, prices. revert vs j.
  induction zones as [|z0 zones IH]; intros vs j Hnd Hlen Hj;
    [destruct j; discriminate|].
  destruct vs as [|v vs]; [discriminate|].
  inversion Hnd as [|? ? Hnotin Hnd']; subst. injection Hlen as Hlen.
  unfold cell_records in *. cbn [combine flat_map fst snd].
  rewrite filter_app, map_app.
  destruct j as [|j]; simpl in Hj.
  - inversion Hj; subst z0.
    rewrite (filter_none (fun r => String.eqb (Zone r) z)
                         (flat_map _ (combine zones vs))).
    + rewrite app_nil_r. destruct v; simpl; [rewrite String.eqb_refl|]; reflexivity.
    + intros rec Hrec. apply String.eqb_neq. intros E. apply Hnotin.
      rewrite <- E. apply (cell_records_zone d zones vs). exact Hrec.
  - assert (Hne : String.eqb z0 z = false).
    { apply String.eqb_neq. intros E. subst z0. apply Hnotin.
      eapply nth_error_In. exact Hj. }
    rewrite (IH vs j Hnd' Hlen Hj).
    destruct v; simpl; [rewrite Hne|]; reflexivity.
Qed.

Lemma stack_of_zone (rs : RawSeries) j z :
  rectangular rs -> NoDup (zone_cols rs) -> nth_error (zone_cols rs) j = Some z ->
  prices (of_zone z (stack rs)) = present (column j rs).
Proof.
  unfold rectangular, stack, column. destruct rs as [zones rws]. simpl.
  intros Hrect Hnd Hj.
  induction rws as [|r rws IH]; simpl; [reflexivity|].
  inversion Hrect as [|? ? Hr Hrest]; subst.
  unfold of_zone, prices in *. rewrite filter_app, map_app, (IH Hrest).
  pose proof (@cell_records_of_zone (index r) zones (values r) j z Hnd (eq_sym Hr) Hj)
    as Hrow.
  unfold of_zone, prices, stack_row in *. rewrite Hrow.
  unfold present. simpl. rewrite app_nil_r. reflexivity.
Qed.

Lemma groupby_entry {R K} (key : R -> K) (K_ltb : K -> K -> bool) (l : list R) k g :
  In (k, g) (groupby key K_ltb l) ->
  g = filter (fun r => key_eqb K_ltb (key r) k) l.
Proof.
  unfold groupby. rewrite in_map_iff. intros [k' [E _]]. inversion E. reflexivity.
Qed.

Lemma monthly_entries (stacked : list LongRecord) :
  Forall (fun e => snd e = mean (prices (filter (fun r => key_eqb ym_ltb (ym_key r) (fst e))
                                                stacked)))
         (monthly stacked).
Proof.
  apply Forall_forall. intros e He. unfold monthly in He.
  apply in_map_iff in He. destruct He as [[k g] [<- Hg]].
  apply groupby_entry in Hg. simpl. rewrite Hg. reflexivity.
Qed.

Lemma hod_entries (stacked : list LongRecord) :
  Forall (fun e => snd e = mean (prices (filter (fun r => Z.eqb (hour (Date r)) (fst e))
                                                stacked)))
         (hod stacked).
Proof.
  apply Forall_forall. intros e He. unfold hod in He.
  apply in_map_iff in He. destruct He as [[k g] [<- Hg]].
  apply groupby_entry in Hg. simpl. rewrite Hg. do 2 f_equal.
  apply filter_ext. intros r.
  destruct (Z.eqb_spec (hour (Date r)) k) as [E | E].
  - apply (key_eqb_eq StrictTotal_Zltb). exact E.
  - destruct (key_eqb Z.ltb (hour (Date r)) k) eqn:B; [|reflexivity].
    apply (key_eqb_eq StrictTotal_Zltb) in B. contradiction.
Qed.

Lemma dow_entries (stacked : list LongRecord) :
  dow stacked
  = map (fun d => (d, match filter (fun r => String.eqb (day_name (Date r)) d) stacked with
                      | [] => None
                      | g => mean (prices g)
                      end)) dow_order.
Proof.
  unfold dow, reindex, groupby. rewrite map_map. cbn [fst snd].
  apply map_ext. intros d.
  rewrite (find_keyed (fun k => mean (prices (filter (fun r => key_eqb str_ltb (day_name (Date r)) k)
                                                     stacked)))).
  rewrite reindex_found. f_equal.
  assert (Hf : filter (fun r => key_eqb str_ltb (day_name (Date r)) d) stacked
               = filter (fun r => String.eqb (day_name (Date r)) d) stacked)
    by (apply filter_ext; intros r; apply key_eqb_str).
  rewrite Hf.
  destruct (existsb (fun k => String.eqb k d)
                    (group_keys (fun r => day_name (Date r)) str_ltb stacked)) eqn:Ex.
  - destruct (filter (fun r => String.eqb (day_name (Date r)) d) stacked) eqn:Ef;
      reflexivity.
  - destruct (filter (fun r => String.eqb (day_name (Date r)) d) stacked) as [|r g] eqn:Ef;
      [reflexivity|]. exfalso.
    assert (Hr : In r (filter (fun r => String.eqb (day_name (Date r)) d) stacked))
      by (rewrite Ef; simpl; auto).
    apply filter_In in Hr. destruct Hr as [Hin Hd]. apply String.eqb_eq in Hd.
    assert (Hk : In d (group_keys (fun r => day_name (Date r)) str_ltb stacked)).
    { apply (group_keys_In (fun r => day_name (Date r)) StrictTotal_str_ltb). eauto. }
    assert (existsb (fun k => String.eqb k d)
                    (group_keys (fun r => day_name (Date r)) str_ltb stacked) = true).
    { apply existsb_exists. exists d. split; [exact Hk | apply String.eqb_refl]. }
    congruence.
Qed.

Lemma stack_valid_ts (rs : RawSeries) :
  Forall (fun r => valid_ts (index r)) (rows rs) ->
  Forall (fun rec => valid_ts (Date rec)) (stack rs).
Proof.
  intros H. apply Forall_forall. intros rec Hrec.
  apply stack_In in Hrec. destruct Hrec as [r [j [Hr [_ [_ Hd]]]]].
  rewrite Hd. rewrite Forall_forall in H. apply H. exact Hr.
Qed.

Lemma extremes_from_stacked (kind : Sorter) (stacked : list LongRecord) rec :
  sort_contract kind ->
  In rec (idxmax kind stacked) \/ In rec (idxmin kind stacked) -> In rec stacked.
Proof.
  intros C [H | H]; unfold idxmax, idxmin in H; apply In_firstn in H;
    (eapply Permutation_in; [symmetry; apply sort_values_perm; exact C | exact H]).
Qed.

Lemma StrictTotal_lex {A B} (ltA : A -> A -> bool) (ltB : B -> B -> bool) :
  StrictTotal ltA -> StrictTotal ltB -> StrictTotal (lex_ltb ltA ltB).
Proof.
  intros STA STB.
  assert (Hlex : forall a b, lex_ltb ltA ltB a b = true <->
                             ltA (fst a) (fst b) = true \/
                             (fst a = fst b /\ ltB (snd a) (snd b) = true)).
  { intros a b. unfold lex_ltb.
    rewrite orb_true_iff, andb_true_iff, (key_eqb_eq STA). reflexivity. }
  assert (Hnot : forall a b, lex_ltb ltA ltB a b = false <->
                             ltA (fst a) (fst b) = false /\
                             (fst a = fst b -> ltB (snd a) (snd b) = false)).
  { intros a b. destruct (lex_ltb ltA ltB a b) eqn:E.
    - apply Hlex in E. split; [discriminate|]. intros [H1 H2].
      destruct E as [E | [E1 E2]]; [congruence|]. rewrite (H2 E1) in E2. discriminate.
    - split; [intros _ | reflexivity].
      destruct (ltA (fst a) (fst b)) eqn:E1.
      + assert (lex_ltb ltA ltB a b = true) by (apply Hlex; auto). congruence.
      + split; [reflexivity|]. intros E2.
        destruct (ltB (snd a) (snd b)) eqn:E3; [|reflexivity].
        assert (lex_ltb ltA ltB a b = true) by (apply Hlex; auto). congruence. }
  split; [split|].
  - intros x y H. apply Hlex in H. apply Hnot. destruct H as [H | [H1 H2]].
    + split; [apply (less_asym (proj1 STA)); exact H|].
      intros E. rewrite E, (K_ltb_irrefl STA) in H. discriminate.
    + split; [rewrite H1; apply (K_ltb_irrefl STA)|].
      intros _. apply (less_asym (proj1 STB)). exact H2.
  - intros x y z H1 H2. apply Hnot in H1, H2. apply Hnot.
    destruct H1 as [A1 B1], H2 as [A2 B2].
    split; [apply (less_negtrans (proj1 STA)) with (y := fst y); assumption|].
    intros E.
    assert (Ey : fst y = fst z).
    { apply (proj2 STA); [rewrite E; exact A1 | exact A2]. }
    apply (less_negtrans (proj1 STB)) with (y := snd y).
    + apply B1. congruence.
    + apply B2. congruence.
  - intros a b H1 H2. apply Hnot in H1, H2.
    destruct H1 as [A1 B1], H2 as [A2 B2].
    assert (E : fst a = fst b) by (apply (proj2 STA); assumption).
    destruct a, b; simpl in *. subst. f_equal.
    apply (proj2 STB); auto.
Qed.

Lemma StrictTotal_ym_ltb : StrictTotal ym_ltb.
Proof.
  apply StrictTotal_lex; [exact StrictTotal_str_ltb|].
  apply StrictTotal_lex; exact StrictTotal_Zltb.
Qed.

Lemma monthly_keys (stacked : list LongRecord) :
  map fst (monthly stacked) = group_keys ym_key ym_ltb stacked.
Proof.
  unfold monthly. rewrite map_map. simpl. apply groupby_keys.
Qed.

Lemma hod_hours (stacked : list LongRecord) :
  map fst (hod stacked) = group_keys (fun r => hour (Date r)) Z.ltb stacked.
Proof.
  unfold hod. rewrite map_map. simpl. apply groupby_keys.
Qed.

Lemma ym_key_eqb (r : LongRecord) (z : string) (y m : Z) :
  key_eqb ym_ltb (ym_key r) (z, (y, m))
  = (String.eqb (Zone r) z && (year (Date r) =? y)%Z && (month (Date r) =? m)%Z)%bool.
Proof.
  destruct (key_eqb ym_ltb (ym_key r) (z, (y, m))) eqn:E.
  - apply (key_eqb_eq StrictTotal_ym_ltb) in E. unfold ym_key in E.
    injection E as <- <- <-. rewrite String.eqb_refl, !Z.eqb_refl. reflexivity.
  - destruct (String.eqb_spec (Zone r) z) as [Ez|]; [|reflexivity].
    destruct (Z.eqb_spec (year (Date r)) y) as [Ey|]; [|reflexivity].
    destruct (Z.eqb_spec (month (Date r)) m) as [Em|]; [|reflexivity].
    assert (E' : key_eqb ym_ltb (ym_key r) (z, (y, m)) = true).
    { apply (key_eqb_eq StrictTotal_ym_ltb). unfold ym_key. congruence. }
    congruence.
Qed.

Lemma hour_key_eqb (r : LongRecord) (h : Z) :
  key_eqb Z.ltb (hour (Date r)) h = (hour (Date r) =? h)%Z.
Proof.
  destruct (Z.eqb_spec (hour (Date r)) h) as [E | E].
  - apply (key_eqb_eq StrictTotal_Zltb). exact E.
  - destruct (key_eqb Z.ltb (hour (Date r)) h) eqn:B; [|reflexivity].
    apply (key_eqb_eq StrictTotal_Zltb) in B. contradiction.
Qed.

(** A table of group means holds a row exactly for each key met, with the
    mean of the prices of the records of that key. *)
Lemma group_means {K} (key : LongRecord -> K) (K_ltb : K -> K -> bool)
      (stacked : list LongRecord) (k : K) (p : option Q) :
  StrictTotal K_ltb ->
  In (k, p) (map (fun g => (fst g, mean (prices (snd g)))) (groupby key K_ltb stacked))
  <-> (exists rec, In rec stacked /\ key rec = k) /\
      p = mean (prices (filter (fun r => key_eqb K_ltb (key r) k) stacked)).
Proof.
  intros ST. rewrite in_map_iff. split.
  - intros [[k' g] [E Hg]]. cbn [fst snd] in E. injection E as -> <-.
    destruct (groupby_group key ST _ _ _ Hg) as [Eg [_ Hex]].
    split; [exact Hex | rewrite Eg; reflexivity].
  - intros [Hex ->].
    exists (k, filter (fun r => key_eqb K_ltb (key r) k) stacked). split; [reflexivity|].
    unfold groupby. apply in_map_iff. exists k. split; [reflexivity|].
    apply (group_keys_In key ST). exact Hex.
Qed.

Lemma mean_of_group (l : list LongRecord) (rec : LongRecord) :
  In rec l ->
  exists v, mean (prices l) = Some v /\ v * Qlen (prices l) == Qsum (prices l).
Proof.
  intros Hin.
  assert (Hne : prices l <> []) by (destruct l; [destruct Hin | discriminate]).
  destruct (mean_nonempty Hne) as [v Hv]. exists v. split; [exact Hv|].
  apply mean_sum. exact Hv.
Qed.



(** ** Further properties of the derived views *)

(** X1: the monthly averages have one row per zone, year and month met in the
    long form, no two rows for one of them, and the months of different
    years stay apart. *)
Theorem monthly_one_row_per_month (stacked : list LongRecord) :
  NoDup (map fst (monthly stacked)) /\
  (forall z y m, In (z, (y, m)) (map fst (monthly stacked)) <->
                 exists r, In r stacked /\ Zone r = z /\
                           year (Date r) = y /\ month (Date r) = m) /\
  Forall (fun e => snd e = mean (prices (filter (fun r => key_eqb ym_ltb (ym_key r) (fst e))
                                                stacked)))
         (monthly stacked).
Proof.
  assert (Hk : map fst (monthly stacked) = group_keys ym_key ym_ltb stacked).
  { unfold monthly. rewrite map_map. simpl. apply groupby_keys. }
  rewrite Hk. split; [apply (group_keys_NoDup ym_key StrictTotal_ym_ltb)|].
  split; [|apply monthly_entries].
  intros z y m. rewrite (group_keys_In ym_key StrictTotal_ym_ltb). unfold ym_key. split.
  - intros [r [Hr E]]. inversion E. eauto.
  - intros [r [Hr [<- [<- <-]]]]. eauto.
Qed.

(** A scenario, two constant zones, A at 10 and B at 20 over 48 hours: B ranks first, A has mean, median, minimum and maximum 10 and
    standard deviation 0, no correlation is defined, every spread is 10 and
    the highest price is 20. *)
Example constant_zones_scenario :
  (exists sB sA,
      zone_summary np_quicksort (stack constant48) = Ok [sB; sA] /\
      zone_of sB = "B"%string /\ Rank sB = 1%Z /\
      zone_of sA = "A"%string /\ Rank sA = 2%Z /\
      is_value (zs_Mean (zone_stats sA)) 10 /\ is_value (zs_Median (zone_stats sA)) 10 /\
      is_value (zs_Min (zone_stats sA)) 10 /\ is_value (zs_Max (zone_stats sA)) 10 /\
      is_root_of (zs_Stdev (zone_stats sA)) 0) /\
  Forall (fun row => Forall (fun c => c = None) row) (corr constant48) /\
  Forall (fun s => is_value (sp_Spread s) 10) (spread constant48) /\
  map Price (firstn 1 (idxmax np_quicksort (stack constant48))) = [20].
Proof.
  split.
  { do 2 eexists. split; [vm_compute; reflexivity|].
    repeat split; vm_compute; reflexivity. }
  split; [vm_compute; repeat constructor|].
  split; [|vm_compute; reflexivity].
  unfold spread, constant48. cbn [rows]. rewrite map_map.
  apply Forall_map. apply Forall_forall. intros h _. vm_compute. reflexivity.
Qed.

(** ** What the figures select *)

Lemma season_table_months (m : Z) :
  (exists kv, find (fun kv : Z * string => (fst kv =? m)%Z) season_table = Some kv)
  <-> (1 <= m <= 12)%Z.
Proof.
  split.
  - intros [kv H]. apply find_some in H. destruct H as [Hin Hm].
    apply Z.eqb_eq in Hm. subst m.
    unfold season_table in Hin. simpl in Hin.
    repeat (destruct Hin as [<- | Hin]; [simpl; lia|]). contradiction.
  - intros H.
    assert (Hc : (m = 1 \/ m = 2 \/ m = 3 \/ m = 4 \/ m = 5 \/ m = 6 \/ m = 7 \/
                  m = 8 \/ m = 9 \/ m = 10 \/ m = 11 \/ m = 12)%Z) by lia.
    repeat (destruct Hc as [-> | Hc]; [eexists; reflexivity|]).
    subst m. eexists. reflexivity.
Qed.

(** X2: [season_of_month] raises KeyError exactly for a month outside 1..12,
    and the long form as a whole gets its seasons exactly when every record
    has such a month; the first record without one stops the run. *)
Theorem season_of_month_KeyError (m : Z) (stacked : list LongRecord) :
  (season_of_month m = Raise KeyError <-> ~ (1 <= m <= 12)%Z) /\
  ((exists s, season_of_month m = Ok s /\ In s season_order) <-> (1 <= m <= 12)%Z) /\
  ((exists tagged, with_season stacked = Ok tagged)
   <-> Forall (fun r => (1 <= month (Date r) <= 12)%Z) stacked) /\
  ((exists r, In r stacked /\ ~ (1 <= month (Date r) <= 12)%Z)
   <-> seasonal stacked = Raise KeyError).
Proof.
  assert (H1 : forall k, season_of_month k = Raise KeyError <-> ~ (1 <= k <= 12)%Z).
  { intros k. unfold season_of_month. rewrite <- season_table_months.
    destruct (find _ season_table) as [kv|].
    - split; [discriminate|]. intros H. exfalso. apply H. eauto.
    - split; [|reflexivity]. intros _ [kv H]. discriminate. }
  assert (H2 : forall k, (exists s, season_of_month k = Ok s /\ In s season_order)
                         <-> (1 <= k <= 12)%Z).
  { intros k. split.
    - intros [s [Hs _]]. destruct (Z_le_dec 1 k); [destruct (Z_le_dec k 12); [lia|]|];
        (assert (Hr : season_of_month k = Raise KeyError) by (apply H1; lia);
         congruence).
    - intros H.
      assert (Hc : (k = 1 \/ k = 2 \/ k = 3 \/ k = 4 \/ k = 5 \/ k = 6 \/ k = 7 \/
                    k = 8 \/ k = 9 \/ k = 10 \/ k = 11 \/ k = 12)%Z) by lia.
      repeat (destruct Hc as [-> | Hc];
              [eexists; split; [reflexivity | simpl; tauto]|]).
      subst k. eexists; split; [reflexivity | simpl; tauto]. }
  assert (H3 : forall l, (exists tagged, with_season l = Ok tagged)
                         <-> Forall (fun r => (1 <= month (Date r) <= 12)%Z) l).
  { induction l as [|r l IH]; simpl.
    - split; [constructor | eexists; reflexivity].
    - unfold with_season in *. simpl. split.
      + intros [tagged H].
        destruct (season_of_month (month (Date r))) as [s|e] eqn:Es; [|discriminate].
        simpl in H. destruct (mapM _ l) as [t|e] eqn:Et; [|discriminate].
        constructor; [|apply IH; eauto].
        destruct (Z_le_dec 1 (month (Date r))); [destruct (Z_le_dec (month (Date r)) 12); [lia|]|];
          (assert (Hr : season_of_month (month (Date r)) = Raise KeyError) by (apply H1; lia);
           congruence).
      + intros H. inversion H as [|? ? Hr Hl]; subst.
        apply H2 in Hr. destruct Hr as [s [Hs _]]. rewrite Hs. simpl.
        apply IH in Hl. destruct Hl as [t Ht]. rewrite Ht. simpl. eauto. }
  split; [apply H1|]. split; [apply H2|]. split; [apply H3|].
  assert (H4 : forall l, with_season l = Raise KeyError \/ exists t, with_season l = Ok t).
  { induction l as [|r l IH]; [right; eexists; reflexivity|].
    unfold with_season in *. simpl.
    destruct (season_of_month (month (Date r))) as [s|e] eqn:Es.
    - simpl. destruct IH as [-> | [t ->]]; simpl; eauto.
    - left. unfold season_of_month in Es.
      destruct (find _ season_table); [discriminate|]. inversion Es. reflexivity. }
  split.
  - intros [r [Hin Hm]]. unfold seasonal.
    destruct (H4 stacked) as [-> | Ht]; [reflexivity|].
    apply H3 in Ht. rewrite Forall_forall in Ht. specialize (Ht r Hin). contradiction.
  - intros H. unfold seasonal in H.
    destruct (H4 stacked) as [Hr | [t Ht]]; [|rewrite Ht in H; discriminate].
    clear H. assert (Hn : ~ Forall (fun r => (1 <= month (Date r) <= 12)%Z) stacked).
    { intros HF. apply H3 in HF. destruct HF as [t Ht]. congruence. }
    apply neg_Forall_Exists_neg in Hn.
    + apply Exists_exists in Hn. exact Hn.
    + intros x. destruct (Z_le_dec 1 (month (Date x))); [destruct (Z_le_dec (month (Date x)) 12)|];
        [left; lia | right; lia | right; lia].
Qed.

(** X3: the zone shown first in the heatmap and in the seasonality figure is
    one of the zone columns: PJM-RTO ZONE whenever the sheet has it, the
    first column otherwise; only a sheet without any zone column has none
    (IndexError). *)
Theorem default_zone_among_columns (zones : list string) :
  (default_zone zones = None <-> zones = []) /\
  (forall z, default_zone zones = Some z -> In z zones) /\
  (In "PJM-RTO ZONE"%string zones -> default_zone zones = Some "PJM-RTO ZONE"%string) /\
  (~ In "PJM-RTO ZONE"%string zones -> default_zone zones = nth_error zones 0).
Proof.
  unfold default_zone.
  destruct (existsb (String.eqb "PJM-RTO ZONE") zones) eqn:E.
  - apply existsb_exists in E. destruct E as [z [Hin Hz]].
    apply String.eqb_eq in Hz. subst z.
    split; [split; [discriminate | intros ->; contradiction]|].
    split; [intros z Hz; inversion Hz; subst; exact Hin|].
    split; [reflexivity | contradiction].
  - assert (Hn : ~ In "PJM-RTO ZONE"%string zones).
    { intros Hin. assert (existsb (String.eqb "PJM-RTO ZONE") zones = true).
      { apply existsb_exists. eexists. split; [exact Hin | apply String.eqb_refl]. }
      congruence. }
    split; [destruct zones; simpl; split; congruence|].
    split; [intros z Hz; destruct zones; simpl in *; [discriminate | left; congruence]|].
    split; [contradiction | reflexivity].
Qed.

Lemma seq_strictly_sorted (a n : nat) : StronglySorted lt (seq a n).
Proof.
  revert a. induction n as [|n IH]; intros a; simpl; constructor; [apply IH|].
  apply Forall_forall. intros x Hx. apply in_seq in Hx. lia.
Qed.

(** A list that is strictly ascending has one sorted arrangement only. *)
Lemma sorted_perm_unique {A} (less : A -> A -> bool) (l l' : list A) :
  StronglySorted (fun a b => less a b = true) l ->
  Permutation l l' -> ascending_by less l' -> l' = l.
Proof.
  revert l'. induction l as [|a t IH]; intros l' Hs HP Ha.
  - apply Permutation_nil in HP. exact HP.
  - destruct l' as [|b t']; [apply Permutation_sym, Permutation_nil in HP; discriminate|].
    inversion Hs as [|? ? Hst Hat]; subst. inversion Ha as [|? ? Hst' Hat']; subst.
    rewrite Forall_forall in Hat, Hat'.
    assert (E : b = a).
    { assert (Hb : In b (a :: t))
        by (eapply Permutation_in; [symmetry; exact HP | left; reflexivity]).
      destruct Hb as [Hb | Hb]; [auto|].
      assert (Hain : In a (b :: t'))
        by (eapply Permutation_in; [exact HP | left; reflexivity]).
      destruct Hain as [Hain | Hain]; [auto|].
      specialize (Hat b Hb). specialize (Hat' a Hain). congruence. }
    subst b. f_equal. apply IH; auto. eapply Permutation_cons_inv. exact HP.
Qed.

Lemma summary_ranks_seq (kind : Sorter) (stacked : list LongRecord) summary :
  sort_contract kind -> zone_summary kind stacked = Ok summary ->
  map Rank summary = map (fun i => Z.of_nat (S i)) (seq 0 (length summary)).
Proof.
  intros C H. rewrite (zone_summary_ok C) in H. inversion H as [E]. clear H.
  rewrite map_map. cbn [Rank].
  rewrite length_map, length_combine, length_map, length_seq, Nat.min_id.
  apply (map_snd_combine (sort_by_mean kind (zone_agg stacked))).
  rewrite length_map, length_seq. reflexivity.
Qed.

Lemma StrictWeak_by_rank : StrictWeak by_rank.
Proof. apply (StrictWeak_key Rank). exact StrictWeak_Zltb. Qed.

Lemma summary_by_rank (kind : Sorter) (stacked : list LongRecord) summary :
  sort_contract kind -> zone_summary kind stacked = Ok summary ->
  StronglySorted (fun a b => by_rank a b = true) summary.
Proof.
  intros C H. apply (summary_ranks_seq stacked C) in H.
  apply (@StronglySorted_map_inv _ _ Rank (fun x y => (x <? y)%Z = true)).
  rewrite H. apply StronglySorted_map.
  eapply StronglySorted_weaken; [|apply seq_strictly_sorted].
  intros x y Hxy. simpl. apply Z.ltb_lt. lia.
Qed.

Lemma summary_nth_rank (kind : Sorter) (stacked : list LongRecord) summary i s :
  sort_contract kind -> zone_summary kind stacked = Ok summary ->
  nth_error summary i = Some s -> Rank s = Z.of_nat (S i).
Proof.
  intros C H Hi. apply (summary_ranks_seq stacked C) in H.
  assert (H1 : nth_error (map Rank summary) i = Some (Rank s))
    by (rewrite nth_error_map, Hi; reflexivity).
  rewrite H, nth_error_map in H1.
  assert (Hlt : (i < length summary)%nat) by (apply nth_error_Some; congruence).
  rewrite nth_error_seq in H1.
  destruct (Nat.ltb_spec i (length summary)); [|lia].
  cbn [option_map Nat.add] in H1. congruence.
Qed.

(** X4: the zones of the sparklines are the first twelve rows of the zone
    summary and the zones of the top-ten figures their first ten: ranks
    ascend strictly, so sorting the summary by rank changes nothing, whatever
    the sort; a zone is among the top ten exactly when its rank is at most
    10. *)
Theorem top10_is_rank_at_most_10 (kind : Sorter) (stacked : list LongRecord) summary :
  sort_contract kind -> zone_summary kind stacked = Ok summary ->
  sort_values kind by_rank true summary = summary /\
  spark_zones kind summary = map zone_of (firstn 12 summary) /\
  top10 summary = firstn 10 (spark_zones kind summary) /\
  length (top10 summary) = Nat.min 10 (length summary) /\
  (forall s, In s (firstn 10 summary) <-> In s summary /\ (Rank s <= 10)%Z).
Proof.
  intros C H.
  assert (Hsort : sort_values kind by_rank true summary = summary).
  { apply (sorted_perm_unique (less := by_rank)).
    - apply (summary_by_rank stacked C H).
    - apply sort_values_perm. exact C.
    - apply (sort_values_ascending C StrictWeak_by_rank). }
  split; [exact Hsort|]. unfold spark_zones, top10. rewrite Hsort.
  split; [reflexivity|].
  split; [rewrite firstn_map, firstn_firstn; reflexivity|].
  split; [rewrite length_map, length_firstn; reflexivity|].
  intros s. split.
  - intros Hin. split; [eapply In_firstn; exact Hin|].
    apply In_nth_error in Hin. destruct Hin as [i Hi].
    assert (Hlt : (i < 10)%nat).
    { assert (Hl : (i < length (firstn 10 summary))%nat)
        by (apply nth_error_Some; congruence).
      rewrite length_firstn in Hl. lia. }
    rewrite nth_error_firstn in Hi.
    destruct (Nat.ltb_spec i 10); [|lia].
    rewrite (summary_nth_rank stacked i C H Hi). lia.
  - intros [Hin Hr]. apply In_nth_error in Hin. destruct Hin as [i Hi].
    rewrite (summary_nth_rank stacked i C H Hi) in Hr.
    apply (nth_error_In _ i). rewrite nth_error_firstn.
    destruct (Nat.ltb_spec i 10); [exact Hi | lia].
Qed.

Lemma top10_is_rank_at_most_10_witness :
  exists summary,
    zone_summary insertion_sort (stack tie_BA) = Ok summary /\
    spark_zones insertion_sort summary = map zone_of (firstn 12 summary) /\
    top10 summary = firstn 10 (spark_zones insertion_sort summary).
Proof.
  destruct (zone_summary_rows (stack tie_BA) insertion_sort_contract) as [summary [H _]].
  exists summary. split; [exact H|].
  destruct (top10_is_rank_at_most_10 (stack tie_BA) insertion_sort_contract H) as [_ [H1 [H2 _]]].
  split; [exact H1 | exact H2].
Defined.

(** ** Years and the monthly file *)

Lemma years_sorted_In (stacked : list LongRecord) (y : Z) :
  In y (years_sorted (monthly stacked)) <-> exists r, In r stacked /\ year (Date r) = y.
Proof.
  unfold years_sorted. rewrite (group_keys_In year_of_row StrictTotal_Zltb). split.
  - intros [e [He Hy]].
    assert (Hk : In (fst e) (group_keys ym_key ym_ltb stacked))
      by (rewrite <- monthly_keys; apply in_map; exact He).
    apply (group_keys_In ym_key StrictTotal_ym_ltb) in Hk.
    destruct Hk as [r [Hr Hkey]]. exists r. split; [exact Hr|].
    unfold year_of_row in Hy. rewrite <- Hkey in Hy. exact Hy.
  - intros [r [Hr Hy]].
    assert (Hk : In (ym_key r) (map fst (monthly stacked))).
    { rewrite monthly_keys. apply (group_keys_In ym_key StrictTotal_ym_ltb). eauto. }
    apply in_map_iff in Hk. destruct Hk as [e [He Hin]].
    exists e. split; [exact Hin|]. unfold year_of_row. rewrite He. exact Hy.
Qed.

Lemma last_is_greatest (l : list Z) (y : Z) :
  StronglySorted (fun a b => (a <? b)%Z = true) l ->
  nth_error l (length l - 1) = Some y ->
  In y l /\ forall x, In x l -> (x <= y)%Z.
Proof.
  induction 1 as [|a t Hs IH Ha]; intros Hy; [discriminate|].
  destruct t as [|b t'].
  - simpl in Hy. inversion Hy; subst. split; [left; reflexivity|].
    intros x [<- | []]. lia.
  - assert (Hy' : nth_error (b :: t') (length (b :: t') - 1) = Some y).
    { simpl in *. rewrite Nat.sub_0_r in *. exact Hy. }
    destruct (IH Hy') as [Hin Hmax]. split; [right; exact Hin|].
    intros x [<- | Hx]; [|apply Hmax; exact Hx].
    rewrite Forall_forall in Ha. specialize (Ha y Hin). apply Z.ltb_lt in Ha. lia.
Qed.

(** X5: the years of the year menu ascend without repetition and are the
    years met in the long form; the year shown first is the latest of them,
    and there is none (IndexError) exactly when the long form is empty. *)
Theorem default_year_latest (stacked : list LongRecord) :
  StronglySorted Z.lt (years_sorted (monthly stacked)) /\
  (forall y, In y (years_sorted (monthly stacked))
             <-> exists r, In r stacked /\ year (Date r) = y) /\
  (default_year (monthly stacked) = None <-> stacked = []) /\
  (forall y, default_year (monthly stacked) = Some y <->
             (exists r, In r stacked /\ year (Date r) = y) /\
             forall r, In r stacked -> (year (Date r) <= y)%Z).
Proof.
  assert (Hs : StronglySorted (fun a b => (a <? b)%Z = true) (years_sorted (monthly stacked)))
    by apply (group_keys_sorted year_of_row StrictTotal_Zltb).
  assert (Hlast : forall y, default_year (monthly stacked) = Some y ->
                            (exists r, In r stacked /\ year (Date r) = y) /\
                            forall r, In r stacked -> (year (Date r) <= y)%Z).
  { intros y Hy. destruct (last_is_greatest Hs Hy) as [Hin Hmax]. split.
    - apply years_sorted_In. exact Hin.
    - intros r Hr. apply Hmax. apply years_sorted_In. eauto. }
  assert (Hnone : default_year (monthly stacked) = None <-> stacked = []).
  { unfold default_year. rewrite nth_error_None. split.
    - intros Hl. destruct stacked as [|r l]; [reflexivity|]. exfalso.
      assert (Hin : In (year (Date r)) (years_sorted (monthly (r :: l))))
        by (apply years_sorted_In; exists r; split; [left; reflexivity | reflexivity]).
      destruct (years_sorted (monthly (r :: l))); [contradiction | simpl in Hl; lia].
    - intros ->. simpl. lia. }
  split; [eapply StronglySorted_weaken; [|exact Hs]; intros x y H; apply Z.ltb_lt; exact H|].
  split; [apply years_sorted_In|]. split; [exact Hnone|].
  intros y. split; [apply Hlast|].
  intros [[r [Hr Hy]] Hmax].
  destruct (default_year (monthly stacked)) as [y'|] eqn:E.
  - destruct (Hlast y' eq_refl) as [[r' [Hr' Hy']] Hmax'].
    specialize (Hmax r' Hr'). specialize (Hmax' r Hr). f_equal. lia.
  - destruct Hnone as [Hn _]. rewrite (Hn eq_refl) in Hr. contradiction.
Qed.

Lemma StrictWeak_by_zone_year_month : StrictWeak by_zone_year_month.
Proof.
  apply (StrictWeak_key (fun e : string * (Z * Z) * option Q => fst e)).
  exact (proj1 StrictTotal_ym_ltb).
Qed.

(** X6: the monthly averages stand in ascending order of zone, then year,
    then month, so the sort before the monthly CSV is written moves no row:
    the file holds the monthly averages as they are, whatever the sort. *)
Theorem monthly_csv_is_monthly (kind : Sorter) (stacked : list LongRecord) :
  sort_contract kind ->
  StronglySorted (fun a b => ym_ltb (fst a) (fst b) = true) (monthly stacked) /\
  monthly_csv kind (monthly stacked) = monthly stacked.
Proof.
  intros C.
  assert (Hs : StronglySorted (fun a b => by_zone_year_month a b = true) (monthly stacked)).
  { apply (@StronglySorted_map_inv _ _ fst (fun x y => ym_ltb x y = true)).
    rewrite monthly_keys. apply (group_keys_sorted ym_key StrictTotal_ym_ltb). }
  split; [exact Hs|].
  apply (sorted_perm_unique (less := by_zone_year_month)).
  - exact Hs.
  - apply sort_values_perm. exact C.
  - apply (sort_values_ascending C StrictWeak_by_zone_year_month).
Qed.

Lemma monthly_csv_is_monthly_witness :
  monthly_csv insertion_sort (monthly (stack missing_B)) = monthly (stack missing_B).
Proof.
  exact (proj2 (monthly_csv_is_monthly (stack missing_B) insertion_sort_contract)).
Defined.

(** ** The extremes tables, whatever the sort *)

Lemma reversing_sort_contract : sort_contract reversing_sort.
Proof.
  split.
  - intros A less l. unfold reversing_sort.
    etransitivity; [apply Permutation_rev | apply insertion_sort_perm].
  - intros A less l SW. apply (sort_sorted insertion_sort_contract). exact SW.
Qed.

Lemma StrictWeak_flip {A} (less : A -> A -> bool) :
  StrictWeak less -> StrictWeak (fun a b => less b a).
Proof.
  intros SW. split.
  - intros x y H. apply (less_asym SW). exact H.
  - intros x y z H1 H2. apply (less_negtrans SW) with (y := y); assumption.
Qed.

Lemma Permutation_filter_length {A} (p : A -> bool) (l l' : list A) :
  Permutation l l' -> length (filter p l) = length (filter p l').
Proof.
  induction 1 as [|x l l' _ IH|x y l|l l' l'' _ IH1 _ IH2]; simpl.
  - reflexivity.
  - destruct (p x); simpl; congruence.
  - destruct (p x), (p y); reflexivity.
  - congruence.
Qed.

Lemma filter_length_mono {A} (p q : A -> bool) (l : list A) :
  (forall x, In x l -> p x = true -> q x = true) ->
  (length (filter p l) <= length (filter q l))%nat.
Proof.
  induction l as [|a l IH]; intros H; simpl; [lia|].
  assert (IH' : (length (filter p l) <= length (filter q l))%nat)
    by (apply IH; intros; apply H; simpl; auto).
  destruct (p a) eqn:Ep.
  - rewrite (H a (or_introl eq_refl) Ep). simpl. lia.
  - destruct (q a); simpl; lia.
Qed.

Lemma filter_all {A} (p : A -> bool) (l : list A) :
  (forall x, In x l -> p x = true) -> filter p l = l.
Proof.
  induction l as [|a l IH]; intros H; simpl; [reflexivity|].
  rewrite (H a (or_introl eq_refl)). f_equal. apply IH. intros; apply H; simpl; auto.
Qed.

(** In an ascending list the elements below the one at position [i] stand
    before it, and those not above it fill the positions up to [i]. *)
Lemma ascending_count {A} (less : A -> A -> bool) (l : list A) (i : nat) (x : A) :
  StrictWeak less -> ascending_by less l -> nth_error l i = Some x ->
  (length (filter (fun r => less r x) l) <= i)%nat /\
  (i < length (filter (fun r => negb (less x r)) l))%nat.
Proof.
  intros SW Hs Hi.
  destruct (nth_error_split l i Hi) as [l1 [l2 [-> Hlen]]].
  destruct (StronglySorted_middle _ _ _ Hs) as [H1 H2].
  rewrite Forall_forall in H1, H2.
  assert (Hxx : less x x = false).
  { destruct (less x x) eqn:E; [|reflexivity].
    rewrite (less_asym SW _ _ E) in E. discriminate. }
  rewrite !filter_app, !length_app. cbn [filter]. rewrite Hxx. cbn [negb length].
  split.
  - rewrite (filter_none (fun r => less r x) l2) by (intros y Hy; apply H2; exact Hy).
    pose proof (filter_length_le (fun r => less r x) l1). simpl. lia.
  - rewrite (filter_all (fun r => negb (less x r)) l1).
    + lia.
    + intros y Hy. rewrite (H1 y Hy). reflexivity.
Qed.

Lemma Forall2_nth_error {A B} (R : A -> B -> Prop) (l : list A) (l' : list B) :
  length l = length l' ->
  (forall i x y, nth_error l i = Some x -> nth_error l' i = Some y -> R x y) ->
  Forall2 R l l'.
Proof.
  revert l'. induction l as [|a l IH]; intros [|b l'] Hlen H; simpl in Hlen;
    try discriminate; constructor.
  - apply (H 0%nat); reflexivity.
  - apply IH; [lia|]. intros i x y Hx Hy. apply (H (S i)); assumption.
Qed.

(** Two sorted arrangements of one list hold tied elements at each position. *)
Lemma sorted_perms_tied {A} (less : A -> A -> bool) (l l' : list A) :
  StrictWeak less -> Permutation l l' -> ascending_by less l -> ascending_by less l' ->
  Forall2 (fun x y => less x y = false /\ less y x = false) l l'.
Proof.
  intros SW HP Hs Hs'.
  assert (Hhalf : forall l l', Permutation l l' -> ascending_by less l ->
                               ascending_by less l' ->
                               forall i x y, nth_error l i = Some x ->
                                             nth_error l' i = Some y ->
                                             less x y = false).
  { clear l l' HP Hs Hs'. intros l l' HP Hs Hs' i x y Hx Hy.
    destruct (less x y) eqn:E; [exfalso | reflexivity].
    destruct (@ascending_count _ less l i x SW Hs Hx) as [_ Hle].
    destruct (@ascending_count _ less l' i y SW Hs' Hy) as [Hlt _].
    rewrite (Permutation_filter_length (fun r => negb (less x r)) HP) in Hle.
    assert (Hm : (length (filter (fun r => negb (less x r)) l')
                  <= length (filter (fun r => less r y) l'))%nat).
    { apply filter_length_mono. intros r _ Hr. apply negb_true_iff in Hr.
      destruct (less r y) eqn:Er; [reflexivity|].
      rewrite (less_negtrans SW _ _ _ Er Hr) in E. discriminate. }
    lia. }
  apply Forall2_nth_error; [apply Permutation_length; exact HP|].
  intros i x y Hx Hy. split.
  - apply (Hhalf l l' HP Hs Hs' i); assumption.
  - apply (Hhalf l' l (Permutation_sym HP) Hs' Hs i); assumption.
Qed.

Lemma Forall2_firstn {A B} (R : A -> B -> Prop) n (l : list A) (l' : list B) :
  Forall2 R l l' -> Forall2 R (firstn n l) (firstn n l').
Proof.
  intros H. revert n. induction H as [|a b l l' Hab _ IH]; intros [|n]; simpl;
    constructor; auto.
Qed.

Lemma Forall2_map {A B C D} (f : A -> C) (g : B -> D) (R : C -> D -> Prop) l l' :
  Forall2 (fun x y => R (f x) (g y)) l l' -> Forall2 R (map f l) (map g l').
Proof.
  induction 1; simpl; constructor; auto.
Qed.

Lemma StronglySorted_app_inv {A} (R : A -> A -> Prop) (l1 l2 : list A) :
  StronglySorted R (l1 ++ l2) -> forall x y, In x l1 -> In y l2 -> R x y.
Proof.
  induction l1 as [|a l1 IH]; simpl; intros H x y Hx Hy; [contradiction|].
  inversion H as [|? ? Hs Ha]; subst. destruct Hx as [<- | Hx].
  - rewrite Forall_forall in Ha. apply Ha. apply in_or_app. right. exact Hy.
  - apply IH; assumption.
Qed.

Lemma head_dominates {A} (R : A -> A -> Prop) n (l : list A) a b :
  StronglySorted R l -> In a (firstn n l) -> In b l -> ~ In b (firstn n l) -> R a b.
Proof.
  intros Hs Ha Hb Hnb. rewrite <- (firstn_skipn n l) in Hs, Hb.
  apply in_app_or in Hb. destruct Hb as [Hb | Hb]; [contradiction|].
  exact (StronglySorted_app_inv _ _ Hs _ _ Ha Hb).
Qed.

Section ExtremesPrices.
Variables kind kind' : Sorter.
Hypothesis contract : sort_contract kind.
Hypothesis contract' : sort_contract kind'.
Variable stacked : list LongRecord.

Lemma sorted_prices_agree asc :
  Forall2 (fun x y => Price x == Price y)
          (sort_values kind price_ltb asc stacked)
          (sort_values kind' price_ltb asc stacked).
Proof.
  assert (HP : Permutation (sort_values kind price_ltb asc stacked)
                           (sort_values kind' price_ltb asc stacked)).
  { etransitivity; [symmetry; apply sort_values_perm; exact contract|].
    apply sort_values_perm. exact contract'. }
  assert (Hq : forall x y, price_ltb x y = false /\ price_ltb y x = false ->
                           Price x == Price y).
  { intros x y [H1 H2]. apply price_ltb_ge in H1, H2. lra. }
  destruct asc.
  - eapply Forall2_impl; [exact Hq|].
    apply (sorted_perms_tied StrictWeak_price_ltb HP);
      apply sort_values_ascending; auto using StrictWeak_price_ltb.
  - assert (HT : Forall2 (fun x y => price_ltb y x = false /\ price_ltb x y = false)
                         (sort_values kind price_ltb false stacked)
                         (sort_values kind' price_ltb false stacked)).
    { apply (sorted_perms_tied (StrictWeak_flip StrictWeak_price_ltb) HP);
        apply sort_values_descending; auto using StrictWeak_price_ltb. }
    eapply Forall2_impl; [|exact HT]. intros x y H. apply Hq. cbv beta in H. split; [exact (proj2 H) | exact (proj1 H)].
Qed.

End ExtremesPrices.

(** X7: the prices of the two extremes tables do not depend on the sort: any
    two sorts that meet the contract give the same column of prices, though
    they may pick different records among those of one price.  A table has
    20 rows, or all records when there are fewer, and no record left out of
    the top table has a price above one in it, none left out of the bottom
    table a price below one in it. *)
Theorem extremes_prices_sort_independent (kind kind' : Sorter) (stacked : list LongRecord) :
  sort_contract kind -> sort_contract kind' ->
  Forall2 Qeq (map Price (idxmax kind stacked)) (map Price (idxmax kind' stacked)) /\
  Forall2 Qeq (map Price (idxmin kind stacked)) (map Price (idxmin kind' stacked)) /\
  length (idxmax kind stacked) = Nat.min 20 (length stacked) /\
  length (idxmin kind stacked) = Nat.min 20 (length stacked) /\
  (forall a b, In a (idxmax kind stacked) -> In b stacked ->
               ~ In b (idxmax kind stacked) -> Price b <= Price a) /\
  (forall a b, In a (idxmin kind stacked) -> In b stacked ->
               ~ In b (idxmin kind stacked) -> Price a <= Price b).
Proof.
  intros C C'. unfold idxmax, idxmin.
  split; [apply Forall2_map, Forall2_firstn, sorted_prices_agree; assumption|].
  split; [apply Forall2_map, Forall2_firstn, sorted_prices_agree; assumption|].
  split; [rewrite length_firstn, <- (Permutation_length (sort_values_perm C price_ltb false stacked));
          reflexivity|].
  split; [rewrite length_firstn, <- (Permutation_length (sort_values_perm C price_ltb true stacked));
          reflexivity|].
  split.
  - intros a b Ha Hb Hnb. apply price_ltb_ge.
    apply (head_dominates (R := fun x y => price_ltb x y = false) 20
                          (l := sort_values kind price_ltb false stacked)).
    + apply (sort_values_descending C StrictWeak_price_ltb).
    + exact Ha.
    + eapply Permutation_in; [apply sort_values_perm; exact C | exact Hb].
    + exact Hnb.
  - intros a b Ha Hb Hnb. apply price_ltb_ge.
    apply (head_dominates (R := fun x y => price_ltb y x = false) 20
                          (l := sort_values kind price_ltb true stacked)).
    + apply (sort_values_ascending C StrictWeak_price_ltb).
    + exact Ha.
    + eapply Permutation_in; [apply sort_values_perm; exact C | exact Hb].
    + exact Hnb.
Qed.

Lemma extremes_prices_sort_independent_witness :
  sort_contract insertion_sort /\ sort_contract reversing_sort /\
  idxmin insertion_sort three_records <> idxmin reversing_sort three_records /\
  Forall2 Qeq (map Price (idxmin insertion_sort three_records))
              (map Price (idxmin reversing_sort three_records)).
Proof.
  split; [exact insertion_sort_contract|]. split; [exact reversing_sort_contract|].
  split; [vm_compute; discriminate|].
  exact (proj1 (proj2 (extremes_prices_sort_independent
                         three_records insertion_sort_contract reversing_sort_contract))).
Defined.

(** ** The inter-zonal spread is never negative *)

(** X10: the inter-zonal spread of an hour is never negative; it is zero
    exactly when all the zones that have a price at that hour have the same
    one, and it is NaN only for an hour without any price. *)
Theorem spread_nonnegative (rs : RawSeries) :
  Forall2 (fun r s =>
             sp_Date s = index r /\
             match sp_Spread s with
             | Some d => 0 <= d /\
                         (d == 0 <-> forall x y, In (Some x) (values r) ->
                                                 In (Some y) (values r) -> x == y)
             | None => forall v, ~ In (Some v) (values r)
             end)
          (rows rs) (spread rs).
Proof.
  unfold spread. induction (rows rs) as [|r l IH]; simpl; constructor; [|exact IH].
  split; [reflexivity|]. unfold spread_row. cbn [sp_Spread].
  pose proof (Qmax_list_spec (present (values r))) as Hmax.
  pose proof (Qmin_list_spec (present (values r))) as Hmin.
  destruct (Qmax_list (present (values r))) as [mx|].
  - destruct (Qmin_list (present (values r))) as [mn|].
    + cbn [option_sub]. destruct Hmax as [Imx Hmx], Hmin as [Imn Hmn].
      split; [specialize (Hmn mx Imx); lra|]. split.
      * intros E x y Hx Hy. apply present_In in Hx, Hy.
        pose proof (Hmx x Hx). pose proof (Hmn x Hx).
        pose proof (Hmx y Hy). pose proof (Hmn y Hy). lra.
      * intros H. assert (E : mx == mn) by (apply H; apply present_In; assumption).
        lra.
    + exfalso. destruct Hmax as [Imx _]. rewrite Hmin in Imx. exact Imx.
  - cbn [option_sub]. intros v Hv. apply present_In in Hv. rewrite Hmax in Hv. exact Hv.
Qed.

(** ** Grouping: the profiles by hour and by day *)

Lemma filter_disjoint_app {A} (p q : A -> bool) (l : list A) :
  (forall x, In x l -> p x = true -> q x = false) ->
  Permutation (filter p l ++ filter q l) (filter (fun x => p x || q x) l).
Proof.
  induction l as [|a l IH]; intros H; simpl; [constructor|].
  assert (IH' : Permutation (filter p l ++ filter q l) (filter (fun x => p x || q x) l))
    by (apply IH; intros; apply H; simpl; auto).
  destruct (p a) eqn:Ep.
  - rewrite (H a (or_introl eq_refl) Ep). simpl. constructor. exact IH'.
  - destruct (q a); simpl; [|exact IH'].
    etransitivity; [symmetry; apply Permutation_middle|]. constructor. exact IH'.
Qed.

Section Partition.
Context {R K : Type}.
Variable key : R -> K.
Variable K_ltb : K -> K -> bool.
Hypothesis ST : StrictTotal K_ltb.

Lemma groups_of_keys (ks : list K) (l : list R) :
  NoDup ks ->
  Permutation (flat_map (fun k => filter (fun r => key_eqb K_ltb (key r) k) l) ks)
              (filter (fun r => existsb (key_eqb K_ltb (key r)) ks) l).
Proof.
  induction 1 as [|k ks Hnotin Hnd IH]; simpl.
  - rewrite filter_none by reflexivity. constructor.
  - etransitivity; [apply Permutation_app_head; exact IH|].
    apply filter_disjoint_app. intros r _ Hk.
    apply (key_eqb_eq ST) in Hk.
    destruct (existsb (key_eqb K_ltb (key r)) ks) eqn:Ex; [|reflexivity].
    apply existsb_exists in Ex. destruct Ex as [k' [Hin Hk']].
    apply (key_eqb_eq ST) in Hk'. exfalso. apply Hnotin. congruence.
Qed.

Lemma groupby_partition (l : list R) :
  Permutation l (flat_map snd (groupby key K_ltb l)).
Proof.
  unfold groupby. rewrite flat_map_concat_map, map_map. cbn [snd].
  rewrite <- flat_map_concat_map.
  etransitivity; [|symmetry; apply groups_of_keys, (group_keys_NoDup key ST)].
  rewrite filter_all; [reflexivity|].
  intros r Hr. apply existsb_exists. exists (key r). split.
  - apply (group_keys_In key ST). eauto.
  - apply (key_eqb_eq ST). reflexivity.
Qed.

End Partition.

(** X12: grouping by zone loses no record and counts none twice: the zone
    groups hold the records of the long form, every record exactly once;
    each group holds the records of its zone, in their order, and is not
    empty; no zone has two groups; so the numbers of records of the zones
    add up to the number of records of the long form. *)
Theorem zone_groups_partition (stacked : list LongRecord) :
  Permutation stacked (flat_map snd (groupby Zone str_ltb stacked)) /\
  Forall (fun g => snd g <> [] /\ snd g = of_zone (fst g) stacked)
         (groupby Zone str_ltb stacked) /\
  NoDup (map fst (groupby Zone str_ltb stacked)) /\
  length stacked
  = list_sum (map (fun g => length (snd g)) (groupby Zone str_ltb stacked)).
Proof.
  assert (HP : Permutation stacked (flat_map snd (groupby Zone str_ltb stacked)))
    by apply groupby_partition, StrictTotal_str_ltb.
  split; [exact HP|]. split.
  { apply Forall_forall. intros [k g] Hg.
    destruct (groupby_group Zone StrictTotal_str_ltb _ _ _ Hg) as [Eg [Hne _]].
    cbn [fst snd]. split; [exact Hne|]. rewrite Eg. unfold of_zone.
    apply filter_ext. intros r. apply key_eqb_str. }
  split.
  { rewrite (groupby_keys Zone str_ltb). apply (group_keys_NoDup Zone StrictTotal_str_ltb). }
  rewrite (Permutation_length HP). clear HP.
  induction (groupby Zone str_ltb stacked) as [|g l IH]; simpl; [reflexivity|].
  rewrite length_app, IH. reflexivity.
Qed.

Lemma strictly_ascending_length (l : list Z) (a b : Z) :
  StronglySorted Z.lt l -> Forall (fun x => (a <= x <= b)%Z) l ->
  (Z.of_nat (length l) <= Z.max 0 (b - a + 1))%Z.
Proof.
  intros Hs. revert a. induction Hs as [|x t Hs IH Hx]; intros a Hab; simpl length.
  - simpl. lia.
  - inversion Hab as [|? ? Hxa Ht]; subst.
    assert (Ht' : Forall (fun y => (x + 1 <= y <= b)%Z) t).
    { rewrite Forall_forall in *. intros y Hy. specialize (Hx y Hy). specialize (Ht y Hy). lia. }
    specialize (IH (x + 1)%Z Ht'). lia.
Qed.

(** X13: the hour-of-day profile has one row for each hour met in the long
    form, the hours ascending; each row has a mean; with timestamps at full
    hours of the day the hours lie in 0..23 and the rows are at most 24. *)
Theorem hod_one_row_per_hour (stacked : list LongRecord) :
  StronglySorted Z.lt (map fst (hod stacked)) /\
  (forall h, In h (map fst (hod stacked)) <-> exists r, In r stacked /\ hour (Date r) = h) /\
  Forall (fun e => exists m, snd e = Some m) (hod stacked) /\
  (Forall (fun r => valid_ts (Date r)) stacked ->
   Forall (fun e => (0 <= fst e <= 23)%Z) (hod stacked) /\
   (length (hod stacked) <= 24)%nat).
Proof.
  assert (Hs : StronglySorted Z.lt (map fst (hod stacked))).
  { rewrite hod_hours.
    eapply StronglySorted_weaken;
      [|apply (group_keys_sorted (fun r => hour (Date r)) StrictTotal_Zltb)].
    intros x y H. apply Z.ltb_lt. exact H. }
  assert (Hin : forall h, In h (map fst (hod stacked))
                          <-> exists r, In r stacked /\ hour (Date r) = h).
  { intros h. rewrite hod_hours.
    apply (group_keys_In (fun r => hour (Date r)) StrictTotal_Zltb). }
  split; [exact Hs|]. split; [exact Hin|]. split.
  - apply Forall_forall. intros e He. unfold hod in He.
    apply in_map_iff in He. destruct He as [[k g] [<- Hg]].
    destruct (groupby_group (fun r => hour (Date r)) StrictTotal_Zltb _ _ _ Hg)
      as [_ [Hne _]].
    cbn [snd]. apply mean_nonempty. unfold prices. destruct g; [congruence | discriminate].
  - intros Hv.
    assert (Hr : Forall (fun h => (0 <= h <= 23)%Z) (map fst (hod stacked))).
    { apply Forall_forall. intros h Hh. apply Hin in Hh. destruct Hh as [r [Hr <-]].
      rewrite Forall_forall in Hv. destruct (Hv r Hr) as [_ [_ H]]. exact H. }
    split.
    + apply Forall_forall. intros e He. rewrite Forall_forall in Hr.
      apply Hr. apply in_map. exact He.
    + pose proof (strictly_ascending_length Hs Hr) as Hl.
      rewrite length_map in Hl. lia.
Qed.

Lemma day_name_in_week (t : Timestamp) : In (day_name t) dow_order.
Proof.
  unfold day_name. apply nth_In.
  pose proof (Z.mod_pos_bound (days_from_civil t + 3) 7 ltac:(lia)) as H.
  change (length dow_order) with 7%nat. lia.
Qed.

(** X14: the day-of-week profile lists Monday to Sunday in that order.  Every
    group of the group-by on the day name has one of the seven names, so the
    reindex drops none of them; a day on which some record falls has the
    mean of the prices of the records that fall on it, and a day is NaN
    exactly when no record falls on it. *)
Theorem dow_covers_the_week (stacked : list LongRecord) :
  map fst (dow stacked) = dow_order /\
  (forall k, In k (group_keys (fun r => day_name (Date r)) str_ltb stacked) ->
             In k dow_order) /\
  (forall d, In d dow_order ->
             (exists r, In r stacked /\ day_name (Date r) = d) ->
             exists m,
               In (d, Some m) (dow stacked) /\
               mean (prices (filter (fun r => String.eqb (day_name (Date r)) d) stacked))
               = Some m) /\
  (forall d, In (d, None) (dow stacked) <->
             In d dow_order /\ forall r, In r stacked -> day_name (Date r) <> d).
Proof.
  split; [rewrite dow_entries, map_map; simpl; reflexivity|].
  split.
  { intros k Hk. apply (group_keys_In (fun r => day_name (Date r)) StrictTotal_str_ltb) in Hk.
    destruct Hk as [r [_ <-]]. apply day_name_in_week. }
  rewrite dow_entries.
  assert (Hrow : forall d r, In r stacked -> day_name (Date r) = d ->
                   exists m, match filter (fun r => String.eqb (day_name (Date r)) d) stacked with
                             | [] => None
                             | g => mean (prices g)
                             end = Some m /\
                             mean (prices (filter (fun r => String.eqb (day_name (Date r)) d)
                                                  stacked)) = Some m).
  { intros d r Hr Hd.
    assert (Hf : In r (filter (fun r => String.eqb (day_name (Date r)) d) stacked)).
    { apply filter_In. split; [exact Hr | apply String.eqb_eq; exact Hd]. }
    destruct (filter _ stacked) as [|a g] eqn:Ef; [contradiction|].
    destruct (@mean_nonempty (prices (a :: g))) as [m Hm]; [discriminate|].
    exists m. split; exact Hm. }
  split.
  - intros d Hd [r [Hr Hday]]. destruct (Hrow d r Hr Hday) as [m [Hm Hmean]].
    exists m. split; [|exact Hmean]. apply in_map_iff. exists d.
    split; [rewrite Hm; reflexivity | exact Hd].
  - intros d. rewrite in_map_iff. split.
    + intros [d' [E Hd']]. injection E as -> E. split; [exact Hd'|].
      intros r Hr Hday. destruct (Hrow d r Hr Hday) as [m [Hm _]].
      destruct (filter _ stacked); discriminate.
    + intros [Hd Hnone]. exists d. split; [|exact Hd].
      rewrite filter_none; [reflexivity|].
      intros r Hr. apply String.eqb_neq. apply Hnone. exact Hr.
Qed.

(** ** From a sheet that can be read to the derived views *)

Lemma all_some_total {A} (l : list (option A)) :
  (forall o, In o l -> exists a, o = Some a) -> exists l', all_some l = Some l'.
Proof.
  induction l as [|o l IH]; intros H; simpl; [eexists; reflexivity|].
  destruct (H o (or_introl eq_refl)) as [a ->].
  destruct IH as [l' ->]; [intros; apply H; right; assumption|].
  eexists; reflexivity.
Qed.

Lemma all_some_map {A B} (f : A -> option B) (l : list A) (l' : list B) :
  all_some (map f l) = Some l' -> Forall2 (fun a b => f a = Some b) l l'.
Proof.
  revert l'. induction l as [|a l IH]; simpl; intros l' H.
  - injection H as <-. constructor.
  - destruct (f a) as [b|] eqn:E; [|discriminate].
    destruct (all_some (map f l)) as [l''|]; [|discriminate].
    injection H as <-. constructor; [exact E | apply IH; reflexivity].
Qed.

Lemma stack_row_dates (zones : list string) (r : Row) (rec : LongRecord) :
  In rec (stack_row zones r) -> Date rec = index r.
Proof.
  unfold stack_row. intros H. apply cell_records_In in H.
  destruct H as [j [p [_ [_ E]]]]. rewrite E. reflexivity.
Qed.

Lemma constant_block_sorted {A B} (f : A -> B) (R : B -> B -> Prop) (d : B) (l : list A) :
  R d d -> (forall x, In x l -> f x = d) -> StronglySorted R (map f l).
Proof.
  intros Hd. induction l as [|a l IH]; intros H; simpl; constructor.
  - apply IH. intros; apply H; right; assumption.
  - apply Forall_forall. intros y Hy. apply in_map_iff in Hy.
    destruct Hy as [x [<- Hx]].
    rewrite (H a (or_introl eq_refl)), (H x (or_intror Hx)). exact Hd.
Qed.

Lemma roll_length (rs : RawSeries) : length (roll rs) = length (rows rs).
Proof.
  unfold roll, roll_with. cbv zeta. rewrite length_map, !length_combine.
  unfold rolling, avg2. rewrite !length_map, !length_seq, ?length_map. lia.
Qed.

(** The long form goes through the rows in their order. *)
Lemma stack_dates_ascending (rs : RawSeries) :
  ascending_by ts_ltb (map index (rows rs)) ->
  ascending_by ts_ltb (map Date (stack rs)).
Proof.
  unfold ascending_by, stack. induction (rows rs) as [|r l IH]; intros H; simpl;
    [constructor|].
  inversion H as [|? ? Hs Hr]; subst. rewrite map_app.
  apply StronglySorted_app.
  - apply constant_block_sorted with (d := index r).
    + destruct (ts_ltb (index r) (index r)) eqn:E; [|reflexivity].
      rewrite (less_asym StrictWeak_ts_ltb _ _ E) in E. discriminate.
    + intros rec Hrec. apply (stack_row_dates _ _ _ Hrec).
  - apply IH. exact Hs.
  - intros x y Hx Hy. apply in_map_iff in Hx, Hy.
    destruct Hx as [a [<- Ha]], Hy as [b [<- Hb]].
    rewrite (stack_row_dates _ _ _ Ha).
    apply in_flat_map in Hb. destruct Hb as [r' [Hr' Hb]].
    rewrite (stack_row_dates _ _ _ Hb).
    rewrite Forall_forall in Hr. apply Hr. apply in_map. exact Hr'.
Qed.

Lemma default_zone_defined (zones : list string) :
  zones <> [] -> exists z, default_zone zones = Some z /\ In z zones.
Proof.
  intros Hne. unfold default_zone.
  destruct (existsb (String.eqb "PJM-RTO ZONE") zones) eqn:E.
  - apply existsb_exists in E. destruct E as [z [Hin Hz]].
    apply String.eqb_eq in Hz. subst z. eauto.
  - destruct zones as [|z l]; [congruence|]. exists z. simpl. auto.
Qed.

Lemma default_year_defined (stacked : list LongRecord) :
  stacked <> [] ->
  exists y, default_year (monthly stacked) = Some y /\
            (exists r, In r stacked /\ year (Date r) = y) /\
            forall r, In r stacked -> (year (Date r) <= y)%Z.
Proof.
  intros Hne.
  assert (Hs : StronglySorted (fun a b => (a <? b)%Z = true) (years_sorted (monthly stacked)))
    by apply (group_keys_sorted year_of_row StrictTotal_Zltb).
  destruct (default_year (monthly stacked)) as [y|] eqn:E.
  - exists y. split; [reflexivity|].
    destruct (last_is_greatest Hs E) as [Hin Hmax]. split.
    + apply years_sorted_In. exact Hin.
    + intros r Hr. apply Hmax. apply years_sorted_In. eauto.
  - exfalso. unfold default_year in E. apply nth_error_None in E.
    destruct stacked as [|r l]; [congruence|].
    assert (Hin : In (year (Date r)) (years_sorted (monthly (r :: l))))
      by (apply years_sorted_In; exists r; split; [left; reflexivity | reflexivity]).
    destruct (years_sorted (monthly (r :: l))); [contradiction | simpl in E; lia].
Qed.

Section ReadableSheet.
Variable kind : Sorter.
Variable to_datetime : Cell -> option (option Timestamp).
Hypothesis contract : sort_contract kind.
Variable sheet : DataFrame.
Hypothesis has_date : In "Date"%string (columns sheet).
Hypothesis readable : Forall (readable_row to_datetime (columns sheet)) (data sheet).

Lemma readable_dates_read :
  Forall (date_read to_datetime (columns sheet)) (data sheet).
Proof.
  eapply Forall_impl; [|exact readable].
  intros row [[c [t [Hc [Ht _]]]] _]. exists c, (Some t). auto.
Qed.

(** A row of the loaded frame gives a row of the series, under a date of
    the calendar. *)
Lemma loaded_row_wide (row row' : list Cell) :
  In row (data sheet) ->
  (exists c, date_cell (columns sheet) row = Some c /\
             to_datetime c = loaded_date (columns sheet) row') ->
  zone_cells (columns sheet) row' = zone_cells (columns sheet) row ->
  exists r, wide_row (columns sheet) row' = Some r /\ valid_ts (index r) /\
            loaded_date (columns sheet) row' = Some (Some (index r)).
Proof.
  intros Hrow [c [Hc Hd]] Hz.
  pose proof readable as Hread. rewrite Forall_forall in Hread.
  destruct (Hread row Hrow) as [[c' [t [Hc' [Ht Hv]]]] Hcells].
  assert (c' = c) by congruence. subst c'. rewrite Ht in Hd.
  assert (Hrd : row_date (columns sheet) row' = Some t).
  { unfold loaded_date in Hd. unfold row_date.
    destruct (date_cell (columns sheet) row') as [[q| |t'| |x]|];
      try discriminate; congruence. }
  destruct (@all_some_total _ (map as_float (zone_cells (columns sheet) row')))
    as [vs Hvs].
  { intros o Ho. rewrite Hz in Ho. apply in_map_iff in Ho. destruct Ho as [x [<- Hx]].
    rewrite Forall_forall in Hcells. apply Hcells. exact Hx. }
  exists {| index := t; values := vs |}. unfold wide_row. rewrite Hrd, Hvs.
  split; [reflexivity|]. split; [exact Hv | symmetry; exact Hd].
Qed.

Lemma sheet_to_series :
  exists df rs,
    load_data kind to_datetime sheet = Ok df /\ wide df = Some rs /\
    zone_cols rs = filter (fun c => negb (is_Date c)) (columns sheet) /\
    length (rows rs) = length (data sheet) /\
    ascending_by ts_ltb (map index (rows rs)) /\
    Forall (fun r => valid_ts (index r)) (rows rs).
Proof.
  destruct (load_data_keyed kind to_datetime sheet has_date) as [Hgood _].
  destruct (Hgood readable_dates_read) as [keyed [_ Hload]].
  destruct (load_data_sorted to_datetime sheet contract has_date Hload)
    as [Hcols [[source [HP Hsrc]] [dates [n [Hdates Hasc]]]]].
  cbn [columns data] in *.
  set (loaded := map snd (sort_values kind by_date true (dated keyed)) ++ undated keyed) in *.
  assert (Hrows : Forall (fun row' => exists r,
                              wide_row (columns sheet) row' = Some r /\
                              valid_ts (index r) /\
                              loaded_date (columns sheet) row' = Some (Some (index r)))
                         loaded).
  { clear - Hsrc HP readable has_date contract.
    assert (Hin : forall row, In row source -> In row (data sheet))
      by (intros row; apply Permutation_in; symmetry; exact HP).
    clear HP. induction Hsrc as [|row row' l l' [H1 H2] _ IH]; constructor.
    - apply (@loaded_row_wide row row'); [apply Hin; left; reflexivity | exact H1 | exact H2].
    - apply IH. intros r Hr. apply Hin. right. exact Hr. }
  destruct (@all_some_total _ (map (wide_row (columns sheet)) loaded)) as [rws Hw].
  { intros o Ho. apply in_map_iff in Ho. destruct Ho as [row' [<- Hr']].
    rewrite Forall_forall in Hrows. destruct (Hrows row' Hr') as [r [Hr _]]. eauto. }
  pose proof (all_some_map _ _ Hw) as Hpair.
  assert (Hidx : map (loaded_date (columns sheet)) loaded
                 = map (fun r => Some (Some (index r))) rws /\
                 Forall (fun r => valid_ts (index r)) rws).
  { clear - Hpair Hrows. induction Hpair as [|row' r l l' Hr _ IH]; [split; constructor|].
    inversion Hrows as [|? ? [r' [Hr' [Hv Hd]]] Hrest]; subst.
    assert (r' = r) by congruence. subst r'.
    destruct (IH Hrest) as [IH1 IH2]. simpl. rewrite Hd, IH1.
    split; [reflexivity | constructor; assumption]. }
  destruct Hidx as [Hidx Hvalid].
  assert (Hn : n = 0%nat).
  { destruct n as [|n]; [reflexivity|]. exfalso.
    assert (Hlast : In (Some (@None Timestamp))
                       (map (fun r => Some (Some (index r))) rws)).
    { rewrite <- Hidx, Hdates. apply in_or_app. right. simpl. auto. }
    apply in_map_iff in Hlast. destruct Hlast as [r [E _]]. discriminate. }
  subst n. cbn [repeat] in Hdates. rewrite app_nil_r in Hdates.
  assert (Edates : dates = map index rws).
  { rewrite Hidx in Hdates. clear - Hdates. revert dates Hdates.
    induction rws as [|r l IH]; intros [|t dates] H; simpl in H; try discriminate;
      [reflexivity|].
    injection H as E1 E2. simpl. rewrite E1, (IH dates E2). reflexivity. }
  eexists. exists {| zone_cols := filter (fun c => negb (is_Date c)) (columns sheet);
                     rows := rws |}.
  split; [exact Hload|]. split; [unfold wide; cbn [columns data]; fold loaded; rewrite Hw;
                                 reflexivity|].
  cbn [zone_cols rows]. split; [reflexivity|].
  split.
  { rewrite <- (Forall2_length Hpair), <- (Forall2_length Hsrc).
    symmetry. apply Permutation_length. exact HP. }
  split; [rewrite <- Edates; exact Hasc | exact Hvalid].
Qed.

End ReadableSheet.

(** What [aggregate] gives once the timestamps are dates of the calendar. *)
Lemma aggregate_outcome (kind : Sorter) (rs : RawSeries) :
  sort_contract kind ->
  Forall (fun r => valid_ts (index r)) (rows rs) ->
  (zone_cols rs = [] -> aggregate kind rs = Raise IndexError) /\
  (stack rs = [] -> aggregate kind rs = Raise IndexError) /\
  (zone_cols rs <> [] -> stack rs <> [] ->
   exists zs dz se dy,
     zone_summary kind (stack rs) = Ok zs /\
     default_zone (zone_cols rs) = Some dz /\
     seasonal (stack rs) = Ok se /\
     default_year (monthly (stack rs)) = Some dy /\
     aggregate kind rs
     = Ok {| v_stacked := stack rs;
             v_monthly := monthly (stack rs);
             v_overall := overall rs;
             v_zone_summary := zs;
             v_top10 := top10 zs;
             v_default_zone := dz;
             v_spark_zones := spark_zones kind zs;
             v_roll := roll rs;
             v_spread := spread rs;
             v_hod := hod (stack rs);
             v_dow := dow (stack rs);
             v_seasonal := se;
             v_corr := corr rs;
             v_idxmax := idxmax kind (stack rs);
             v_idxmin := idxmin kind (stack rs);
             v_default_year := dy |}).
Proof.
  intros C Hv.
  destruct (zone_summary_rows (stack rs) C) as [zs [Hzs _]].
  destruct (@seasonal_spec (stack rs) (@stack_valid_ts rs Hv)) as [w [sp [su [au [Hse _]]]]].
  unfold aggregate. rewrite Hzs. cbn [bind]. split; [|split].
  - intros E. rewrite E. reflexivity.
  - intros E. destruct (default_zone (zone_cols rs)) as [dz|]; [|reflexivity].
    cbn [index_error bind]. rewrite Hse. cbn [bind]. rewrite E. reflexivity.
  - intros Hz Hs.
    destruct (default_zone_defined Hz) as [dz [Hdz _]].
    destruct (default_year_defined Hs) as [dy [Hdy _]].
    rewrite Hdz, Hse, Hdy. cbn [index_error bind].
    do 4 eexists. repeat split; reflexivity.
Qed.



(** A sheet with its header only has no year; a sheet without a zone column
    has no zone. *)
Example aggregate_header_only :
  option_map (aggregate insertion_sort)
             (wide {| columns := ["Date"; "A"]%string; data := [] |})
  = Some (Raise IndexError).
Proof. vm_compute. reflexivity. Qed.

Example aggregate_dates_only :
  option_map (aggregate insertion_sort)
             (wide {| columns := ["Date"]%string; data := [ [Stamp (ts 2021 1 1 0)] ] |})
  = Some (Raise IndexError).
Proof. vm_compute. reflexivity. Qed.

(** A row without a date is outside what is embedded of [build_dashboard]. *)
Example wide_undated_row :
  wide {| columns := ["A"; "Date"]%string; data := [ [Num 1; NaT] ] |} = None.
Proof. reflexivity. Qed.

(** ** The seasonality figure: a zone's months, year by year *)

Lemma StronglySorted_weaken_on {A} (P : A -> Prop) (R S : A -> A -> Prop) (l : list A) :
  (forall x y, P x -> P y -> R x y -> S x y) ->
  Forall P l -> StronglySorted R l -> StronglySorted S l.
Proof.
  intros HRS HP Hs. induction Hs as [|a l Hs IH Ha]; constructor.
  - apply IH. inversion HP; assumption.
  - inversion HP as [|? ? Hpa Hpl]; subst. rewrite Forall_forall in *.
    intros x Hx. apply HRS; auto.
Qed.

Lemma same_zone_year_by_month (a b : string * (Z * Z) * option Q) :
  zone_of_row a = zone_of_row b -> year_of_row a = year_of_row b ->
  ym_ltb (fst a) (fst b) = true -> by_month a b = true.
Proof.
  destruct a as [[za [ya ma]] pa], b as [[zb [yb mb]] pb].
  unfold zone_of_row, year_of_row, by_month, month_of_row, ym_ltb, lex_ltb, key_eqb.
  cbn [fst snd]. intros -> ->.
  rewrite str_ltb_irrefl, Z.ltb_irrefl. cbn [negb andb orb]. intros H. exact H.
Qed.

Lemma combine_map_map {A B C} (f : A -> B) (g : A -> C) (l : list A) :
  combine (map f l) (map g l) = map (fun e => (f e, g e)) l.
Proof.
  induction l as [|a l IH]; simpl; [reflexivity | rewrite IH; reflexivity].
Qed.

Lemma ascending_from (l : list Z) (a : Z) (j : nat) (x : Z) :
  StronglySorted Z.lt l -> Forall (fun v => (a <= v)%Z) l ->
  nth_error l j = Some x -> (a + Z.of_nat j <= x)%Z.
Proof.
  intros Hs. revert a j. induction Hs as [|v t Hs IH Hv]; intros a j Ha Hj.
  - destruct j; discriminate.
  - inversion Ha as [|? ? Hav Hat]; subst. destruct j as [|j]; simpl in Hj.
    + injection Hj as <-. lia.
    + assert (Ht : Forall (fun u => (v + 1 <= u)%Z) t).
      { rewrite Forall_forall in *. intros u Hu. specialize (Hv u Hu). lia. }
      specialize (IH (v + 1)%Z j Ht Hj). lia.
Qed.

Section ZoneMenu.
Variable kind : Sorter.
Hypothesis contract : sort_contract kind.
Variable stacked : list LongRecord.
Variable z : string.
Variable y : Z.

Lemma zone_year_rows :
  zone_year kind (monthly stacked) z y
  = filter (fun e => (year_of_row e =? y)%Z)
           (filter (fun e => String.eqb (zone_of_row e) z) (monthly stacked)) /\
  StronglySorted (fun a b => by_month a b = true) (zone_year kind (monthly stacked) z y).
Proof.
  set (F := filter (fun e => (year_of_row e =? y)%Z)
                   (filter (fun e => String.eqb (zone_of_row e) z) (monthly stacked))).
  assert (Hs : StronglySorted (fun a b => by_month a b = true) F).
  { apply (@StronglySorted_weaken_on _
             (fun e => zone_of_row e = z /\ year_of_row e = y)
             (fun a b => ym_ltb (fst a) (fst b) = true)).
    - intros a b [Za Ya] [Zb Yb] H. apply same_zone_year_by_month; congruence.
    - apply Forall_forall. intros e He. unfold F in He.
      apply filter_In in He. destruct He as [He Hy]. apply filter_In in He.
      destruct He as [_ Hz]. apply String.eqb_eq in Hz. apply Z.eqb_eq in Hy. auto.
    - unfold F. do 2 apply StronglySorted_filter.
      apply (@StronglySorted_map_inv _ _ fst (fun a b => ym_ltb a b = true)).
      rewrite monthly_keys. apply (group_keys_sorted ym_key StrictTotal_ym_ltb). }
  assert (E : zone_year kind (monthly stacked) z y = F).
  { unfold zone_year. fold F. apply (sorted_perm_unique (less := by_month)).
    - exact Hs.
    - apply sort_values_perm. exact contract.
    - apply (sort_values_ascending contract).
      apply (StrictWeak_key month_of_row). exact StrictWeak_Zltb. }
  split; [exact E | rewrite E; exact Hs].
Qed.

Lemma zone_year_In (e : string * (Z * Z) * option Q) :
  In e (zone_year kind (monthly stacked) z y)
  <-> In e (monthly stacked) /\ zone_of_row e = z /\ year_of_row e = y.
Proof.
  rewrite (proj1 zone_year_rows), !filter_In, String.eqb_eq, Z.eqb_eq. tauto.
Qed.

End ZoneMenu.

(** X17: a year's trace of the seasonality figure holds the monthly averages
    of the zone in that year, the months ascending: sorting by month moves
    no row.  A zone's menu button carries the same prices, year by year,
    but always the months 1..12 beside them; the price at position j is
    that of a month not before j + 1. *)
Theorem zone_menu_traces (kind : Sorter) (stacked : list LongRecord) (z : string) (y : Z) :
  sort_contract kind ->
  let m := monthly stacked in
  zone_year kind m z y
  = filter (fun e => (year_of_row e =? y)%Z)
           (filter (fun e => String.eqb (zone_of_row e) z) m) /\
  StronglySorted Z.lt (fst (zone_trace kind m z y)) /\
  (forall mth p, In (mth, p) (combine (fst (zone_trace kind m z y))
                                      (snd (zone_trace kind m z y)))
                 <-> In (z, (y, mth), p) m) /\
  (forall k yk, nth_error (years_sorted m) k = Some yk ->
                nth_error (fst (zone_button kind m z)) k = Some months_ticks /\
                nth_error (snd (zone_button kind m z)) k
                = Some (snd (zone_trace kind m z yk))) /\
  (Forall (fun r => valid_ts (Date r)) stacked ->
   forall j mth, nth_error (fst (zone_trace kind m z y)) j = Some mth ->
                 (Z.of_nat (S j) <= mth <= 12)%Z).
Proof.
  intros C m. destruct (zone_year_rows C stacked z y) as [E Hs]. fold m in E, Hs.
  assert (Hmonths : StronglySorted Z.lt (map month_of_row (zone_year kind m z y))).
  { apply StronglySorted_map. eapply StronglySorted_weaken; [|exact Hs].
    intros a b H. apply Z.ltb_lt. exact H. }
  split; [exact E|]. unfold zone_trace. cbn [fst snd].
  split; [exact Hmonths|]. split.
  { intros mth p. rewrite combine_map_map, in_map_iff. split.
    - intros [e [He Hin]]. apply (zone_year_In C) in Hin. fold m in Hin.
      destruct Hin as [Hin [Hz Hy]].
      destruct e as [[ze [ye me]] pe].
      unfold zone_of_row, year_of_row, month_of_row in *. cbn [fst snd] in *.
      injection He as -> ->. subst. exact Hin.
    - intros Hin. exists (z, (y, mth), p). split; [reflexivity|].
      apply (zone_year_In C). auto. }
  split.
  { intros k yk Hk. unfold zone_button. cbn [fst snd]. split.
    - rewrite nth_error_repeat; [reflexivity|]. apply nth_error_Some. congruence.
    - rewrite nth_error_map, Hk. reflexivity. }
  intros Hv j mth Hj.
  assert (Hrange : Forall (fun v => (1 <= v <= 12)%Z)
                          (map month_of_row (zone_year kind m z y))).
  { apply Forall_forall. intros v Hin. apply in_map_iff in Hin.
    destruct Hin as [e [<- He]]. apply (zone_year_In C) in He. destruct He as [He _].
    assert (Hk : In (fst e) (group_keys ym_key ym_ltb stacked))
      by (rewrite <- monthly_keys; apply in_map; exact He).
    apply (group_keys_In ym_key StrictTotal_ym_ltb) in Hk.
    destruct Hk as [r [Hr Hkey]]. unfold month_of_row. rewrite <- Hkey. cbn [ym_key fst snd].
    rewrite Forall_forall in Hv. destruct (Hv r Hr) as [Hm _]. exact Hm. }
  split.
  - assert (Hlow : Forall (fun v => (1 <= v)%Z) (map month_of_row (zone_year kind m z y))).
    { eapply Forall_impl; [|exact Hrange]. intros; cbv beta in *; lia. }
    pose proof (@ascending_from _ 1%Z j mth Hmonths Hlow Hj). lia.
  - rewrite Forall_forall in Hrange. apply nth_error_In in Hj.
    destruct (Hrange mth Hj). assumption.
Qed.

Lemma zone_menu_traces_witness :
  sort_contract insertion_sort /\
  zone_trace insertion_sort (monthly (stack two_zones)) "A" 2021
  = ([1%Z], map snd (filter (fun e => String.eqb (zone_of_row e) "A")
                            (monthly (stack two_zones)))).
Proof.
  split; [exact insertion_sort_contract|].
  destruct (@zone_menu_traces insertion_sort (stack two_zones) "A" 2021
                              insertion_sort_contract) as [E _].
  unfold zone_trace. rewrite E. reflexivity.
Defined.
